(** * File Examiner: the path policy, the pattern matcher and the four tools

    A shallow embedding of the tools provider of the LM Studio "File
    Examiner" plugin (the configuration-aware [fileExaminerTools], with its
    helpers [validatePath], [validateExtension], [matchesPattern] and
    [searchInDirectory]) and of the properties its specification states
    about it.  The older copy of the provider has the same [validatePath],
    [matchesPattern] and [searchInDirectory] with a constant policy.

    Conventions of the embedding:
    - a JavaScript string is a [string]: the sequence of its code units,
      taken below 256 (ASCII and Latin-1);
    - a number that holds a size, a time stamp or a depth is an [N] or a
      [nat];
    - [throw new Error(msg)] is the result [Throw msg]; the [try]/[catch] of
      each tool turns it into the envelope [Failure msg];
    - the host (working directory, file system, MIME table) is an explicit
      record [Host], constant during a call;
    - Node's [path] module is modelled for POSIX hosts;
    - [sizeFormatted], a floating-point rendering of the size, is left out
      of the envelopes; [formatFileSize] is modelled on its own, over the
      rationals.

    The last part of the definitions covers the add-on class
    [FileExaminer]: its matcher, its search and its [formatFileSize]. *)

From Stdlib Require Import String Ascii List Bool Arith NArith Lia.
From Stdlib Require Import DecimalString.
From Stdlib Require ZArith QArith Qround.
Import ListNotations.

Local Open Scope list_scope.
Local Open Scope string_scope.

(** ** JavaScript strings *)

Module JsString.

(** Code unit of a character. *)
Definition code (c : ascii) : nat := nat_of_ascii c.

(** [String.prototype.toLowerCase] on one code unit below 256: A-Z and the
    Latin-1 capitals (0xC0-0xDE without the multiplication sign 0xD7) move
    up by 32. *)
Definition lowerChar (c : ascii) : ascii :=
  let n := code c in
  if (((65 <=? n) && (n <=? 90))
      || ((192 <=? n) && (n <=? 222) && negb (n =? 215)))%nat
  then ascii_of_nat (n + 32)
  else c.

Fixpoint toLowerCase (s : string) : string :=
  match s with
  | EmptyString => EmptyString
  | String c r => String (lowerChar c) (toLowerCase r)
  end.

(** [s.startsWith(p)] *)
Definition startsWith (s p : string) : bool := String.prefix p s.

(** [xs.includes(x)] on an array of strings *)
Definition includes (xs : list string) (x : string) : bool :=
  existsb (String.eqb x) xs.

(** [xs.join(sep)] *)
Definition join (sep : string) (xs : list string) : string :=
  String.concat sep xs.

(** [s.split(c)] for a one-character separator: never the empty list. *)
Fixpoint split (c : ascii) (s : string) : list string :=
  match s with
  | EmptyString => [EmptyString]
  | String a r =>
      if Ascii.eqb a c then EmptyString :: split c r
      else match split c r with
           | [] => [String a EmptyString]
           | seg :: rest => String a seg :: rest
           end
  end.

(** [s.replace(/c/g, by)] for a one-character pattern. *)
Fixpoint replaceAll (c : ascii) (by_ : string) (s : string) : string :=
  match s with
  | EmptyString => EmptyString
  | String a r =>
      if Ascii.eqb a c then by_ ++ replaceAll c by_ r
      else String a (replaceAll c by_ r)
  end.

(** Reversal, used by the scans of [path] that run from the right. *)
Fixpoint rev_onto (s acc : string) : string :=
  match s with
  | EmptyString => acc
  | String a r => rev_onto r (String a acc)
  end.

Definition rev (s : string) : string := rev_onto s EmptyString.

Fixpoint dropWhile (p : ascii -> bool) (s : string) : string :=
  match s with
  | EmptyString => EmptyString
  | String a r => if p a then dropWhile p r else s
  end.

Fixpoint takeWhile (p : ascii -> bool) (s : string) : string :=
  match s with
  | EmptyString => EmptyString
  | String a r => if p a then String a (takeWhile p r) else EmptyString
  end.

(** Template literal of a non-negative integer: its decimal digits. *)
Definition ofNumber (n : N) : string :=
  NilZero.string_of_uint (N.to_uint n).

End JsString.

Import JsString.

(** ** Node's [path] module (POSIX flavour) *)

Module Path.

Definition isSlash (c : ascii) : bool := Ascii.eqb c "/"%char.

(** [normalizeString]: the segments of a path with the empty and "."
    segments dropped and each ".." cancelling the segment before it.
    [res] is the stack of segments kept so far, last one first. *)
Fixpoint normalizeSegments (allowAboveRoot : bool) (res : list string)
         (segs : list string) : list string :=
  match segs with
  | [] => List.rev res
  | seg :: rest =>
      if (seg =? "")%string || (seg =? ".")%string then
        normalizeSegments allowAboveRoot res rest
      else if (seg =? "..")%string then
        match res with
        | top :: res' =>
            if (top =? "..")%string then
              normalizeSegments allowAboveRoot
                (if allowAboveRoot then ".." :: res else res) rest
            else normalizeSegments allowAboveRoot res' rest
        | [] =>
            normalizeSegments allowAboveRoot
              (if allowAboveRoot then [".."] else []) rest
        end
      else normalizeSegments allowAboveRoot (seg :: res) rest
  end.

Definition normalizeString (p : string) (allowAboveRoot : bool) : string :=
  join "/" (normalizeSegments allowAboveRoot [] (split "/" p)).

(** [path.resolve(p)] with the process working directory [cwd]. *)
Definition resolve (cwd p : string) : string :=
  let resolvedPath := if (p =? "")%string then "" else p ++ "/" in
  let resolvedAbsolute := startsWith p "/" in
  let resolvedPath :=
    if resolvedAbsolute then resolvedPath
    else if (cwd =? "")%string then resolvedPath
    else cwd ++ "/" ++ resolvedPath in
  let resolvedAbsolute := resolvedAbsolute || startsWith cwd "/" in
  let normalized := normalizeString resolvedPath (negb resolvedAbsolute) in
  if resolvedAbsolute then "/" ++ normalized
  else if (normalized =? "")%string then "." else normalized.

(** [path.normalize(p)] *)
Definition normalize (p : string) : string :=
  if (p =? "")%string then "."
  else
    let isAbsolute := startsWith p "/" in
    let trailingSeparator := startsWith (rev p) "/" in
    let q := normalizeString p (negb isAbsolute) in
    if (q =? "")%string then
      if isAbsolute then "/"
      else if trailingSeparator then "./" else "."
    else
      let q := if trailingSeparator then q ++ "/" else q in
      if isAbsolute then "/" ++ q else q.

(** [path.join(a, b)] *)
Definition join2 (a b : string) : string :=
  let joined :=
    if (a =? "")%string then b
    else if (b =? "")%string then a
    else a ++ "/" ++ b in
  if (joined =? "")%string then "." else normalize joined.

(** The last segment of a path, trailing separators ignored:
    [path.basename(p)]. *)
Definition basename (p : string) : string :=
  rev (takeWhile (fun c => negb (isSlash c)) (dropWhile isSlash (rev p))).

(** [path.dirname(p)]: the scan runs from the right and never looks at
    the first character. *)
Definition dirname (p : string) : string :=
  match p with
  | EmptyString => "."
  | String c0 tl =>
      let hasRoot := isSlash c0 in
      let left :=
        dropWhile (fun c => negb (isSlash c)) (dropWhile isSlash (rev tl)) in
      match left with
      | EmptyString => if hasRoot then "/" else "."
      | String _ before =>
          if hasRoot && (before =? "")%string then "//"
          else String c0 (rev before)
      end
  end.

(** Index-free form of [path.extname(p)]: the text from the last dot of the
    base name on, and nothing when there is no dot, when the only dot
    starts the base name, or when the base name is "..". *)
Definition extname (p : string) : string :=
  let b := basename p in
  let tailRev := takeWhile (fun c => negb (Ascii.eqb c "."%char)) (rev b) in
  let rest := dropWhile (fun c => negb (Ascii.eqb c "."%char)) (rev b) in
  match rest with
  | EmptyString => ""                       (* no dot *)
  | String _ EmptyString => ""              (* the dot starts the name *)
  | String _ _ =>
      if (b =? "..")%string then "" else String "."%char (rev tailRev)
  end.

End Path.

(** ** The fragment of JavaScript regular expressions the matcher builds

    [new RegExp(source, "i")] followed by [regex.test(name)].  The fragment
    covers what the pattern compiler itself emits (the anchors, the dot and
    the starred dot) and, from the caller's pattern, literal characters, the
    dot, the anchors and the alternation bar.  A source that uses anything
    else (a backslash, a group, a class, a brace, a plus, a question mark, a
    star with nothing to repeat) is outside the fragment: [RegExp_new] is
    [None] there, and nothing is stated about it. *)

Module Regex.

Inductive atom : Type :=
| AChar (c : ascii)        (* a pattern character *)
| AAny.                    (* the dot *)

Inductive term : Type :=
| TAtom (a : atom)
| TStar (a : atom)         (* a starred atom *)
| TBol                     (* ^ *)
| TEol.                    (* $ *)

Definition alternative := list term.
Definition regex := list alternative.    (* the alternatives of a | b | c *)

(** The atom a source character stands for, when it is one. *)
Definition atomOf (c : ascii) : option atom :=
  if Ascii.eqb c "."%char then Some AAny
  else if existsb (Ascii.eqb c)
            ["^"; "$"; "\"; "*"; "+"; "?"; "("; ")"; "["; "]"; "{"; "}"; "|"]%char
       then None
       else Some (AChar c).

(** One alternative (no bar in [src]). *)
Fixpoint parseTerms (src : string) : option alternative :=
  match src with
  | EmptyString => Some []
  | String c rest =>
      match atomOf c with
      | Some a =>
          match rest with
          | String "*"%char rest' => option_map (cons (TStar a)) (parseTerms rest')
          | _ => option_map (cons (TAtom a)) (parseTerms rest)
          end
      | None =>
          if Ascii.eqb c "^"%char then option_map (cons TBol) (parseTerms rest)
          else if Ascii.eqb c "$"%char then option_map (cons TEol) (parseTerms rest)
          else None
      end
  end.

Fixpoint parseAll (srcs : list string) : option regex :=
  match srcs with
  | [] => Some []
  | s :: rest =>
      match parseTerms s, parseAll rest with
      | Some a, Some r => Some (a :: r)
      | _, _ => None
      end
  end.

(** [new RegExp(src, "i")] *)
Definition RegExp_new (src : string) : option regex :=
  parseAll (split "|" src).

(** Canonicalize of the "i" flag: the upper-case form of one code unit.
    Below 256 the letters a-z and the Latin-1 small letters (0xE0-0xFE
    without the division sign 0xF7) move down by 32; the micro sign and
    y-diaeresis have upper-case forms above 255, which no other code unit
    below 256 shares, and sharp s has none. *)
Definition canonicalize (c : ascii) : ascii :=
  let n := code c in
  if (((97 <=? n) && (n <=? 122))
      || ((224 <=? n) && (n <=? 254) && negb (n =? 247)))%nat
  then ascii_of_nat (n - 32)
  else c.

(** The line terminators below 256: line feed and carriage return. *)
Definition isLineTerminator (c : ascii) : bool :=
  ((code c =? 10) || (code c =? 13))%nat.

Definition atomMatches (a : atom) (c : ascii) : bool :=
  match a with
  | AChar p => Ascii.eqb (canonicalize p) (canonicalize c)
  | AAny => negb (isLineTerminator c)
  end.

(** Does [ts] match some prefix of [s]?  [atStart] says whether [s] is the
    whole input (the position is index 0). *)
Fixpoint matchTerms (ts : alternative) (atStart : bool) (s : string) : bool :=
  match ts with
  | [] => true
  | TBol :: ts' => atStart && matchTerms ts' atStart s
  | TEol :: ts' => (s =? "")%string && matchTerms ts' atStart s
  | TAtom a :: ts' =>
      match s with
      | String c r => atomMatches a c && matchTerms ts' false r
      | EmptyString => false
      end
  | TStar a :: ts' =>
      (fix star (atStart : bool) (s : string) {struct s} : bool :=
         matchTerms ts' atStart s
         || match s with
            | String c r => atomMatches a c && star false r
            | EmptyString => false
            end) atStart s
  end.

Definition matchHere (re : regex) (atStart : bool) (s : string) : bool :=
  existsb (fun alt => matchTerms alt atStart s) re.

(** The search of [test]: every start index from 0 on. *)
Fixpoint testFrom (re : regex) (atStart : bool) (s : string) : bool :=
  matchHere re atStart s
  || match s with
     | String _ r => testFrom re false r
     | EmptyString => false
     end.

(** [regex.test(s)] (no "g" or "y" flag: the search starts at index 0). *)
Definition RegExp_test (re : regex) (s : string) : bool := testFrom re true s.

End Regex.

Import Regex.

(** ** The pattern matcher of search_files *)

(** [matchesPattern(filename, pattern)]: [None] when the compiled source
    leaves the modelled fragment of regular expressions. *)
Definition patternSource (pattern : string) : string :=
  "^" ++ replaceAll "?" "." (replaceAll "*" ".*" pattern) ++ "$".

Definition matchesPattern (filename pattern : string) : option bool :=
  match RegExp_new (patternSource pattern) with
  | Some regex => Some (RegExp_test regex filename)
  | None => None
  end.

(** ** Exceptions and the result envelope *)

Inductive result (A : Type) : Type :=
| Return (a : A)
| Throw (message : string).

Arguments Return {A} a.
Arguments Throw {A} message.

Definition bind {A B : Type} (r : result A) (k : A -> result B) : result B :=
  match r with
  | Return a => k a
  | Throw m => Throw m
  end.

Notation "x <- c ;; k" := (bind c (fun x => k))
  (at level 61, c at next level, right associativity).
Notation "c ;;; k" := (bind c (fun _ => k))
  (at level 61, right associativity).

(** What a tool hands back: [{success: true, ...data}] or
    [{success: false, error}]. *)
Inductive ToolResult (A : Type) : Type :=
| Success (data : A)
| Failure (error : string).

Arguments Success {A} data.
Arguments Failure {A} error.

(** The [try { ... } catch (error) { return {success: false, error:
    error.message} }] around every tool body. *)
Definition tryCatch {A : Type} (body : result A) : ToolResult A :=
  match body with
  | Return a => Success a
  | Throw m => Failure m
  end.

(** ** The host: file system, working directory and MIME table *)

Inductive FileKind : Type := RegularFile | Directory | OtherKind.

Definition kind_eqb (a b : FileKind) : bool :=
  match a, b with
  | RegularFile, RegularFile | Directory, Directory | OtherKind, OtherKind => true
  | _, _ => false
  end.

(** [fs.Stats], the fields the tools read; times are milliseconds. *)
Record Stats : Type := mkStats {
  st_kind : FileKind;
  st_size : N;
  st_birthtime : N;
  st_mtime : N;
  st_atime : N
}.

Definition isFile (s : Stats) : bool := kind_eqb (st_kind s) RegularFile.
Definition isDirectory (s : Stats) : bool := kind_eqb (st_kind s) Directory.

(** [fs.Dirent] of [readdir(..., {withFileTypes: true})]: a symbolic link is
    neither a file nor a directory here. *)
Record Dirent : Type := mkDirent {
  d_name : string;
  d_kind : FileKind
}.

Definition entryIsFile (e : Dirent) : bool := kind_eqb (d_kind e) RegularFile.
Definition entryIsDirectory (e : Dirent) : bool := kind_eqb (d_kind e) Directory.

Record Host : Type := mkHost {
  cwd : string;                                   (* process.cwd() *)
  fs_stat : string -> result Stats;               (* follows symbolic links *)
  fs_readdir : string -> result (list Dirent);
  fs_readFile : string -> string -> result string;  (* path, encoding *)
  mime_lookup : string -> option string;          (* mimeTypes.lookup; false is None *)
  symlinks : list (string * string)               (* link path, real target *)
}.

(** The host [h] with other file contents. *)
Definition withReadFile (h : Host) (readFile : string -> string -> result string)
  : Host :=
  mkHost (cwd h) (fs_stat h) (fs_readdir h) readFile (mime_lookup h) (symlinks h).

(** [mimeTypes.lookup(p) || "unknown"] *)
Definition mimeOrUnknown (h : Host) (p : string) : string :=
  match mime_lookup h p with
  | Some m => if (m =? "")%string then "unknown" else m
  | None => "unknown"
  end.

(** ** Configuration *)

Record Config : Type := mkConfig {
  allowedExtensions : list string;
  restrictedPaths : list string;
  maxFileSize : N;
  enableImageFiles : bool;
  enableDotNetFiles : bool;
  enableBinaryFiles : bool
}.

(** The configuration [config] with another extension policy. *)
Definition withExtensionPolicy (config : Config) (allowed : list string)
           (images dotnet binaries : bool) : Config :=
  mkConfig allowed (restrictedPaths config) (maxFileSize config)
           images dotnet binaries.

Definition DEFAULT_RESTRICTED_PATHS : list string :=
  ["C:\Windows\System32"; "C:\Program Files"; "C:\Program Files (x86)"].

Definition DEFAULT_MAX_FILE_SIZE : N := 10 * 1024 * 1024.

Definition DEFAULT_ALLOWED_EXTENSIONS : list string :=
  [".txt"; ".md"; ".json"; ".xml"; ".csv"; ".log";
   ".yml"; ".yaml"; ".ini"; ".cfg"; ".conf"; ".properties";
   ".js"; ".ts"; ".py"; ".java"; ".cpp"; ".c"; ".h";
   ".html"; ".css"; ".sql"; ".php"; ".rb"; ".go"; ".rs";
   ".cs"; ".vb"; ".fs"; ".csproj"; ".vbproj"; ".fsproj";
   ".sln"; ".config"; ".resx"; ".xaml"; ".razor";
   ".cshtml"; ".vbhtml"; ".aspx"; ".ascx"; ".asmx";
   ".dll"; ".exe"; ".msi"; ".nupkg";
   ".jpg"; ".jpeg"; ".png"; ".gif"; ".bmp"; ".tiff"; ".tif";
   ".webp"; ".svg"; ".ico"; ".heic"; ".heif"; ".raw";
   ".cr2"; ".nef"; ".arw"; ".dng"].

(** The stored settings of the plugin, the fields of [configSchematics];
    [maxFileSize] is in megabytes. *)
Record PluginConfig : Type := mkPluginConfig {
  pc_allowedExtensions : string;
  pc_restrictedPaths : string;
  pc_maxFileSize : N;
  pc_enableImageFiles : bool;
  pc_enableDotNetFiles : bool;
  pc_enableBinaryFiles : bool
}.

(** White space and line terminators below 256, what [trim] removes. *)
Definition isWhiteSpace (c : ascii) : bool :=
  existsb (Nat.eqb (code c)) [9; 10; 11; 12; 13; 32; 160].

(** [s.trim()] *)
Definition trim (s : string) : string :=
  rev (dropWhile isWhiteSpace (rev (dropWhile isWhiteSpace s))).

(** [s.split(",").map(x => x.trim()).filter(x => x.length > 0)] *)
Definition parseList (s : string) : list string :=
  filter (fun x => negb (x =? "")%string) (map trim (split "," s)).

Definition getConfig (pluginConfig : PluginConfig) : Config :=
  let allowedExtensions := parseList (pc_allowedExtensions pluginConfig) in
  let restrictedPaths := parseList (pc_restrictedPaths pluginConfig) in
  let maxFileSize := (pc_maxFileSize pluginConfig * 1024 * 1024)%N in
  mkConfig
    (match allowedExtensions with [] => DEFAULT_ALLOWED_EXTENSIONS | _ => allowedExtensions end)
    (match restrictedPaths with [] => DEFAULT_RESTRICTED_PATHS | _ => restrictedPaths end)
    maxFileSize
    (pc_enableImageFiles pluginConfig)
    (pc_enableDotNetFiles pluginConfig)
    (pc_enableBinaryFiles pluginConfig).

(** ** Path and extension validation *)

Definition accessDenied (restrictedPath : string) : string :=
  "Access denied: Path is in restricted directory: " ++ restrictedPath.

(** The loop of [validatePath] over the restricted paths. *)
Fixpoint checkRestricted (normalizedPath : string) (restrictedPaths : list string)
  : result unit :=
  match restrictedPaths with
  | [] => Return tt
  | restrictedPath :: rest =>
      if startsWith (toLowerCase normalizedPath) (toLowerCase restrictedPath)
      then Throw (accessDenied restrictedPath)
      else checkRestricted normalizedPath rest
  end.

Definition validatePath (h : Host) (filePath : string) (restrictedPaths : list string)
  : result string :=
  let normalizedPath := Path.resolve (cwd h) filePath in
  checkRestricted normalizedPath restrictedPaths ;;;
  Return normalizedPath.

Definition imageExtensions : list string :=
  [".jpg"; ".jpeg"; ".png"; ".gif"; ".bmp"; ".tiff"; ".tif"; ".webp"; ".svg";
   ".ico"; ".heic"; ".heif"; ".raw"; ".cr2"; ".nef"; ".arw"; ".dng"].

Definition dotnetExtensions : list string :=
  [".cs"; ".vb"; ".fs"; ".csproj"; ".vbproj"; ".fsproj"; ".sln"; ".razor";
   ".cshtml"; ".vbhtml"; ".aspx"; ".ascx"; ".asmx"].

Definition binaryExtensions : list string := [".dll"; ".exe"; ".msi"; ".nupkg"].

Definition typeNotAllowed (ext : string) (allowed : list string) : string :=
  "File type not allowed: " ++ ext ++ ". Allowed types: " ++ join ", " allowed.

Definition validateExtension (filePath : string) (allowedExtensions : list string)
           (config : Config) : result bool :=
  let ext := toLowerCase (Path.extname filePath) in
  if negb (includes allowedExtensions ext) then
    Throw (typeNotAllowed ext allowedExtensions)
  else if includes imageExtensions ext && negb (enableImageFiles config) then
    Throw "Image files are disabled in plugin configuration"
  else if includes dotnetExtensions ext && negb (enableDotNetFiles config) then
    Throw ".NET files are disabled in plugin configuration"
  else if includes binaryExtensions ext && negb (enableBinaryFiles config) then
    Throw "Binary files are disabled in plugin configuration"
  else Return true.

(** ** read_file

    The envelopes leave out [sizeFormatted], a floating-point rendering of
    [size]. *)

Inductive ReadData : Type :=
| BinaryEnvelope (content path : string) (size : N) (mimeType : string)
                 (lastModified : N) (fileType message : string)
| TextEnvelope (content path : string) (size : N) (encoding mimeType : string)
               (lastModified : N).

Definition rd_isBinary (d : ReadData) : bool :=
  match d with
  | BinaryEnvelope _ _ _ _ _ _ _ => true
  | TextEnvelope _ _ _ _ _ _ => false
  end.

Definition rd_content (d : ReadData) : string :=
  match d with
  | BinaryEnvelope c _ _ _ _ _ _ => c
  | TextEnvelope c _ _ _ _ _ => c
  end.

Definition rd_size (d : ReadData) : N :=
  match d with
  | BinaryEnvelope _ _ n _ _ _ _ => n
  | TextEnvelope _ _ n _ _ _ => n
  end.

(** The extensions of read_file that get metadata instead of content. *)
Definition metadataOnlyExtensions : list string :=
  [".jpg"; ".jpeg"; ".png"; ".gif"; ".bmp"; ".tiff"; ".tif";
   ".webp"; ".ico"; ".heic"; ".heif"; ".raw"; ".cr2"; ".nef";
   ".arw"; ".dng"; ".dll"; ".exe"; ".msi"; ".nupkg"].

Definition BINARY_PLACEHOLDER : string :=
  "[Binary file - content not readable as text]".

Definition isBinaryFile (h : Host) (validatedPath : string) : bool :=
  let ext := toLowerCase (Path.extname validatedPath) in
  let mimeType := mimeOrUnknown h validatedPath in
  includes metadataOnlyExtensions ext
  || startsWith mimeType "image/"
  || startsWith mimeType "application/".

Definition tooLarge (size max : N) : string :=
  "File too large: " ++ ofNumber size ++ " bytes (max: " ++ ofNumber max ++ ")".

Definition binaryMessage (ext : string) : string :=
  "This is a binary file (" ++ ext
  ++ "). Only metadata is shown. Use get_file_info for detailed information.".

Definition readFileBody (h : Host) (config : Config) (file_path encoding : string)
  : result ReadData :=
  validatedPath <- validatePath h file_path (restrictedPaths config) ;;
  validateExtension validatedPath (allowedExtensions config) config ;;;
  stats <- fs_stat h validatedPath ;;
  if negb (isFile stats) then Throw "Path is not a file"
  else if (maxFileSize config <? st_size stats)%N then
    Throw (tooLarge (st_size stats) (maxFileSize config))
  else
    let ext := toLowerCase (Path.extname validatedPath) in
    let mimeType := mimeOrUnknown h validatedPath in
    if isBinaryFile h validatedPath then
      Return (BinaryEnvelope BINARY_PLACEHOLDER validatedPath (st_size stats)
                mimeType (st_mtime stats) ext (binaryMessage ext))
    else
      content <- fs_readFile h validatedPath encoding ;;
      Return (TextEnvelope content validatedPath (st_size stats) encoding
                mimeType (st_mtime stats)).

Definition read_file (h : Host) (config : Config) (file_path encoding : string)
  : ToolResult ReadData :=
  tryCatch (readFileBody h config file_path encoding).

(** ** list_directory *)

Record ListItem : Type := mkListItem {
  li_name : string;
  li_path : string;
  li_type : string;                 (* "directory" or "file" *)
  li_size : N;
  li_lastModified : N;
  li_extension : option string;     (* null unless the entry is a file *)
  li_mimeType : option string
}.

Record ListData : Type := mkListData {
  ld_path : string;
  ld_items : list ListItem;
  ld_count : nat
}.

(** The object pushed for one entry. *)
Definition listItem (h : Host) (validatedPath : string) (entry : Dirent)
           (itemStats : Stats) : ListItem :=
  mkListItem (d_name entry) (Path.join2 validatedPath (d_name entry))
             (if entryIsDirectory entry then "directory" else "file")
             (st_size itemStats) (st_mtime itemStats)
             (if entryIsFile entry then Some (Path.extname (d_name entry)) else None)
             (if entryIsFile entry then Some (mimeOrUnknown h (d_name entry)) else None).

Fixpoint listItems (h : Host) (include_hidden : bool) (validatedPath : string)
         (entries : list Dirent) (items : list ListItem) : result (list ListItem) :=
  match entries with
  | [] => Return items
  | entry :: rest =>
      if negb include_hidden && startsWith (d_name entry) "." then
        listItems h include_hidden validatedPath rest items
      else
        let itemPath := Path.join2 validatedPath (d_name entry) in
        itemStats <- fs_stat h itemPath ;;
        listItems h include_hidden validatedPath rest
          (items ++ [listItem h validatedPath entry itemStats])%list
  end.

Definition listDirectoryBody (h : Host) (config : Config) (dir_path : string)
           (include_hidden : bool) : result ListData :=
  validatedPath <- validatePath h dir_path (restrictedPaths config) ;;
  stats <- fs_stat h validatedPath ;;
  if negb (isDirectory stats) then Throw "Path is not a directory"
  else
    entries <- fs_readdir h validatedPath ;;
    items <- listItems h include_hidden validatedPath entries [] ;;
    Return (mkListData validatedPath items (List.length items)).

Definition list_directory (h : Host) (config : Config) (dir_path : string)
           (include_hidden : bool) : ToolResult ListData :=
  tryCatch (listDirectoryBody h config dir_path include_hidden).

(** ** get_file_info *)

(** [s.replace(".", "")]: the first dot only. *)
Fixpoint removeFirstDot (s : string) : string :=
  match s with
  | EmptyString => EmptyString
  | String a r => if Ascii.eqb a "."%char then r else String a (removeFirstDot r)
  end.

(** [toUpperCase] on the extensions of [imageFiles], which are ASCII. *)
Fixpoint toUpperCase (s : string) : string :=
  match s with
  | EmptyString => EmptyString
  | String a r => String (canonicalize a) (toUpperCase r)
  end.

(** The fields [additionalInfo] collects, in the order they are assigned. *)
Definition additionalInfo (ext : string) : list (string * string) :=
  ((if includes [".cs"; ".vb"; ".fs"; ".csproj"; ".vbproj"; ".fsproj"; ".sln"; ".config"] ext
   then
     [("fileCategory", ".NET Development File"); ("framework", "Microsoft .NET")]
     ++ (if includes [".cs"; ".vb"; ".fs"] ext then
           [("fileType", "Source Code");
            ("language", if (ext =? ".cs")%string then "C#"
                         else if (ext =? ".vb")%string then "VB.NET" else "F#")]
         else if includes [".csproj"; ".vbproj"; ".fsproj"] ext then
           [("fileType", "Project File"); ("description", "MSBuild project definition")]
         else if (ext =? ".sln")%string then
           [("fileType", "Solution File"); ("description", "Visual Studio solution")]
         else [])
   else [])
  ++ (if includes [".jpg"; ".jpeg"; ".png"; ".gif"; ".bmp"; ".tiff"; ".tif"; ".webp"; ".svg"; ".ico"] ext
      then
        let imageFormat := toUpperCase (removeFirstDot ext) in
        [("fileCategory", "Image File"); ("imageFormat", imageFormat);
         ("description", String.append imageFormat " image file");
         ("note", "Use image processing tools to get dimensions and detailed metadata")]
      else [])
  ++ (if includes [".dll"; ".exe"; ".msi"] ext then
        [("fileCategory", "Binary/Executable");
         ("warning", "Binary file - content cannot be read as text")]
        ++ (if (ext =? ".dll")%string then
              [("fileType", "Dynamic Link Library");
               ("description", ".NET assembly or Windows library")]
            else if (ext =? ".exe")%string then
              [("fileType", "Executable");
               ("description", "Windows application or .NET assembly")]
            else if (ext =? ".msi")%string then
              [("fileType", "Installer Package");
               ("description", "Windows Installer package")]
            else [])
      else []))%list.

Record FileInfo : Type := mkFileInfo {
  fi_path : string;
  fi_name : string;
  fi_directory : string;
  fi_extension : string;
  fi_type : string;                 (* "file", "directory" or "other" *)
  fi_size : N;
  fi_created : N;
  fi_lastModified : N;
  fi_lastAccessed : N;
  fi_mimeType : option string;      (* null unless a file *)
  fi_readable : bool;
  fi_writable : bool;
  fi_additional : list (string * string)
}.

Definition getFileInfoBody (h : Host) (config : Config) (file_path : string)
  : result FileInfo :=
  validatedPath <- validatePath h file_path (restrictedPaths config) ;;
  stats <- fs_stat h validatedPath ;;
  let ext := toLowerCase (Path.extname validatedPath) in
  let mimeType :=
    if isFile stats then Some (mimeOrUnknown h validatedPath) else None in
  Return (mkFileInfo validatedPath (Path.basename validatedPath)
            (Path.dirname validatedPath) ext
            (if isFile stats then "file"
             else if isDirectory stats then "directory" else "other")
            (st_size stats) (st_birthtime stats) (st_mtime stats) (st_atime stats)
            mimeType true false
            (if isFile stats then additionalInfo ext else [])).

Definition get_file_info (h : Host) (config : Config) (file_path : string)
  : ToolResult FileInfo :=
  tryCatch (getFileInfoBody h config file_path).

(** ** search_files *)

Record SearchHit : Type := mkSearchHit {
  sh_name : string;
  sh_path : string;
  sh_directory : string;
  sh_size : N;
  sh_lastModified : N;
  sh_extension : string;
  sh_mimeType : string
}.

Record SearchData : Type := mkSearchData {
  sd_searchPath : string;
  sd_pattern : string;
  sd_recursive : bool;
  sd_results : list SearchHit;
  sd_count : nat
}.

(** How a run of [searchInDirectory] ends.  The array [results] is shared
    and mutated, so it survives a throw: every run returns it along with
    the way it ended. *)
Inductive outcome : Type :=
| Completed
| Thrown (message : string)
| Unmodelled                 (* the pattern leaves the regex fragment *)
| OutOfFuel.                 (* an artefact of the embedding, see below *)

Section Search.

Variable h : Host.
Variable pattern : string.
Variable recursive : bool.

(** The branch of the loop body for a file entry. *)
Definition visitFile (entry : Dirent) (entryPath : string)
           (results : list SearchHit) : list SearchHit * outcome :=
  match matchesPattern (d_name entry) pattern with
  | None => (results, Unmodelled)
  | Some false => (results, Completed)
  | Some true =>
      match fs_stat h entryPath with
      | Throw m => (results, Thrown m)
      | Return stats =>
          ((results ++ [mkSearchHit (d_name entry) entryPath
                          (Path.dirname entryPath) (st_size stats)
                          (st_mtime stats) (Path.extname (d_name entry))
                          (mimeOrUnknown h entryPath)])%list,
           Completed)
      end
  end.

(** The [try { await searchInDirectory(...) } catch (e) { }] around the
    recursive call: a throw ends the callee and is dropped. *)
Definition swallow (r : list SearchHit * outcome) : list SearchHit * outcome :=
  match r with
  | (results, Thrown _) => (results, Completed)
  | other => other
  end.

(** The [for (const entry of entries)] loop; [recurse] is the recursive
    call. *)
Fixpoint forEntries
         (recurse : string -> nat -> list SearchHit -> list SearchHit * outcome)
         (dirPath : string) (depth : nat) (entries : list Dirent)
         (results : list SearchHit) : list SearchHit * outcome :=
  match entries with
  | [] => (results, Completed)
  | entry :: rest =>
      let entryPath := Path.join2 dirPath (d_name entry) in
      let step :=
        if entryIsFile entry then visitFile entry entryPath results
        else if entryIsDirectory entry && recursive then
          swallow (recurse entryPath (depth + 1) results)
        else (results, Completed) in
      match step with
      | (results', Completed) => forEntries recurse dirPath depth rest results'
      | stopped => stopped
      end
  end.

(** [searchInDirectory(dirPath, depth)].  [fuel] bounds the nesting of
    calls; [searchInDirectory_total] shows that 12 units are never used
    up. *)
Fixpoint searchInDirectory (fuel : nat) (dirPath : string) (depth : nat)
         (results : list SearchHit) {struct fuel} : list SearchHit * outcome :=
  match fuel with
  | O => (results, OutOfFuel)
  | S fuel' =>
      if (10 <? depth)%nat then (results, Completed)
      else
        match fs_readdir h dirPath with
        | Throw m => (results, Thrown m)
        | Return entries =>
            forEntries (searchInDirectory fuel') dirPath depth entries results
        end
  end.

End Search.

Definition searchFuel : nat := 12.

(** The tool; [None] stands for a run the embedding does not cover. *)
Definition search_files (h : Host) (config : Config)
           (search_path pattern : string) (recursive : bool)
  : option (ToolResult SearchData) :=
  match validatePath h search_path (restrictedPaths config) with
  | Throw m => Some (Failure m)
  | Return validatedPath =>
      match searchInDirectory h pattern recursive searchFuel validatedPath 0 [] with
      | (results, Completed) =>
          Some (Success (mkSearchData validatedPath pattern recursive results
                           (List.length results)))
      | (_, Thrown m) => Some (Failure m)
      | (_, Unmodelled) => None
      | (_, OutOfFuel) => None
      end
  end.

(** ** Words of the specification

    The definitions of this part follow the specification, not the code:
    they are what the code is compared with. *)

Module Spec.

Definition endsWithSlash (s : string) : bool := startsWith (rev s) "/".

(** "Equal to, or nested under" a restricted prefix, "case-insensitive
    and prefix-boundary-aware": the canonical path is the prefix, or goes
    on with a separator right after it. *)
Definition liesUnder (restrictedPrefix canonical : string) : bool :=
  let r := toLowerCase restrictedPrefix in
  let c := toLowerCase canonical in
  (c =? r)%string || startsWith c (if endsWithSlash r then r else r ++ "/").

Fixpoint lookup (k : string) (table : list (string * string)) : option string :=
  match table with
  | [] => None
  | (k', v) :: rest => if (k =? k')%string then Some v else lookup k rest
  end.

(** A walk down the segments of an absolute path that replaces a
    symbolic link by its real target whenever it reaches one. *)
Fixpoint followLinks (links : list (string * string)) (real : string)
         (segs : list string) : string :=
  match segs with
  | [] => real
  | seg :: rest =>
      let next := if (real =? "/")%string then "/" ++ seg else real ++ "/" ++ seg in
      followLinks links
        (match lookup next links with Some target => target | None => next end)
        rest
  end.

Definition realpath (links : list (string * string)) (p : string) : string :=
  followLinks links "/"
    (filter (fun s => negb (s =? "")%string) (split "/" p)).

(** The "canonical path" of the specification: absolute, "." and ".."
    segments eliminated, symbolic links resolved to their real target. *)
Definition canonicalPath (h : Host) (p : string) : string :=
  realpath (symlinks h) (Path.resolve (cwd h) p).

(** The glob matcher the specification describes: "*" is zero or more
    characters, "?" is exactly one, every other character stands for
    itself, upper and lower case are not told apart, and the whole name
    has to match. *)
Fixpoint globMatch (pattern name : string) : bool :=
  match pattern with
  | EmptyString => (name =? "")%string
  | String p pattern' =>
      if Ascii.eqb p "*"%char then
        (fix anyRun (name : string) : bool :=
           globMatch pattern' name
           || match name with
              | String _ r => anyRun r
              | EmptyString => false
              end) name
      else
        match name with
        | EmptyString => false
        | String c r =>
            (Ascii.eqb p "?"%char || Ascii.eqb (lowerChar p) (lowerChar c))
            && globMatch pattern' r
        end
  end.

(** A call "returns AccessDenied": it fails with the access-denied
    message of one of the restricted prefixes. *)
Definition denied {A : Type} (config : Config) (r : ToolResult A) : Prop :=
  exists prefix, In prefix (restrictedPaths config)
                 /\ r = Failure (accessDenied prefix).

(** Every one of the four operations on [p] returns AccessDenied. *)
Definition allDenied (h : Host) (config : Config) (p : string) : Prop :=
  (forall encoding, denied config (read_file h config p encoding))
  /\ (forall include_hidden, denied config (list_directory h config p include_hidden))
  /\ denied config (get_file_info h config p)
  /\ (forall pattern recursive,
        exists r, search_files h config p pattern recursive = Some r
                  /\ denied config r).

End Spec.

Import Spec.

(** ** Vocabulary of the statements and proofs *)

Module Vocabulary.

Fixpoint forallChars (f : ascii -> bool) (s : string) : bool :=
  match s with
  | EmptyString => true
  | String a r => f a && forallChars f r
  end.

Definition noSlash (s : string) : bool :=
  forallChars (fun c => negb (Path.isSlash c)) s.

(** A segment of a canonical path: not empty, without separator, and
    neither "." nor "..". *)
Definition cleanSegment (s : string) : bool :=
  negb (s =? "")%string && noSlash s && negb (s =? ".")%string
  && negb (s =? "..")%string.

(** The segments of a canonical path. *)
Definition clean (segs : list string) : Prop :=
  Forall (fun s => cleanSegment s = true) segs.

(** [b] is empty or starts with a character that fails [p]. *)
Definition stopsAt (p : ascii -> bool) (b : string) : Prop :=
  match b with
  | EmptyString => True
  | String c _ => p c = false
  end.

(** A pattern character that is a wildcard or has no meaning in a
    regular expression. *)
Definition plainChar (c : ascii) : bool :=
  Ascii.eqb c "*"%char || Ascii.eqb c "?"%char
  || match atomOf c with
     | Some (AChar _) => true
     | _ => false
     end.

Definition plainPattern (pattern : string) : bool := forallChars plainChar pattern.

(** A name without line feed or carriage return. *)
Definition oneLine (name : string) : bool :=
  forallChars (fun c => negb (isLineTerminator c)) name.

(** The terms a plain pattern compiles to. *)
Fixpoint patternTerms (pattern : string) : list term :=
  match pattern with
  | EmptyString => []
  | String c r =>
      (if Ascii.eqb c "*"%char then TStar AAny
       else if Ascii.eqb c "?"%char then TAtom AAny
       else TAtom (AChar c)) :: patternTerms r
  end.

(** The 256 code units. *)
Definition allChars : list ascii :=
  let bs := [false; true] in
  flat_map (fun b7 => flat_map (fun b6 => flat_map (fun b5 => flat_map (fun b4 =>
  flat_map (fun b3 => flat_map (fun b2 => flat_map (fun b1 => map (fun b0 =>
    Ascii b0 b1 b2 b3 b4 b5 b6 b7) bs) bs) bs) bs) bs) bs) bs) bs.

Definition headIsStar (s : string) : bool :=
  match s with
  | String c _ => Ascii.eqb c "*"%char
  | EmptyString => false
  end.

(** A run that ended the way the JavaScript code can end: by returning
    or by throwing. *)
Definition ended (o : outcome) : Prop :=
  match o with
  | Completed | Thrown _ => True
  | Unmodelled | OutOfFuel => False
  end.

(** [dirAt h root k d]: the directory [d] is reached from [root] by going
    down [k] directory entries. *)
Inductive dirAt (h : Host) (root : string) : nat -> string -> Prop :=
| dirAt_root : dirAt h root 0 root
| dirAt_child (k : nat) (d : string) (entries : list Dirent) (e : Dirent) :
    dirAt h root k d ->
    fs_readdir h d = Return entries ->
    In e entries ->
    entryIsDirectory e = true ->
    dirAt h root (S k) (Path.join2 d (d_name e)).

(** The hit is a file entry of a directory at depth [limit] or less. *)
Definition foundWithin (h : Host) (root : string) (limit : nat) (hit : SearchHit)
  : Prop :=
  exists k d entries e,
    k <= limit
    /\ dirAt h root k d
    /\ fs_readdir h d = Return entries
    /\ In e entries
    /\ entryIsFile e = true
    /\ sh_name hit = d_name e
    /\ sh_path hit = Path.join2 d (d_name e).

End Vocabulary.

Import Vocabulary.

(** ** Hosts built from a table, for the worked examples *)

Module TableHost.

Inductive Node : Type :=
| FileNode (stats : Stats) (content : string)
| DirNode (stats : Stats) (entries : list Dirent)
| LockedDir (stats : Stats).          (* a directory that cannot be read *)

Fixpoint find (p : string) (tree : list (string * Node)) : option Node :=
  match tree with
  | [] => None
  | (q, n) :: rest => if (p =? q)%string then Some n else find p rest
  end.

Definition nodeStats (n : Node) : Stats :=
  match n with
  | FileNode s _ => s
  | DirNode s _ => s
  | LockedDir s => s
  end.

Definition fileStats (size : N) : Stats := mkStats RegularFile size 1000 2000 3000.
Definition dirStats : Stats := mkStats Directory 4096 1000 2000 3000.

(** A few rows of the mime-types table. *)
Definition mimeTable (p : string) : option string :=
  let ext := toLowerCase (Path.extname p) in
  if (ext =? ".txt")%string then Some "text/plain"
  else if (ext =? ".json")%string then Some "application/json"
  else if (ext =? ".png")%string then Some "image/png"
  else if (ext =? ".pdf")%string then Some "application/pdf"
  else None.

(** The host whose files are the rows of [tree] (keyed by real path);
    every call resolves symbolic links first, as the system calls do. *)
Definition host (cwd : string) (tree : list (string * Node))
           (links : list (string * string)) : Host :=
  mkHost cwd
    (fun p =>
       match find (realpath links p) tree with
       | Some n => Return (nodeStats n)
       | None => Throw ("ENOENT: no such file or directory, stat '" ++ p ++ "'")
       end)
    (fun p =>
       match find (realpath links p) tree with
       | Some (DirNode _ entries) => Return entries
       | Some (LockedDir _) =>
           Throw ("EACCES: permission denied, scandir '" ++ p ++ "'")
       | Some (FileNode _ _) =>
           Throw ("ENOTDIR: not a directory, scandir '" ++ p ++ "'")
       | None => Throw ("ENOENT: no such file or directory, scandir '" ++ p ++ "'")
       end)
    (fun p _ =>
       match find (realpath links p) tree with
       | Some (FileNode _ content) => Return content
       | Some _ => Throw "EISDIR: illegal operation on a directory, read"
       | None => Throw ("ENOENT: no such file or directory, open '" ++ p ++ "'")
       end)
    mimeTable
    links.

Definition config (allowed restricted : list string) (max : N) : Config :=
  mkConfig allowed restricted max true true true.

End TableHost.

(** ** The hosts of the worked examples *)

Module Fixtures.

Import TableHost.

(** /tmp/link is a symbolic link to the restricted directory /system. *)
Definition linkHost : Host :=
  host "/home/u"
    [("/system", DirNode dirStats [mkDirent "x.txt" RegularFile]);
     ("/system/x.txt", FileNode (fileStats 6) "secret");
     ("/tmp", DirNode dirStats [mkDirent "link" OtherKind])]
    [("/tmp/link", "/system")].

Definition systemConfig : Config :=
  config [".txt"; ".md"; ".json"] ["/system"] DEFAULT_MAX_FILE_SIZE.

(** A data directory with a JSON file, an image, a text file, a file of a
    type that is not allowed and a hidden file. *)
Definition dataHost : Host :=
  host "/home/u"
    [("/data", DirNode dirStats
                 [mkDirent "a.json" RegularFile; mkDirent "b.png" RegularFile;
                  mkDirent "c.txt" RegularFile; mkDirent "notes.xyz" RegularFile;
                  mkDirent ".env" RegularFile; mkDirent "big.txt" RegularFile;
                  mkDirent "edge.txt" RegularFile]);
     ("/data/a.json", FileNode (fileStats 2) "{}");
     ("/data/b.png", FileNode (fileStats 8) "PNG-bytes");
     ("/data/c.txt", FileNode (fileStats 5) "hello");
     ("/data/notes.xyz", FileNode (fileStats 3) "xyz");
     ("/data/.env", FileNode (fileStats 4) "K=V;");
     ("/data/big.txt", FileNode (fileStats 101) "");
     ("/data/edge.txt", FileNode (fileStats 100) "")]
    [].

Definition dataConfig : Config :=
  config [".txt"; ".json"; ".png"] ["/system"] 100.

(** A chain of directories /r/d1/d2/.../d15; the directory at depth [i]
    holds the file f[i].txt. *)
Fixpoint chain (n depth : nat) (dir : string) : list (string * Node) :=
  let fileName := "f" ++ ofNumber (N.of_nat depth) ++ ".txt" in
  let fileRow := (dir ++ "/" ++ fileName, FileNode (fileStats (N.of_nat depth)) "") in
  match n with
  | O => [(dir, DirNode dirStats [mkDirent fileName RegularFile]); fileRow]
  | S n' =>
      let sub := "d" ++ ofNumber (N.of_nat (depth + 1)) in
      (dir, DirNode dirStats [mkDirent fileName RegularFile; mkDirent sub Directory])
        :: fileRow :: chain n' (depth + 1) (dir ++ "/" ++ sub)
  end.

Definition chainHost : Host := host "/" (chain 15 0 "/r") [].

Definition openConfig : Config := config [".txt"] [] DEFAULT_MAX_FILE_SIZE.

(** A root with one directory that cannot be read between two that can. *)
Definition lockedHost : Host :=
  host "/"
    [("/r", DirNode dirStats
              [mkDirent "a.txt" RegularFile; mkDirent "first" Directory;
               mkDirent "locked" Directory; mkDirent "last" Directory]);
     ("/r/a.txt", FileNode (fileStats 1) "a");
     ("/r/first", DirNode dirStats [mkDirent "b.txt" RegularFile]);
     ("/r/first/b.txt", FileNode (fileStats 2) "bb");
     ("/r/locked", LockedDir dirStats);
     ("/r/last", DirNode dirStats [mkDirent "c.txt" RegularFile]);
     ("/r/last/c.txt", FileNode (fileStats 3) "ccc")]
    [].

End Fixtures.

(** ** Vocabulary of the further properties *)

Module More.

(** The entries list_directory does not skip. *)
Definition visible (include_hidden : bool) (e : Dirent) : bool :=
  negb (negb include_hidden && startsWith (d_name e) ".").

(** Does the text start with white space? *)
Definition startsWithSpace (s : string) : bool :=
  match s with
  | String c _ => isWhiteSpace c
  | EmptyString => false
  end.

(** An entry of a parsed list setting: not empty, no white space at
    either end. *)
Definition tidyEntry (e : string) : bool :=
  negb (e =? "")%string && negb (startsWithSpace e) && negb (startsWithSpace (rev e)).

(** A file entry whose name the pattern matches. *)
Definition fileMatches (pattern : string) (e : Dirent) : bool :=
  entryIsFile e
  && match matchesPattern (d_name e) pattern with
     | Some true => true
     | _ => false
     end.

(** What a hit says about its file: the name matches the pattern, and size
    and time are those of [stat] on its path. *)
Definition soundHit (h : Host) (pattern : string) (hit : SearchHit) : Prop :=
  matchesPattern (sh_name hit) pattern = Some true
  /\ exists s, fs_stat h (sh_path hit) = Return s
               /\ sh_size hit = st_size s
               /\ sh_lastModified hit = st_mtime s.

(** The configuration [config] without any restricted path. *)
Definition unrestricted (config : Config) : Config :=
  mkConfig (allowedExtensions config) [] (maxFileSize config)
           (enableImageFiles config) (enableDotNetFiles config)
           (enableBinaryFiles config).

(** A pattern character that is a wildcard, a dot, or has no meaning in a
    regular expression. *)
Definition simpleChar (c : ascii) : bool :=
  Ascii.eqb c "."%char || plainChar c.

Definition simplePattern (pattern : string) : bool := forallChars simpleChar pattern.

(** The glob the code implements on simple patterns: as [globMatch], but
    the dot too stands for any one character. *)
Fixpoint looseGlob (pattern name : string) : bool :=
  match pattern with
  | EmptyString => (name =? "")%string
  | String p pattern' =>
      if Ascii.eqb p "*"%char then
        (fix anyRun (name : string) : bool :=
           looseGlob pattern' name
           || match name with
              | String _ r => anyRun r
              | EmptyString => false
              end) name
      else
        match name with
        | EmptyString => false
        | String c r =>
            (Ascii.eqb p "?"%char || Ascii.eqb p "."%char
             || Ascii.eqb (lowerChar p) (lowerChar c))
            && looseGlob pattern' r
        end
  end.

(** The terms a simple pattern compiles to. *)
Fixpoint simpleTerms (pattern : string) : list term :=
  match pattern with
  | EmptyString => []
  | String c r =>
      (if Ascii.eqb c "*"%char then TStar AAny
       else if Ascii.eqb c "?"%char || Ascii.eqb c "."%char then TAtom AAny
       else TAtom (AChar c)) :: simpleTerms r
  end.



End More.

Import More.

(** ** Further hosts for the worked examples *)

Module MoreFixtures.

Import TableHost.

(** /r holds a file and a symbolic link whose target is gone. *)
Definition brokenHost : Host :=
  host "/"
    [("/r", DirNode dirStats
              [mkDirent "a.txt" RegularFile; mkDirent "dangling" OtherKind;
               mkDirent "z.txt" RegularFile]);
     ("/r/a.txt", FileNode (fileStats 1) "a");
     ("/r/z.txt", FileNode (fileStats 2) "zz")]
    [].

(** /srv holds a public file and the restricted directory /srv/private. *)
Definition srvHost : Host :=
  host "/"
    [("/srv", DirNode dirStats
                [mkDirent "pub.txt" RegularFile; mkDirent "private" Directory;
                 mkDirent ".hidden.txt" RegularFile]);
     ("/srv/pub.txt", FileNode (fileStats 3) "pub");
     ("/srv/.hidden.txt", FileNode (fileStats 4) "hide");
     ("/srv/private", DirNode dirStats [mkDirent "key.txt" RegularFile]);
     ("/srv/private/key.txt", FileNode (fileStats 7) "secret!")]
    [].

(** /r lists ghost.txt, which is gone by the time it is stat-ed. *)
Definition racyHost : Host :=
  host "/"
    [("/r", DirNode dirStats
              [mkDirent "a.txt" RegularFile; mkDirent "ghost.txt" RegularFile;
               mkDirent "z.txt" RegularFile]);
     ("/r/a.txt", FileNode (fileStats 1) "a");
     ("/r/z.txt", FileNode (fileStats 2) "zz")]
    [].

(** /v holds a directory that cannot be read between two files. *)
Definition vaultHost : Host :=
  host "/"
    [("/v", DirNode dirStats
              [mkDirent "a.txt" RegularFile; mkDirent "locked" Directory;
               mkDirent "b.txt" RegularFile]);
     ("/v/a.txt", FileNode (fileStats 1) "a");
     ("/v/locked", LockedDir dirStats);
     ("/v/b.txt", FileNode (fileStats 2) "bb")]
    [].

Definition srvConfig : Config :=
  config [".txt"] ["/srv/private"] DEFAULT_MAX_FILE_SIZE.

End MoreFixtures.

(** ** formatFileSize *)

(** The size is a double that starts as an integer below 2^53 and is only
    divided by 1024, which is exact; it is modelled as the rational it
    is. *)
Module Format.

Import ZArith QArith Qround.
Local Open Scope string_scope.

Fixpoint zeros (n : nat) : string :=
  match n with
  | O => EmptyString
  | S n' => String "0"%char (zeros n')
  end.

(** [s.padStart(width, "0")] *)
Definition padStart (width : nat) (s : string) : string :=
  zeros (width - String.length s) ++ s.

(** [x.toFixed(f)] for 0 <= x < 10^21: with n the integer for which
    n / 10^f is closest to x, the larger one on a tie, the digits of n with
    a point before the last f of them, n padded with zeros on the left to
    f + 1 digits. *)
Definition toFixed (x : Q) (f : nat) : string :=
  let n := Z.to_N (Qfloor (x * inject_Z (10 ^ Z.of_nat f) + (1 # 2))) in
  let unit_ := (10 ^ N.of_nat f)%N in
  if (f =? 0)%nat then ofNumber n
  else ofNumber (n / unit_) ++ "." ++ padStart f (ofNumber (n mod unit_)).

(** The loop [while (size >= 1024 && unitIndex < units.length - 1)]:
    [room] is [units.length - 1 - unitIndex]. *)
Fixpoint scaleDown (room : nat) (size : Q) (unitIndex : nat) : Q * nat :=
  match room with
  | O => (size, unitIndex)
  | S room' =>
      if Qle_bool 1024 size
      then scaleDown room' (size / 1024) (S unitIndex)
      else (size, unitIndex)
  end.

Definition formatWith (units : list string) (digits : nat) (bytes : N) : string :=
  let (size, unitIndex) :=
    scaleDown (List.length units - 1) (inject_Z (Z.of_N bytes)) 0 in
  toFixed size digits ++ " " ++ nth unitIndex units "undefined".

End Format.

(** [formatFileSize(bytes)] of the tools provider, in both its copies. *)
Definition formatFileSize (bytes : N) : string :=
  Format.formatWith ["B"; "KB"; "MB"; "GB"] 1 bytes.

(** ** The add-on: the class FileExaminer *)

Module AddOn.

(** The source [matchesPattern] compiles: the wildcards first, then every
    dot escaped, those of the wildcards too.  No anchor and no flag. *)
Definition patternSource (pattern : string) : string :=
  replaceAll "." "\." (replaceAll "?" "." (replaceAll "*" ".*" pattern)).

(** One alternative of a regular expression (no bar in [src]); of the
    escapes, the escaped dot only. *)
Fixpoint parseTerms (src : string) : option alternative :=
  match src with
  | EmptyString => Some []
  | String c rest =>
      if Ascii.eqb c "\"%char then
        match rest with
        | String "."%char (String "*"%char rest') =>
            option_map (cons (TStar (AChar "."))) (parseTerms rest')
        | String "."%char rest' =>
            option_map (cons (TAtom (AChar "."))) (parseTerms rest')
        | _ => None
        end
      else
        match atomOf c with
        | Some a =>
            match rest with
            | String "*"%char rest' => option_map (cons (TStar a)) (parseTerms rest')
            | _ => option_map (cons (TAtom a)) (parseTerms rest)
            end
        | None =>
            if Ascii.eqb c "^"%char then option_map (cons TBol) (parseTerms rest)
            else if Ascii.eqb c "$"%char then option_map (cons TEol) (parseTerms rest)
            else None
        end
  end.

Fixpoint parseAll (srcs : list string) : option regex :=
  match srcs with
  | [] => Some []
  | s :: rest =>
      match parseTerms s, parseAll rest with
      | Some a, Some r => Some (a :: r)
      | _, _ => None
      end
  end.

(** [new RegExp(src)] *)
Definition RegExp_new (src : string) : option regex :=
  parseAll (split "|" src).

(** Without the "i" flag a pattern character matches itself only. *)
Definition atomMatches (a : atom) (c : ascii) : bool :=
  match a with
  | AChar p => Ascii.eqb p c
  | AAny => negb (isLineTerminator c)
  end.

Fixpoint matchTerms (ts : alternative) (atStart : bool) (s : string) : bool :=
  match ts with
  | [] => true
  | TBol :: ts' => atStart && matchTerms ts' atStart s
  | TEol :: ts' => (s =? "")%string && matchTerms ts' atStart s
  | TAtom a :: ts' =>
      match s with
      | String c r => atomMatches a c && matchTerms ts' false r
      | EmptyString => false
      end
  | TStar a :: ts' =>
      (fix star (atStart : bool) (s : string) {struct s} : bool :=
         matchTerms ts' atStart s
         || match s with
            | String c r => atomMatches a c && star false r
            | EmptyString => false
            end) atStart s
  end.

Definition matchHere (re : regex) (atStart : bool) (s : string) : bool :=
  existsb (fun alt => matchTerms alt atStart s) re.

Fixpoint testFrom (re : regex) (atStart : bool) (s : string) : bool :=
  matchHere re atStart s
  || match s with
     | String _ r => testFrom re false r
     | EmptyString => false
     end.

Definition RegExp_test (re : regex) (s : string) : bool := testFrom re true s.

(** [matchesPattern(filename, pattern)]: [None] when the compiled source
    leaves the modelled fragment. *)
Definition matchesPattern (filename pattern : string) : option bool :=
  match RegExp_new (patternSource pattern) with
  | Some regex => Some (RegExp_test regex filename)
  | None => None
  end.

Section Search.

Variable h : Host.
Variable pattern : string.
Variable recursive : bool.

Definition visitFile (entry : Dirent) (dirPath entryPath : string)
           (results : list SearchHit) : list SearchHit * outcome :=
  match matchesPattern (d_name entry) pattern with
  | None => (results, Unmodelled)
  | Some false => (results, Completed)
  | Some true =>
      match fs_stat h entryPath with
      | Throw m => (results, Thrown m)
      | Return stats =>
          ((results ++ [mkSearchHit (d_name entry) entryPath dirPath
                          (st_size stats) (st_mtime stats)
                          (Path.extname (d_name entry))
                          (mimeOrUnknown h (d_name entry))])%list,
           Completed)
      end
  end.

(** The loop over the entries; the recursive call is not guarded, so
    whatever stops it stops the loop. *)
Fixpoint forEntries
         (recurse : string -> nat -> list SearchHit -> list SearchHit * outcome)
         (dirPath : string) (depth : nat) (entries : list Dirent)
         (results : list SearchHit) : list SearchHit * outcome :=
  match entries with
  | [] => (results, Completed)
  | entry :: rest =>
      let entryPath := Path.join2 dirPath (d_name entry) in
      let step :=
        if entryIsFile entry then visitFile entry dirPath entryPath results
        else if entryIsDirectory entry && recursive then
          recurse entryPath (depth + 1) results
        else (results, Completed) in
      match step with
      | (results', Completed) => forEntries recurse dirPath depth rest results'
      | stopped => stopped
      end
  end.

(** [searchInDirectory(dirPath, depth)]: the depth is counted and never
    looked at.  [fuel] bounds the nesting of calls. *)
Fixpoint searchInDirectory (fuel : nat) (dirPath : string) (depth : nat)
         (results : list SearchHit) {struct fuel} : list SearchHit * outcome :=
  match fuel with
  | O => (results, OutOfFuel)
  | S fuel' =>
      match fs_readdir h dirPath with
      | Throw m => (results, Thrown m)
      | Return entries =>
          forEntries (searchInDirectory fuel') dirPath depth entries results
      end
  end.

End Search.

(** [searchFiles(searchPath, pattern, recursive)], with the restricted
    paths of the manifest; [None] stands for a run the embedding does not
    cover. *)
Definition searchFiles (fuel : nat) (h : Host) (restrictedPaths : list string)
           (searchPath pattern : string) (recursive : bool)
  : option (ToolResult SearchData) :=
  match validatePath h searchPath restrictedPaths with
  | Throw m => Some (Failure m)
  | Return validatedPath =>
      match searchInDirectory h pattern recursive fuel validatedPath 0 [] with
      | (results, Completed) =>
          Some (Success (mkSearchData validatedPath pattern recursive results
                           (List.length results)))
      | (_, Thrown m) => Some (Failure m)
      | (_, Unmodelled) => None
      | (_, OutOfFuel) => None
      end
  end.

(** [formatFileSize(bytes)] of the class: two decimals, and TB. *)
Definition formatFileSize (bytes : N) : string :=
  Format.formatWith ["B"; "KB"; "MB"; "GB"; "TB"] 2 bytes.

End AddOn.

(** [name.includes(part)] *)
Fixpoint occursIn (part s : string) : bool :=
  String.prefix part s
  || match s with
     | String _ r => occursIn part r
     | EmptyString => false
     end.

(** A pattern character that stands for itself in a regular expression,
    the dot, or the question mark. *)
Definition literalChar (c : ascii) : bool :=
  Ascii.eqb c "."%char || Ascii.eqb c "?"%char
  || (negb (Ascii.eqb c "*"%char)
      && match atomOf c with
         | Some (AChar _) => true
         | _ => false
         end).

Definition literalPattern (pattern : string) : bool := forallChars literalChar pattern.

(** The terms of the add-on for a literal pattern. *)
Fixpoint literalTerms (pattern : string) : list term :=
  match pattern with
  | EmptyString => []
  | String c r =>
      TAtom (AChar (if Ascii.eqb c "?"%char then "."%char else c)) :: literalTerms r
  end.

(** ** Worked values of the definitions *)

Example resolve_dotdot :
  Path.resolve "/home/u" "/system/../system/x.txt" = "/system/x.txt".
Proof. reflexivity. Qed.

Example resolve_relative :
  Path.resolve "/home/u" "docs/./a/../b.txt/" = "/home/u/docs/b.txt".
Proof. reflexivity. Qed.

Example resolve_above_root : Path.resolve "/home/u" "/../../etc" = "/etc".
Proof. reflexivity. Qed.

Example join2_plain : Path.join2 "/a/b" "c.txt" = "/a/b/c.txt".
Proof. reflexivity. Qed.

Example join2_root : Path.join2 "/" "c.txt" = "/c.txt".
Proof. reflexivity. Qed.

Example extname_cases :
  map Path.extname ["/a/b.TXT"; "/a/.bashrc"; "/a/b"; "/a.d/b"; "/a/b.tar.gz"; "/a/b."; ".."; "..."; "/a/b.txt/"]
  = [".TXT"; ""; ""; ""; ".gz"; "."; ""; "."; ".txt"].
Proof. reflexivity. Qed.

Example dirname_cases :
  map Path.dirname ["/a/b/c.txt"; "/a"; "a"; "/a/b/"; "//a"; ""; "/"]
  = ["/a/b"; "/"; "."; "/a"; "//"; "."; "/"].
Proof. reflexivity. Qed.

Example basename_cases :
  map Path.basename ["/a/b/c.txt"; "/a/"; "a"; "/"] = ["c.txt"; "a"; "a"; ""].
Proof. reflexivity. Qed.

Example ofNumber_cases : map ofNumber [0%N; 7%N; 10485760%N] = ["0"; "7"; "10485760"].
Proof. reflexivity. Qed.

Example lower_cases : toLowerCase "C:\Program Files (x86)" = "c:\program files (x86)".
Proof. reflexivity. Qed.

Example source_star_txt : patternSource "*.txt" = "^.*.txt$".
Proof. reflexivity. Qed.

Example compiled_star_txt :
  RegExp_new "^.*.txt$"
  = Some [[TBol; TStar AAny; TAtom AAny; TAtom (AChar "t"); TAtom (AChar "x");
           TAtom (AChar "t"); TEol]].
Proof. reflexivity. Qed.

Example matches_examples :
  map (fun '(n, p) => matchesPattern n p)
      [("report.txt", "*.txt"); ("report.txt", "*.TXT"); ("a.txt", "?.txt");
       ("ab.txt", "?.txt"); ("fileAtxt", "file.txt"); ("abc", "a|b");
       ("notes", "n(o)tes")]
  = [Some true; Some true; Some true; Some false; Some true; Some true; None].
Proof. reflexivity. Qed.

Example getConfig_parses :
  getConfig (mkPluginConfig " .txt, .MD ,," "" 10 true false true)
  = mkConfig [".txt"; ".MD"] DEFAULT_RESTRICTED_PATHS DEFAULT_MAX_FILE_SIZE
             true false true.
Proof. reflexivity. Qed.

Example liesUnder_cases :
  map (fun '(r, c) => liesUnder r c)
      [("/a/b", "/a/b"); ("/a/b", "/a/b/c"); ("/a/b", "/A/B/c"); ("/a/b", "/a/bc");
       ("/", "/x"); ("/a/b", "/a")]
  = [true; true; true; false; true; false].
Proof. reflexivity. Qed.

Example globMatch_cases :
  map (fun '(p, n) => globMatch p n)
      [("*.txt", "report.txt"); ("*.TXT", "report.txt"); ("?.txt", "a.txt");
       ("?.txt", "ab.txt"); ("file.txt", "fileAtxt"); ("a|b", "abc"); ("*", "")]
  = [true; true; true; false; false; false; true].
Proof. reflexivity. Qed.

(** ** Configuration *)

(** The allowlist a handler works with is never empty. *)
Lemma getConfig_allowedExtensions_nonempty (pluginConfig : PluginConfig) :
  allowedExtensions (getConfig pluginConfig) <> [].
Proof.
  unfold getConfig. simpl.
  destruct (parseList (pc_allowedExtensions pluginConfig)); discriminate.
Qed.

(** ** Facts about strings *)

Lemma prefix_refl (s : string) : String.prefix s s = true.
Proof.
  induction s as [|a s IH]; simpl; [reflexivity|].
  destruct (ascii_dec a a) as [_|ne]; [exact IH | now elim ne].
Qed.

Lemma prefix_empty (t : string) : String.prefix "" t = true.
Proof. destruct t; reflexivity. Qed.

Lemma prefix_app (s t : string) : String.prefix s (s ++ t) = true.
Proof.
  induction s as [|a s IH]; simpl; [apply prefix_empty|].
  destruct (ascii_dec a a) as [_|ne]; [exact IH | now elim ne].
Qed.

Lemma prefix_trans (a b c : string) :
  String.prefix a b = true -> String.prefix b c = true -> String.prefix a c = true.
Proof.
  revert b c; induction a as [|x a IH]; intros b c Hab Hbc; [apply prefix_empty|].
  destruct b as [|y b]; [discriminate|].
  destruct c as [|z c]; [discriminate|].
  simpl.
  simpl in Hab, Hbc.
  destruct (ascii_dec x y) as [->|]; [|discriminate].
  destruct (ascii_dec y z) as [->|]; [|discriminate].
  destruct (ascii_dec z z) as [_|ne]; [eauto | now elim ne].
Qed.

(** ** Path validation *)

(** What the specification counts as lying under a restricted prefix is a
    special case of what the code tests: the raw prefix of the lower-cased
    strings. *)
Lemma liesUnder_startsWith (r c : string) :
  liesUnder r c = true ->
  startsWith (toLowerCase c) (toLowerCase r) = true.
Proof.
  unfold liesUnder, startsWith; intros H.
  apply orb_true_iff in H as [H|H].
  - apply String.eqb_eq in H; rewrite H; apply prefix_refl.
  - destruct (endsWithSlash (toLowerCase r)); [exact H|].
    eapply prefix_trans; [apply prefix_app | exact H].
Qed.

Lemma checkRestricted_throws (c : string) (rs : list string) (r : string) :
  In r rs ->
  startsWith (toLowerCase c) (toLowerCase r) = true ->
  exists r', In r' rs
             /\ startsWith (toLowerCase c) (toLowerCase r') = true
             /\ checkRestricted c rs = Throw (accessDenied r').
Proof.
  induction rs as [|r0 rs IH]; intros Hin Hpre; [contradiction|].
  simpl.
  destruct (startsWith (toLowerCase c) (toLowerCase r0)) eqn:E.
  - exists r0; repeat split; [now left | exact E].
  - destruct Hin as [->|Hin]; [congruence|].
    destruct (IH Hin Hpre) as (r' & Hr' & Hs & Hc).
    exists r'; repeat split; [now right | exact Hs | exact Hc].
Qed.

Lemma checkRestricted_passes (c : string) (rs : list string) :
  checkRestricted c rs = Return tt <->
  (forall r, In r rs -> startsWith (toLowerCase c) (toLowerCase r) = false).
Proof.
  induction rs as [|r0 rs IH]; simpl.
  - split; [intros _ r [] | reflexivity].
  - destruct (startsWith (toLowerCase c) (toLowerCase r0)) eqn:E.
    + split; [discriminate|]. intros H. specialize (H r0 (or_introl eq_refl)). congruence.
    + rewrite IH. split.
      * intros H r [<-|Hin]; [exact E | now apply H].
      * intros H r Hin. apply H. now right.
Qed.

Lemma checkRestricted_cases (c : string) (rs : list string) :
  checkRestricted c rs = Return tt
  \/ exists r, In r rs /\ checkRestricted c rs = Throw (accessDenied r).
Proof.
  induction rs as [|r0 rs IH]; simpl; [now left|].
  destruct (startsWith (toLowerCase c) (toLowerCase r0)).
  - right. exists r0. split; [now left | reflexivity].
  - destruct IH as [IH|(r & Hin & IH)]; [now left|].
    right. exists r. split; [now right | exact IH].
Qed.

(** [validatePath] returns the resolved path, and only when no restricted
    path is a raw prefix of it. *)
Lemma validatePath_Return (h : Host) (p : string) (rs : list string) (v : string) :
  validatePath h p rs = Return v <->
  v = Path.resolve (cwd h) p
  /\ forall r, In r rs -> startsWith (toLowerCase v) (toLowerCase r) = false.
Proof.
  unfold validatePath, bind.
  destruct (checkRestricted_cases (Path.resolve (cwd h) p) rs) as [E|(r & Hin & E)].
  - rewrite E. pose proof (proj1 (checkRestricted_passes _ _) E) as E'. split.
    + intros [= <-]. split; [reflexivity | exact E'].
    + intros [-> _]. reflexivity.
  - rewrite E. split; [discriminate|].
    intros [-> H].
    pose proof (proj2 (checkRestricted_passes _ _) H) as H'. congruence.
Qed.

Lemma validatePath_denied (h : Host) (p : string) (rs : list string) (r : string) :
  In r rs ->
  liesUnder r (Path.resolve (cwd h) p) = true ->
  exists r', In r' rs /\ validatePath h p rs = Throw (accessDenied r').
Proof.
  intros Hin Hu.
  destruct (checkRestricted_throws _ _ _ Hin (liesUnder_startsWith _ _ Hu))
    as (r' & Hr' & _ & Hc).
  exists r'. split; [exact Hr'|].
  unfold validatePath, bind. now rewrite Hc.
Qed.

(** C1 (the code departs from the claim).  Path validation compares raw
    strings: with the restricted prefix /a/b, the path /a/bc, which is
    neither /a/b nor below it, is rejected with the access-denied error. *)
Theorem C1_sibling_with_shared_prefix_rejected :
  forall h : Host,
    Path.resolve (cwd h) "/a/bc" = "/a/bc"
    /\ liesUnder "/a/b" "/a/bc" = false
    /\ validatePath h "/a/bc" ["/a/b"] = Throw (accessDenied "/a/b").
Proof.
  intros h. repeat split.
Qed.

(** C2, as the specification states it, fails: behind the symbolic link
    /tmp/link, whose target is the restricted directory /system, the file
    /system/x.txt is read. *)
Lemma C2_symlink_reaches_restricted_file :
  ~ (forall (h : Host) (config : Config) (p r : string),
        In r (restrictedPaths config) ->
        liesUnder r (canonicalPath h p) = true ->
        allDenied h config p).
Proof.
  intros H.
  specialize (H Fixtures.linkHost Fixtures.systemConfig "/tmp/link/x.txt" "/system"
                (or_introl eq_refl) eq_refl).
  destruct H as (Hread & _).
  destruct (Hread "utf8") as (r & _ & Hr).
  vm_compute in Hr. discriminate Hr.
Qed.

(** C2 (amended).  When the path as [path.resolve] leaves it (absolute,
    "." and ".." segments eliminated, symbolic links not followed) is a
    restricted prefix or lies under one, each of the four operations
    returns the access-denied error. *)
Theorem C2_resolved_path_under_prefix_denied :
  forall (h : Host) (config : Config) (p r : string),
    In r (restrictedPaths config) ->
    liesUnder r (Path.resolve (cwd h) p) = true ->
    allDenied h config p.
Proof.
  intros h config p r Hin Hu.
  destruct (validatePath_denied h p _ r Hin Hu) as (r' & Hr' & Hv).
  unfold allDenied, denied.
  repeat split; intros.
  - exists r'. split; [exact Hr'|].
    unfold read_file, readFileBody, bind. now rewrite Hv.
  - exists r'. split; [exact Hr'|].
    unfold list_directory, listDirectoryBody, bind. now rewrite Hv.
  - exists r'. split; [exact Hr'|].
    unfold get_file_info, getFileInfoBody, bind. now rewrite Hv.
  - exists (Failure (accessDenied r')). split.
    + unfold search_files. now rewrite Hv.
    + exists r'. split; [exact Hr' | reflexivity].
Qed.

(** Under the raw prefix test the third default restricted path is already
    covered by the second. *)
Lemma default_restricted_paths_overlap :
  DEFAULT_RESTRICTED_PATHS
  = ["C:\Windows\System32"; "C:\Program Files"; "C:\Program Files (x86)"]
  /\ startsWith (toLowerCase "C:\Program Files (x86)") (toLowerCase "C:\Program Files")
     = true.
Proof. split; reflexivity. Qed.

(** The scenario of the specification: restricted prefix /system and the
    request /system/../system/x.txt. *)
Lemma C2_scenario :
  In "/system" (restrictedPaths Fixtures.systemConfig)
  /\ Path.resolve (cwd Fixtures.linkHost) "/system/../system/x.txt" = "/system/x.txt"
  /\ allDenied Fixtures.linkHost Fixtures.systemConfig "/system/../system/x.txt".
Proof.
  split; [simpl; auto|].
  split; [reflexivity|].
  apply (C2_resolved_path_under_prefix_denied
           Fixtures.linkHost Fixtures.systemConfig "/system/../system/x.txt" "/system").
  - simpl; auto.
  - reflexivity.
Defined.

(** ** read_file *)

(** What read_file does once the path and extension gates are passed and
    the path is a regular file. *)
Lemma read_file_after_gates (h : Host) (config : Config) (p encoding v : string)
      (stats : Stats) :
  validatePath h p (restrictedPaths config) = Return v ->
  validateExtension v (allowedExtensions config) config = Return true ->
  fs_stat h v = Return stats ->
  isFile stats = true ->
  read_file h config p encoding =
    if (maxFileSize config <? st_size stats)%N then
      Failure (tooLarge (st_size stats) (maxFileSize config))
    else if isBinaryFile h v then
      Success (BinaryEnvelope BINARY_PLACEHOLDER v (st_size stats)
                 (mimeOrUnknown h v) (st_mtime stats)
                 (toLowerCase (Path.extname v))
                 (binaryMessage (toLowerCase (Path.extname v))))
    else
      match fs_readFile h v encoding with
      | Return content =>
          Success (TextEnvelope content v (st_size stats) encoding
                     (mimeOrUnknown h v) (st_mtime stats))
      | Throw m => Failure m
      end.
Proof.
  intros Hv He Hs Hf.
  unfold read_file, readFileBody, bind.
  rewrite Hv, He, Hs, Hf. simpl.
  destruct (maxFileSize config <? st_size stats)%N; [reflexivity|].
  destruct (isBinaryFile h v); [reflexivity|].
  destruct (fs_readFile h v encoding); reflexivity.
Qed.

(** A successful read_file went through every gate. *)
Lemma read_file_Success_inv (h : Host) (config : Config) (p encoding : string)
      (d : ReadData) :
  read_file h config p encoding = Success d ->
  exists v stats,
    validatePath h p (restrictedPaths config) = Return v
    /\ validateExtension v (allowedExtensions config) config = Return true
    /\ fs_stat h v = Return stats
    /\ isFile stats = true
    /\ (st_size stats <= maxFileSize config)%N.
Proof.
  unfold read_file, readFileBody, bind. intros H.
  destruct (validatePath h p (restrictedPaths config)) as [v|] eqn:Hv; [|discriminate].
  destruct (validateExtension v (allowedExtensions config) config) as [b|] eqn:He;
    [|discriminate].
  destruct (fs_stat h v) as [stats|] eqn:Hs; [|discriminate].
  destruct (isFile stats) eqn:Hf; [|discriminate].
  simpl in H.
  destruct (maxFileSize config <? st_size stats)%N eqn:Hm; [discriminate|].
  assert (b = true) as ->.
  { unfold validateExtension in He.
    repeat match type of He with
           | (if ?c then _ else _) = _ => destruct c; [discriminate|]
           end.
    now injection He. }
  exists v, stats. repeat split; try assumption.
  now apply N.ltb_ge.
Qed.

(** Past the gates and the size check, a file classified as binary is
    answered with the metadata envelope. *)
Lemma read_file_binary_envelope (h : Host) (config : Config) (p encoding v : string)
      (stats : Stats) :
  validatePath h p (restrictedPaths config) = Return v ->
  validateExtension v (allowedExtensions config) config = Return true ->
  fs_stat h v = Return stats ->
  isFile stats = true ->
  (st_size stats <= maxFileSize config)%N ->
  isBinaryFile h v = true ->
  read_file h config p encoding
  = Success (BinaryEnvelope BINARY_PLACEHOLDER v (st_size stats)
               (mimeOrUnknown h v) (st_mtime stats)
               (toLowerCase (Path.extname v))
               (binaryMessage (toLowerCase (Path.extname v)))).
Proof.
  intros Hv He Hs Hf Hm Hb.
  rewrite (read_file_after_gates _ _ _ _ _ _ Hv He Hs Hf).
  apply N.ltb_ge in Hm. now rewrite Hm, Hb.
Qed.

(** C3.  For a file that read_file classifies as binary, the answer past
    the gates is the metadata envelope; every successful answer has the
    fixed placeholder as content, and the answer is the same whatever the
    contents of the files are: no byte of the file reaches the output. *)
Theorem C3_binary_file_content_is_placeholder :
  forall (h : Host) (config : Config) (p encoding : string),
    isBinaryFile h (Path.resolve (cwd h) p) = true ->
    (forall v stats,
        validatePath h p (restrictedPaths config) = Return v ->
        validateExtension v (allowedExtensions config) config = Return true ->
        fs_stat h v = Return stats ->
        isFile stats = true ->
        (st_size stats <= maxFileSize config)%N ->
        read_file h config p encoding
        = Success (BinaryEnvelope BINARY_PLACEHOLDER v (st_size stats)
                     (mimeOrUnknown h v) (st_mtime stats)
                     (toLowerCase (Path.extname v))
                     (binaryMessage (toLowerCase (Path.extname v)))))
    /\ (forall d, read_file h config p encoding = Success d ->
                  rd_isBinary d = true /\ rd_content d = BINARY_PLACEHOLDER)
    /\ (forall readFile',
          read_file (withReadFile h readFile') config p encoding
          = read_file h config p encoding).
Proof.
  intros h config p encoding Hb.
  assert (Hbin : forall v, validatePath h p (restrictedPaths config) = Return v ->
                           isBinaryFile h v = true).
  { intros v Hv. apply validatePath_Return in Hv as [-> _]. exact Hb. }
  split; [|split].
  - intros v stats Hv He Hs Hf Hm.
    apply read_file_binary_envelope; auto.
  - intros d Hd.
    destruct (read_file_Success_inv _ _ _ _ _ Hd) as (v & stats & Hv & He & Hs & Hf & Hm).
    rewrite (read_file_binary_envelope _ _ _ _ _ _ Hv He Hs Hf Hm (Hbin v Hv)) in Hd.
    injection Hd as <-. split; reflexivity.
  - intros readFile'.
    unfold read_file, readFileBody, bind, validatePath. simpl.
    destruct (checkRestricted (Path.resolve (cwd h) p) (restrictedPaths config)) as [[]|];
      [|reflexivity].
    simpl.
    destruct (validateExtension _ _ _); [|reflexivity].
    destruct (fs_stat h _); [|reflexivity].
    destruct (negb (isFile _)); [reflexivity|].
    destruct (_ <? _)%N; [reflexivity|].
    change (isBinaryFile (withReadFile h readFile') (Path.resolve (cwd h) p))
      with (isBinaryFile h (Path.resolve (cwd h) p)).
    rewrite Hb. reflexivity.
Qed.

Lemma C3_png_witness :
  isBinaryFile Fixtures.dataHost (Path.resolve (cwd Fixtures.dataHost) "/data/b.png") = true
  /\ fs_readFile Fixtures.dataHost "/data/b.png" "utf8" = Return "PNG-bytes"
  /\ read_file Fixtures.dataHost Fixtures.dataConfig "/data/b.png" "utf8"
     = Success (BinaryEnvelope BINARY_PLACEHOLDER "/data/b.png" 8 "image/png" 2000 ".png"
                  (binaryMessage ".png"))
  /\ (forall d, read_file Fixtures.dataHost Fixtures.dataConfig "/data/b.png" "utf8" = Success d ->
                rd_isBinary d = true /\ rd_content d = BINARY_PLACEHOLDER).
Proof.
  split; [reflexivity|].
  split; [reflexivity|].
  split; [reflexivity|].
  apply (C3_binary_file_content_is_placeholder
           Fixtures.dataHost Fixtures.dataConfig "/data/b.png" "utf8").
  reflexivity.
Defined.

(** C4.  read_file classifies a file as binary when its extension is in
    the metadata-only list or its MIME type starts with image/ or
    application/; a file that passes the gates with such a MIME type (a
    .json file, application/json) is answered with the placeholder, not
    with its text. *)
Theorem C4_application_mime_read_as_binary :
  forall (h : Host) (config : Config) (p encoding v : string) (stats : Stats),
    validatePath h p (restrictedPaths config) = Return v ->
    validateExtension v (allowedExtensions config) config = Return true ->
    fs_stat h v = Return stats ->
    isFile stats = true ->
    (st_size stats <= maxFileSize config)%N ->
    includes metadataOnlyExtensions (toLowerCase (Path.extname v)) = true
    \/ startsWith (mimeOrUnknown h v) "image/" = true
    \/ startsWith (mimeOrUnknown h v) "application/" = true ->
    isBinaryFile h v = true
    /\ read_file h config p encoding
       = Success (BinaryEnvelope "[Binary file - content not readable as text]" v
                    (st_size stats) (mimeOrUnknown h v) (st_mtime stats)
                    (toLowerCase (Path.extname v))
                    (binaryMessage (toLowerCase (Path.extname v)))).
Proof.
  intros h config p encoding v stats Hv He Hs Hf Hm Hclass.
  assert (Hb : isBinaryFile h v = true).
  { unfold isBinaryFile.
    destruct Hclass as [H|[H|H]]; rewrite H; rewrite ?orb_true_r; reflexivity. }
  split; [exact Hb|].
  now apply read_file_binary_envelope.
Qed.

Lemma C4_json_witness :
  includes (allowedExtensions Fixtures.dataConfig) ".json" = true
  /\ includes metadataOnlyExtensions ".json" = false
  /\ mime_lookup Fixtures.dataHost "/data/a.json" = Some "application/json"
  /\ fs_readFile Fixtures.dataHost "/data/a.json" "utf8" = Return "{}"
  /\ read_file Fixtures.dataHost Fixtures.dataConfig "/data/a.json" "utf8"
     = Success (BinaryEnvelope "[Binary file - content not readable as text]"
                  "/data/a.json" 2 "application/json" 2000 ".json"
                  (binaryMessage ".json")).
Proof.
  repeat (split; [reflexivity|]).
  apply (C4_application_mime_read_as_binary
           Fixtures.dataHost Fixtures.dataConfig "/data/a.json" "utf8" "/data/a.json"
           (TableHost.fileStats 2)); try reflexivity.
  - vm_compute. discriminate.
  - right; right; reflexivity.
Defined.

(** C8.  Past the path and extension gates, a regular file whose size is
    exactly the maximum is read, one of the maximum plus one byte fails
    with the too-large error, and the check is strict: every size up to the
    maximum passes it and every size above fails. *)
Theorem C8_size_limit_is_inclusive :
  forall (h : Host) (config : Config) (p encoding v : string) (stats : Stats),
    validatePath h p (restrictedPaths config) = Return v ->
    validateExtension v (allowedExtensions config) config = Return true ->
    fs_stat h v = Return stats ->
    isFile stats = true ->
    isBinaryFile h v = true \/ (exists content, fs_readFile h v encoding = Return content) ->
    (st_size stats = maxFileSize config ->
     exists d, read_file h config p encoding = Success d
               /\ rd_size d = maxFileSize config)
    /\ (st_size stats = (maxFileSize config + 1)%N ->
        read_file h config p encoding
        = Failure (tooLarge (maxFileSize config + 1) (maxFileSize config)))
    /\ ((st_size stats <= maxFileSize config)%N ->
        exists d, read_file h config p encoding = Success d)
    /\ ((maxFileSize config < st_size stats)%N ->
        read_file h config p encoding
        = Failure (tooLarge (st_size stats) (maxFileSize config))).
Proof.
  intros h config p encoding v stats Hv He Hs Hf Hread.
  pose proof (read_file_after_gates _ _ _ encoding _ _ Hv He Hs Hf) as Hr.
  assert (Hle : (st_size stats <= maxFileSize config)%N ->
                exists d, read_file h config p encoding = Success d
                          /\ rd_size d = st_size stats).
  { intros Hm. apply N.ltb_ge in Hm. rewrite Hr, Hm.
    destruct (isBinaryFile h v) eqn:Hb.
    - eexists. split; reflexivity.
    - destruct Hread as [Hc|(content & Hc)]; [discriminate|].
      rewrite Hc. eexists. split; reflexivity. }
  assert (Hgt : (maxFileSize config < st_size stats)%N ->
                read_file h config p encoding
                = Failure (tooLarge (st_size stats) (maxFileSize config))).
  { intros Hlt. apply N.ltb_lt in Hlt. now rewrite Hr, Hlt. }
  repeat split.
  - intros Hsz. destruct Hle as (d & Hd & Hsize); [rewrite Hsz; apply N.le_refl|].
    exists d. split; [exact Hd | now rewrite Hsize].
  - intros Hsz. rewrite <- Hsz. apply Hgt. lia.
  - intros Hm. destruct (Hle Hm) as (d & Hd & _). now exists d.
  - exact Hgt.
Qed.

Lemma C8_edge_witness :
  st_size (TableHost.fileStats 100) = maxFileSize Fixtures.dataConfig
  /\ (exists d, read_file Fixtures.dataHost Fixtures.dataConfig "/data/edge.txt" "utf8"
                = Success d /\ rd_size d = maxFileSize Fixtures.dataConfig)
  /\ read_file Fixtures.dataHost Fixtures.dataConfig "/data/big.txt" "utf8"
     = Failure "File too large: 101 bytes (max: 100)".
Proof.
  split; [reflexivity|]. split.
  - apply (C8_size_limit_is_inclusive
             Fixtures.dataHost Fixtures.dataConfig "/data/edge.txt" "utf8"
             "/data/edge.txt" (TableHost.fileStats 100)); try reflexivity.
    right. exists "". reflexivity.
  - apply (C8_size_limit_is_inclusive
             Fixtures.dataHost Fixtures.dataConfig "/data/big.txt" "utf8"
             "/data/big.txt" (TableHost.fileStats 101)); try reflexivity.
    right. exists "". reflexivity.
Defined.

(** ** The pattern matcher *)

Lemma allChars_complete (c : ascii) : existsb (Ascii.eqb c) allChars = true.
Proof.
  destruct c as [[] [] [] [] [] [] [] []]; vm_compute; reflexivity.
Qed.

(** Folding to upper case, as the "i" flag does, identifies the same code
    units as folding to lower case. *)
Lemma canonicalize_lowerChar (c d : ascii) :
  Ascii.eqb (canonicalize c) (canonicalize d) = Ascii.eqb (lowerChar c) (lowerChar d).
Proof.
  assert (H : forallb (fun c => forallb (fun d =>
                Bool.eqb (Ascii.eqb (canonicalize c) (canonicalize d))
                         (Ascii.eqb (lowerChar c) (lowerChar d))) allChars) allChars
              = true) by (vm_compute; reflexivity).
  rewrite forallb_forall in H.
  assert (Hin : forall x, In x allChars).
  { intros x. pose proof (allChars_complete x) as Hx.
    apply existsb_exists in Hx as (y & Hy & Hxy).
    apply Ascii.eqb_eq in Hxy. now subst. }
  specialize (H c (Hin c)). rewrite forallb_forall in H.
  specialize (H d (Hin d)). now apply Bool.eqb_prop in H.
Qed.

Lemma plainChar_cases (c : ascii) :
  plainChar c = true ->
  c = "*"%char \/ c = "?"%char
  \/ (Ascii.eqb c "*"%char = false /\ Ascii.eqb c "?"%char = false
      /\ atomOf c = Some (AChar c) /\ Ascii.eqb c "|"%char = false).
Proof.
  destruct c as [[] [] [] [] [] [] [] []]; intros H; vm_compute in H;
    try discriminate H;
    first [ left; reflexivity
          | right; left; reflexivity
          | right; right; repeat split ].
Qed.

Lemma parseTerms_atom (c : ascii) (a : atom) (rest : string) :
  atomOf c = Some a ->
  headIsStar rest = false ->
  parseTerms (String c rest) = option_map (cons (TAtom a)) (parseTerms rest).
Proof.
  intros Ha Hs. simpl. rewrite Ha.
  destruct rest as [|x rest']; [reflexivity|].
  simpl in Hs.
  destruct x as [[] [] [] [] [] [] [] []]; try reflexivity; discriminate Hs.
Qed.

Lemma parseTerms_star (c : ascii) (a : atom) (rest : string) :
  atomOf c = Some a ->
  parseTerms (String c (String "*"%char rest))
  = option_map (cons (TStar a)) (parseTerms rest).
Proof. intros Ha. simpl. now rewrite Ha. Qed.

(** The source a pattern is translated to, character by character. *)
Lemma translate_cons (c : ascii) (r : string) :
  replaceAll "?" "." (replaceAll "*" ".*" (String c r))
  = if Ascii.eqb c "*"%char then
      String "."%char (String "*"%char (replaceAll "?" "." (replaceAll "*" ".*" r)))
    else if Ascii.eqb c "?"%char then
      String "."%char (replaceAll "?" "." (replaceAll "*" ".*" r))
    else String c (replaceAll "?" "." (replaceAll "*" ".*" r)).
Proof.
  simpl. destruct (Ascii.eqb c "*"%char) eqn:Es; [reflexivity|].
  simpl. destruct (Ascii.eqb c "?"%char); reflexivity.
Qed.

Lemma translate_head (p sfx : string) :
  headIsStar sfx = false ->
  headIsStar (replaceAll "?" "." (replaceAll "*" ".*" p) ++ sfx) = false.
Proof.
  intros Hs. destruct p as [|c r]; [exact Hs|].
  rewrite translate_cons.
  destruct (Ascii.eqb c "*"%char) eqn:Es; [reflexivity|].
  destruct (Ascii.eqb c "?"%char) eqn:Eq; [reflexivity|].
  simpl. exact Es.
Qed.

Lemma append_cons (a : ascii) (x y : string) :
  (String a x ++ y)%string = String a (x ++ y)%string.
Proof. reflexivity. Qed.

Lemma parseTerms_plain (p sfx : string) (ts : list term) :
  plainPattern p = true ->
  headIsStar sfx = false ->
  parseTerms sfx = Some ts ->
  parseTerms (replaceAll "?" "." (replaceAll "*" ".*" p) ++ sfx)
  = Some (patternTerms p ++ ts)%list.
Proof.
  intros Hp Hs Hsfx. induction p as [|c r IH]; [exact Hsfx|].
  simpl in Hp. apply andb_true_iff in Hp as [Hc Hr].
  specialize (IH Hr).
  rewrite translate_cons.
  destruct (plainChar_cases c Hc) as [->|[->|(Es & Eq & Ha & _)]].
  - change (Ascii.eqb "*" "*") with true. cbv iota.
    rewrite !append_cons, (parseTerms_star "."%char AAny) by reflexivity.
    rewrite IH. reflexivity.
  - change (Ascii.eqb "?" "*") with false. change (Ascii.eqb "?" "?") with true.
    cbv iota. rewrite append_cons.
    rewrite (parseTerms_atom "."%char AAny) by (try reflexivity; now apply translate_head).
    rewrite IH. reflexivity.
  - rewrite Es, Eq, append_cons.
    rewrite (parseTerms_atom c (AChar c)) by (try assumption; now apply translate_head).
    rewrite IH. simpl. now rewrite Es, Eq.
Qed.

Lemma split_without_separator (c : ascii) (s : string) :
  forallChars (fun a => negb (Ascii.eqb a c)) s = true ->
  split c s = [s].
Proof.
  induction s as [|a r IH]; simpl; [reflexivity|].
  intros H. apply andb_true_iff in H as [Ha Hr].
  apply negb_true_iff in Ha. rewrite Ha, (IH Hr). reflexivity.
Qed.

Lemma translate_without_bar (p sfx : string) :
  plainPattern p = true ->
  forallChars (fun a => negb (Ascii.eqb a "|"%char)) sfx = true ->
  forallChars (fun a => negb (Ascii.eqb a "|"%char))
              (replaceAll "?" "." (replaceAll "*" ".*" p) ++ sfx) = true.
Proof.
  intros Hp Hs. induction p as [|c r IH]; [exact Hs|].
  simpl in Hp. apply andb_true_iff in Hp as [Hc Hr].
  specialize (IH Hr). rewrite translate_cons.
  destruct (plainChar_cases c Hc) as [->|[->|(Es & Eq & _ & Hbar)]].
  - change (Ascii.eqb "*" "*") with true. cbv iota.
    rewrite !append_cons. exact IH.
  - change (Ascii.eqb "?" "*") with false. change (Ascii.eqb "?" "?") with true.
    cbv iota. rewrite append_cons. exact IH.
  - rewrite Es, Eq, append_cons.
    change (negb (Ascii.eqb c "|") && forallChars (fun a => negb (Ascii.eqb a "|"%char))
              (replaceAll "?" "." (replaceAll "*" ".*" r) ++ sfx) = true).
    now rewrite Hbar, IH.
Qed.

(** A plain pattern compiles to one alternative: its terms between the two
    anchors. *)
Lemma RegExp_new_plain (p : string) :
  plainPattern p = true ->
  RegExp_new (patternSource p) = Some [TBol :: patternTerms p ++ [TEol]]%list.
Proof.
  intros Hp. unfold RegExp_new, patternSource.
  rewrite split_without_separator.
  - simpl. now rewrite (parseTerms_plain p "$" [TEol] Hp).
  - simpl. now apply translate_without_bar.
Qed.

Lemma testFrom_anchored (ts : list term) (s : string) :
  testFrom [TBol :: ts] false s = false.
Proof. induction s as [|a r IH]; simpl; [reflexivity | exact IH]. Qed.

Lemma RegExp_test_anchored (ts : list term) (s : string) :
  RegExp_test [TBol :: ts] s = matchTerms ts true s.
Proof.
  unfold RegExp_test. destruct s as [|a r]; simpl.
  - now rewrite !orb_false_r.
  - rewrite testFrom_anchored. now rewrite !orb_false_r.
Qed.

(** On names of one line, the compiled terms of a plain pattern match what
    the glob of the specification matches. *)
Lemma matchTerms_glob (p : string) :
  plainPattern p = true ->
  forall (n : string) (b : bool),
    oneLine n = true ->
    matchTerms (patternTerms p ++ [TEol])%list b n = globMatch p n.
Proof.
  induction p as [|c r IH]; intros Hp n b Hn.
  - simpl. now rewrite andb_true_r.
  - simpl in Hp. apply andb_true_iff in Hp as [Hc Hr].
    specialize (IH Hr).
    destruct (plainChar_cases c Hc) as [->|[->|(Es & Eq & _ & _)]].
    + simpl. revert b. induction n as [|d n IHn]; intros b.
      * rewrite IH by reflexivity. reflexivity.
      * rewrite IH by exact Hn.
        apply andb_true_iff in Hn as [Hd Hn'].
        rewrite Hd. simpl (true && _).
        f_equal. exact (IHn Hn' false).
    + simpl. destruct n as [|d n]; [reflexivity|].
      simpl in Hn. apply andb_true_iff in Hn as [Hd Hn'].
      rewrite Hd. simpl. now apply IH.
    + simpl. rewrite Es, Eq. destruct n as [|d n]; [reflexivity|].
      simpl in Hn. apply andb_true_iff in Hn as [Hd Hn'].
      simpl. rewrite canonicalize_lowerChar. f_equal. now apply IH.
Qed.

(** Where the pattern holds no regex metacharacter besides the wildcards
    and the name no line break, the matcher is the glob of the
    specification. *)
Lemma matchesPattern_plain_glob (name pattern : string) :
  plainPattern pattern = true ->
  oneLine name = true ->
  matchesPattern name pattern = Some (globMatch pattern name).
Proof.
  intros Hp Hn. unfold matchesPattern.
  rewrite (RegExp_new_plain pattern Hp), RegExp_test_anchored.
  now rewrite (matchTerms_glob pattern Hp name true Hn).
Qed.

(** The matcher answers for every name once the pattern compiles. *)
Lemma matchesPattern_compiled (name pattern : string) (re : regex) :
  RegExp_new (patternSource pattern) = Some re ->
  matchesPattern name pattern = Some (RegExp_test re name).
Proof. intros H. unfold matchesPattern. now rewrite H. Qed.

(** The four examples of the specification. *)
Lemma matchesPattern_spec_examples :
  matchesPattern "report.txt" "*.txt" = Some true
  /\ matchesPattern "report.txt" "*.TXT" = Some true
  /\ matchesPattern "a.txt" "?.txt" = Some true
  /\ matchesPattern "ab.txt" "?.txt" = Some false.
Proof. repeat split. Qed.

(** C5 (the code departs from the claim).  The pattern compiler replaces
    the two wildcards and escapes nothing: the dot of the pattern file.txt
    stays a regex dot, and the pattern matches the name fileAtxt, which the
    glob of the specification refuses. *)
Theorem C5_pattern_dot_matches_any_character :
  patternSource "file.txt" = "^file.txt$"
  /\ matchesPattern "fileAtxt" "file.txt" = Some true
  /\ globMatch "file.txt" "fileAtxt" = false.
Proof. repeat split. Qed.

(** C6 (the code departs from the claim).  The wildcards, the case folding
    and the anchors are those of the claim on plain patterns and one-line
    names ([matchesPattern_plain_glob]), but not for every name and
    pattern: the anchors do not span the bar of the pattern a|b, which so
    matches the longer name abc, and the star does not run over the line
    feed of a name. *)
Theorem C6_bar_unanchors_and_star_stops_at_line_feed :
  patternSource "a|b" = "^a|b$"
  /\ matchesPattern "abc" "a|b" = Some true
  /\ globMatch "a|b" "abc" = false
  /\ patternSource "*" = "^.*$"
  /\ matchesPattern (String "a" (String "010" "b")) "*" = Some false
  /\ globMatch "*" (String "a" (String "010" "b")) = true.
Proof. repeat split. Qed.

(** ** search_files *)

Section SearchFacts.

Variable h : Host.
Variable pattern : string.
Variable recursive : bool.

Lemma matchesPattern_None (name : string) :
  matchesPattern name pattern = None -> RegExp_new (patternSource pattern) = None.
Proof.
  unfold matchesPattern. now destruct (RegExp_new (patternSource pattern)).
Qed.

Lemma visitFile_cases (entry : Dirent) (entryPath : string) (results : list SearchHit) :
  (exists hit, visitFile h pattern entry entryPath results
               = ((results ++ [hit])%list, Completed)
               /\ sh_name hit = d_name entry /\ sh_path hit = entryPath
               /\ matchesPattern (d_name entry) pattern = Some true)
  \/ (visitFile h pattern entry entryPath results = (results, Completed)
      /\ matchesPattern (d_name entry) pattern = Some false)
  \/ (exists m, visitFile h pattern entry entryPath results = (results, Thrown m)
                /\ fs_stat h entryPath = Throw m)
  \/ (visitFile h pattern entry entryPath results = (results, Unmodelled)
      /\ matchesPattern (d_name entry) pattern = None).
Proof.
  unfold visitFile.
  destruct (matchesPattern (d_name entry) pattern) as [[|]|].
  - destruct (fs_stat h entryPath) as [stats|m].
    + left. eexists. repeat split.
    + right; right; left. exists m. now split.
  - right; left. now split.
  - right; right; right. now split.
Qed.

(** Any property of outcomes that holds of returning and of throwing (and
    of the unmodelled outcome when the pattern does not compile) holds of
    the loop as soon as it holds of the recursive calls. *)
Lemma forEntries_outcome (P : outcome -> Prop)
      (recurse : string -> nat -> list SearchHit -> list SearchHit * outcome)
      (dirPath : string) (depth : nat) (entries : list Dirent) :
  P Completed ->
  (forall m, P (Thrown m)) ->
  (RegExp_new (patternSource pattern) = None -> P Unmodelled) ->
  (forall p r, P (snd (recurse p (depth + 1) r))) ->
  forall results,
    P (snd (forEntries h pattern recursive recurse dirPath depth entries results)).
Proof.
  intros Pc Pt Pu Pr.
  induction entries as [|entry rest IH]; intros results; simpl; [exact Pc|].
  destruct (entryIsFile entry).
  - destruct (visitFile_cases entry (Path.join2 dirPath (d_name entry)) results)
      as [(hit & -> & _)|[(-> & _)|[(m & -> & _)|(-> & Hn)]]].
    + apply IH.
    + apply IH.
    + apply Pt.
    + apply Pu. exact (matchesPattern_None _ Hn).
  - destruct (entryIsDirectory entry && recursive); [|apply IH].
    specialize (Pr (Path.join2 dirPath (d_name entry)) results).
    destruct (recurse (Path.join2 dirPath (d_name entry)) (depth + 1) results)
      as [r o].
    destruct o; simpl in *; try apply IH; exact Pr.
Qed.

Lemma searchInDirectory_outcome (P : outcome -> Prop) :
  P Completed ->
  (forall m, P (Thrown m)) ->
  (RegExp_new (patternSource pattern) = None -> P Unmodelled) ->
  forall fuel dirPath depth results,
    0 < fuel -> 12 <= fuel + depth ->
    P (snd (searchInDirectory h pattern recursive fuel dirPath depth results)).
Proof.
  intros Pc Pt Pu.
  induction fuel as [|fuel IH]; intros dirPath depth results Hpos Hfuel; [lia|].
  simpl.
  destruct (10 <? depth)%nat eqn:Hd; [exact Pc|].
  apply Nat.ltb_ge in Hd.
  destruct (fs_readdir h dirPath) as [entries|m]; [|apply Pt].
  apply forEntries_outcome; try assumption.
  intros p r. apply IH; lia.
Qed.

(** The embedding never runs out of its 12 units of fuel. *)
Lemma searchInDirectory_total (fuel : nat) (dirPath : string) (depth : nat)
      (results : list SearchHit) :
  0 < fuel -> 12 <= fuel + depth ->
  snd (searchInDirectory h pattern recursive fuel dirPath depth results) <> OutOfFuel.
Proof.
  apply (searchInDirectory_outcome (fun o => o <> OutOfFuel)); now intros.
Qed.

Lemma searchInDirectory_ended (re : regex) (fuel : nat) (dirPath : string)
      (depth : nat) (results : list SearchHit) :
  RegExp_new (patternSource pattern) = Some re ->
  0 < fuel -> 12 <= fuel + depth ->
  ended (snd (searchInDirectory h pattern recursive fuel dirPath depth results)).
Proof.
  intros Hre. apply (searchInDirectory_outcome ended); simpl; auto.
  rewrite Hre. discriminate.
Qed.

Lemma forEntries_ext
      (recurse1 recurse2 : string -> nat -> list SearchHit -> list SearchHit * outcome)
      (dirPath : string) (depth : nat) (entries : list Dirent) :
  (forall p r, recurse1 p (depth + 1) r = recurse2 p (depth + 1) r) ->
  forall results,
    forEntries h pattern recursive recurse1 dirPath depth entries results
    = forEntries h pattern recursive recurse2 dirPath depth entries results.
Proof.
  intros He. induction entries as [|entry rest IH]; intros results; simpl; [reflexivity|].
  rewrite He.
  destruct (if entryIsFile entry then _ else _) as [r o].
  destruct o; auto.
Qed.

(** More fuel than needed changes nothing. *)
Lemma searchInDirectory_fuel (fuel1 fuel2 : nat) (dirPath : string) (depth : nat)
      (results : list SearchHit) :
  0 < fuel1 -> 0 < fuel2 -> 12 <= fuel1 + depth -> 12 <= fuel2 + depth ->
  searchInDirectory h pattern recursive fuel1 dirPath depth results
  = searchInDirectory h pattern recursive fuel2 dirPath depth results.
Proof.
  revert fuel2 dirPath depth results.
  induction fuel1 as [|fuel1 IH]; intros fuel2 dirPath depth results H1 H2 Hf1 Hf2; [lia|].
  destruct fuel2 as [|fuel2]; [lia|].
  simpl.
  destruct (10 <? depth)%nat eqn:Hd; [reflexivity|].
  apply Nat.ltb_ge in Hd.
  destruct (fs_readdir h dirPath) as [entries|m]; [|reflexivity].
  apply forEntries_ext. intros p r. apply IH; lia.
Qed.

(** Past depth 10 a call returns at once: nothing is read, nothing is
    added, nothing is thrown. *)
Lemma searchInDirectory_too_deep (fuel : nat) (dirPath : string) (depth : nat)
      (results : list SearchHit) :
  10 < depth ->
  searchInDirectory h pattern recursive (S fuel) dirPath depth results
  = (results, Completed).
Proof.
  intros Hd. simpl. apply Nat.ltb_lt in Hd. now rewrite Hd.
Qed.

Lemma forEntries_hits (root : string)
      (recurse : string -> nat -> list SearchHit -> list SearchHit * outcome)
      (dirPath : string) (depth : nat) (all entries : list Dirent) :
  depth <= 10 ->
  dirAt h root depth dirPath ->
  fs_readdir h dirPath = Return all ->
  incl entries all ->
  (forall p r hit,
      dirAt h root (S depth) p ->
      In hit (fst (recurse p (depth + 1) r)) ->
      In hit r \/ foundWithin h root 10 hit) ->
  forall results hit,
    In hit (fst (forEntries h pattern recursive recurse dirPath depth entries results)) ->
    In hit results \/ foundWithin h root 10 hit.
Proof.
  intros Hd Hat Hall Hincl Hrec.
  induction entries as [|entry rest IH]; intros results hit; simpl; [now left|].
  assert (Hentry : In entry all) by (apply Hincl; now left).
  assert (Hrest : incl rest all) by (intros x Hx; apply Hincl; now right).
  specialize (IH Hrest).
  destruct (entryIsFile entry) eqn:Hfile.
  - destruct (visitFile_cases entry (Path.join2 dirPath (d_name entry)) results)
      as [(new & -> & Hname & Hpath & _)|[(-> & _)|[(m & -> & _)|(-> & _)]]];
      simpl; try (now left); try apply IH.
    intros Hin. apply IH in Hin as [Hin|Hin]; [|now right].
    apply in_app_or in Hin as [Hin|[<-|[]]]; [now left|].
    right. exists depth, dirPath, all, entry. repeat split; assumption.
  - destruct (entryIsDirectory entry && recursive) eqn:Hdir; [|apply IH].
    apply andb_true_iff in Hdir as [Hdir _].
    assert (Hchild : dirAt h root (S depth) (Path.join2 dirPath (d_name entry)))
      by (eapply dirAt_child; eassumption).
    specialize (Hrec (Path.join2 dirPath (d_name entry)) results).
    destruct (recurse (Path.join2 dirPath (d_name entry)) (depth + 1) results)
      as [r o].
    assert (Hr : forall x, In x r -> In x results \/ foundWithin h root 10 x)
      by (intros x Hx; now apply Hrec).
    destruct o; simpl; intros Hin;
      try (apply IH in Hin as [Hin|Hin]; [now apply Hr | now right]);
      now apply Hr.
Qed.

(** Every hit a run adds is a file entry of a directory at depth 10 or
    less under the root of the search. *)
Lemma searchInDirectory_hits (root : string) (fuel : nat) :
  forall dirPath depth results hit,
    dirAt h root depth dirPath ->
    In hit (fst (searchInDirectory h pattern recursive fuel dirPath depth results)) ->
    In hit results \/ foundWithin h root 10 hit.
Proof.
  induction fuel as [|fuel IH]; intros dirPath depth results hit Hat; simpl; [now left|].
  destruct (10 <? depth)%nat eqn:Hd; [now left|].
  apply Nat.ltb_ge in Hd.
  destruct (fs_readdir h dirPath) as [entries|m] eqn:Hread; [|now left].
  apply (forEntries_hits root _ dirPath depth entries entries); try assumption.
  - apply incl_refl.
  - intros p r x Hp. rewrite Nat.add_1_r. now apply IH.
Qed.

End SearchFacts.

Lemma searchInDirectory_S (h : Host) (pattern : string) (recursive : bool)
      (fuel : nat) (dirPath : string) (depth : nat) (results : list SearchHit) :
  searchInDirectory h pattern recursive (S fuel) dirPath depth results
  = if (10 <? depth)%nat then (results, Completed)
    else match fs_readdir h dirPath with
         | Throw m => (results, Thrown m)
         | Return entries =>
             forEntries h pattern recursive
                        (searchInDirectory h pattern recursive fuel)
                        dirPath depth entries results
         end.
Proof. reflexivity. Qed.

Lemma forEntries_completes (h : Host) (pattern : string) (recursive : bool)
      (re : regex)
      (recurse : string -> nat -> list SearchHit -> list SearchHit * outcome)
      (dirPath : string) (depth : nat) (entries : list Dirent) :
  RegExp_new (patternSource pattern) = Some re ->
  (forall p r, ended (snd (recurse p (depth + 1) r))) ->
  (forall e, In e entries -> entryIsFile e = true ->
             RegExp_test re (d_name e) = true ->
             exists s, fs_stat h (Path.join2 dirPath (d_name e)) = Return s) ->
  forall results,
    snd (forEntries h pattern recursive recurse dirPath depth entries results)
    = Completed.
Proof.
  intros Hre Hrec.
  induction entries as [|entry rest IH]; intros Hstat results; simpl; [reflexivity|].
  assert (IH' := IH (fun e He => Hstat e (or_intror He))).
  destruct (entryIsFile entry) eqn:Hfile.
  - unfold visitFile. rewrite (matchesPattern_compiled _ _ _ Hre).
    destruct (RegExp_test re (d_name entry)) eqn:Ht; [|apply IH'].
    destruct (Hstat entry (or_introl eq_refl) Hfile Ht) as (s & ->). apply IH'.
  - destruct (entryIsDirectory entry && recursive); [|apply IH'].
    specialize (Hrec (Path.join2 dirPath (d_name entry)) results).
    destruct (recurse (Path.join2 dirPath (d_name entry)) (depth + 1) results)
      as [r o].
    destruct o; simpl in *; try apply IH'; contradiction.
Qed.

(** The loop passes over a directory entry that cannot be enumerated as if
    it were not there. *)
Lemma forEntries_skips_unreadable (h : Host) (pattern : string) (fuel : nat)
      (dirPath : string) (depth : nat) (before : list Dirent) (entry : Dirent)
      (after : list Dirent) (m : string) :
  entryIsDirectory entry = true ->
  fs_readdir h (Path.join2 dirPath (d_name entry)) = Throw m ->
  forall results,
    forEntries h pattern true (searchInDirectory h pattern true (S fuel))
               dirPath depth (before ++ entry :: after)%list results
    = forEntries h pattern true (searchInDirectory h pattern true (S fuel))
                 dirPath depth (before ++ after)%list results.
Proof.
  intros Hdir Hread.
  assert (Hfile : entryIsFile entry = false).
  { unfold entryIsFile, entryIsDirectory in *. now destruct (d_kind entry). }
  induction before as [|e before IH]; intros results.
  - simpl app. cbn [forEntries]. rewrite Hfile, Hdir. simpl andb. cbv iota.
    rewrite searchInDirectory_S, Hread.
    destruct (10 <? depth + 1)%nat; reflexivity.
  - simpl app. cbn [forEntries].
    destruct (if entryIsFile e then _ else _) as [r o].
    destruct o; auto.
Qed.

(** C9.  The recursive search always ends, and the depth ceiling is what
    bounds it: a call at a depth above 10 returns at once without reading
    or throwing, so every hit of a search is a file entry of a directory
    at most 10 levels below the root of the search. *)
Theorem C9_recursive_search_stops_at_depth_10 :
  forall (h : Host) (config : Config) (search_path pattern : string)
         (recursive : bool),
    (forall dirPath depth results fuel,
        0 < fuel -> 12 <= fuel + depth ->
        snd (searchInDirectory h pattern recursive fuel dirPath depth results)
        <> OutOfFuel)
    /\ (forall re, RegExp_new (patternSource pattern) = Some re ->
                   exists r, search_files h config search_path pattern recursive = Some r)
    /\ (forall dirPath results fuel,
           12 <= fuel ->
           searchInDirectory h pattern recursive fuel dirPath 0 results
           = searchInDirectory h pattern recursive searchFuel dirPath 0 results)
    /\ (forall dirPath depth results fuel,
           10 < depth ->
           searchInDirectory h pattern recursive (S fuel) dirPath depth results
           = (results, Completed))
    /\ (forall data hit,
           search_files h config search_path pattern recursive = Some (Success data) ->
           In hit (sd_results data) ->
           foundWithin h (sd_searchPath data) 10 hit).
Proof.
  intros h config search_path pattern recursive. repeat split.
  - intros. now apply searchInDirectory_total.
  - intros re Hre. unfold search_files.
    destruct (validatePath h search_path (restrictedPaths config)) as [v|m];
      [|eexists; reflexivity].
    pose proof (searchInDirectory_ended h pattern recursive re searchFuel v 0 [] Hre)
      as He.
    destruct (searchInDirectory h pattern recursive searchFuel v 0 []) as [r o].
    unfold searchFuel in He. simpl in He.
    destruct o; try (eexists; reflexivity); exfalso; apply He; lia.
  - intros. apply searchInDirectory_fuel; unfold searchFuel; lia.
  - intros. now apply searchInDirectory_too_deep.
  - intros data hit Hs Hin. unfold search_files in Hs.
    destruct (validatePath h search_path (restrictedPaths config)) as [v|m];
      [|discriminate].
    pose proof (searchInDirectory_hits h pattern recursive v searchFuel v 0 [] hit
                  (dirAt_root h v)) as Hh.
    destruct (searchInDirectory h pattern recursive searchFuel v 0 []) as [r o].
    destruct o; try discriminate.
    injection Hs as <-. simpl in *.
    destruct (Hh Hin) as [[]|Hf]. exact Hf.
Qed.

(** A chain of 15 directories below /r: the recursive search for *.txt
    returns the files of the root and of the first 10 directories, and
    nothing of the 5 directories below them. *)
Lemma C9_chain_of_15 :
  exists data,
    search_files Fixtures.chainHost Fixtures.openConfig "/r" "*.txt" true
    = Some (Success data)
    /\ map sh_path (sd_results data)
       = ["/r/f0.txt"; "/r/d1/f1.txt"; "/r/d1/d2/f2.txt"; "/r/d1/d2/d3/f3.txt";
          "/r/d1/d2/d3/d4/f4.txt"; "/r/d1/d2/d3/d4/d5/f5.txt";
          "/r/d1/d2/d3/d4/d5/d6/f6.txt"; "/r/d1/d2/d3/d4/d5/d6/d7/f7.txt";
          "/r/d1/d2/d3/d4/d5/d6/d7/d8/f8.txt";
          "/r/d1/d2/d3/d4/d5/d6/d7/d8/d9/f9.txt";
          "/r/d1/d2/d3/d4/d5/d6/d7/d8/d9/d10/f10.txt"]
    /\ fs_stat Fixtures.chainHost "/r/d1/d2/d3/d4/d5/d6/d7/d8/d9/d10/d11/f11.txt"
       = Return (TableHost.fileStats 11)
    /\ forall hit, In hit (sd_results data) ->
                   foundWithin Fixtures.chainHost (sd_searchPath data) 10 hit.
Proof.
  eexists. split; [vm_compute; reflexivity|].
  split; [reflexivity|].
  split; [reflexivity|].
  intros hit Hin.
  apply (C9_recursive_search_stops_at_depth_10
           Fixtures.chainHost Fixtures.openConfig "/r" "*.txt" true) in Hin.
  - exact Hin.
  - vm_compute. reflexivity.
Defined.

(** C10.  In a recursive search a subdirectory whose enumeration throws is
    passed over: the loop goes on as if the entry were not there, and the
    call succeeds with what the rest of the tree gives, whatever fails
    below the root. *)
Theorem C10_unreadable_subdirectory_is_skipped :
  forall (h : Host) (pattern : string),
    (forall fuel dirPath depth before entry after m results,
        entryIsDirectory entry = true ->
        fs_readdir h (Path.join2 dirPath (d_name entry)) = Throw m ->
        forEntries h pattern true (searchInDirectory h pattern true (S fuel))
                   dirPath depth (before ++ entry :: after)%list results
        = forEntries h pattern true (searchInDirectory h pattern true (S fuel))
                     dirPath depth (before ++ after)%list results)
    /\ (forall config search_path v entries re,
           validatePath h search_path (restrictedPaths config) = Return v ->
           fs_readdir h v = Return entries ->
           RegExp_new (patternSource pattern) = Some re ->
           (forall e, In e entries -> entryIsFile e = true ->
                      RegExp_test re (d_name e) = true ->
                      exists s, fs_stat h (Path.join2 v (d_name e)) = Return s) ->
           exists data,
             search_files h config search_path pattern true = Some (Success data)
             /\ sd_results data
                = fst (forEntries h pattern true (searchInDirectory h pattern true 11)
                                  v 0 entries [])).
Proof.
  intros h pattern. split.
  - intros. now apply (forEntries_skips_unreadable h pattern fuel dirPath depth
                         before entry after m).
  - intros config search_path v entries re Hv Hread Hre Hstat.
    unfold search_files. rewrite Hv.
    unfold searchFuel. rewrite searchInDirectory_S, Hread.
    change (10 <? 0)%nat with false. cbv iota.
    pose proof (forEntries_completes h pattern true re
                  (searchInDirectory h pattern true 11) v 0 entries Hre) as Hc.
    specialize (Hc (fun p r => searchInDirectory_ended h pattern true re 11 p (0 + 1) r
                                 Hre ltac:(lia) ltac:(lia)) Hstat []).
    destruct (forEntries h pattern true (searchInDirectory h pattern true 11)
                         v 0 entries []) as [r o].
    simpl in Hc. subst o. eexists. split; reflexivity.
Qed.

Lemma C10_locked_directory_witness :
  fs_readdir Fixtures.lockedHost "/r/locked"
  = Throw "EACCES: permission denied, scandir '/r/locked'"
  /\ exists data,
       search_files Fixtures.lockedHost Fixtures.openConfig "/r" "*.txt" true
       = Some (Success data)
       /\ map sh_path (sd_results data) = ["/r/a.txt"; "/r/first/b.txt"; "/r/last/c.txt"].
Proof.
  split; [reflexivity|].
  destruct (proj2 (C10_unreadable_subdirectory_is_skipped Fixtures.lockedHost "*.txt")
              Fixtures.openConfig "/r" "/r"
              [mkDirent "a.txt" RegularFile; mkDirent "first" Directory;
               mkDirent "locked" Directory; mkDirent "last" Directory]
              [[TBol; TStar AAny; TAtom AAny; TAtom (AChar "t"); TAtom (AChar "x");
                TAtom (AChar "t"); TEol]]
              eq_refl eq_refl eq_refl) as (data & Hd & Hr).
  - intros e [<-|[<-|[<-|[<-|[]]]]] Hf Ht; try discriminate Hf.
    exists (TableHost.fileStats 1). reflexivity.
  - exists data. split; [exact Hd|]. rewrite Hr. vm_compute. reflexivity.
Defined.

(** ** Canonical paths *)

Lemma append_assoc (a b c : string) : (a ++ b) ++ c = a ++ (b ++ c).
Proof. induction a as [|x a IH]; simpl; [reflexivity | now rewrite IH]. Qed.

Lemma append_nil_r (a : string) : a ++ "" = a.
Proof. induction a as [|x a IH]; simpl; [reflexivity | now rewrite IH]. Qed.

Lemma rev_onto_append (s acc : string) : rev_onto s acc = rev s ++ acc.
Proof.
  unfold rev. revert acc. induction s as [|x s IH]; intros acc; simpl; [reflexivity|].
  rewrite (IH (String x acc)), (IH (String x "")), append_assoc. reflexivity.
Qed.

Lemma rev_cons (x : ascii) (s : string) : rev (String x s) = rev s ++ String x "".
Proof. unfold rev at 1. simpl. apply rev_onto_append. Qed.

Lemma rev_append (a b : string) : rev (a ++ b) = rev b ++ rev a.
Proof.
  induction a as [|x a IH]; simpl.
  - change (rev "") with "". now rewrite append_nil_r.
  - rewrite !rev_cons, IH, append_assoc. reflexivity.
Qed.

Lemma rev_involutive (a : string) : rev (rev a) = a.
Proof.
  induction a as [|x a IH]; [reflexivity|].
  rewrite rev_cons, rev_append, IH. reflexivity.
Qed.

Lemma forallChars_append (f : ascii -> bool) (a b : string) :
  forallChars f (a ++ b) = forallChars f a && forallChars f b.
Proof.
  induction a as [|x a IH]; simpl; [reflexivity|]. now rewrite IH, andb_assoc.
Qed.

Lemma forallChars_rev (f : ascii -> bool) (a : string) :
  forallChars f (rev a) = forallChars f a.
Proof.
  induction a as [|x a IH]; [reflexivity|].
  rewrite rev_cons, forallChars_append, IH. simpl.
  rewrite andb_true_r. apply andb_comm.
Qed.

Lemma dropWhile_append (p : ascii -> bool) (a b : string) :
  forallChars p a = true -> stopsAt p b -> dropWhile p (a ++ b) = b.
Proof.
  intros Ha Hb. induction a as [|x a IH]; simpl.
  - destruct b as [|c b]; [reflexivity|]. simpl in *. now rewrite Hb.
  - simpl in Ha. apply andb_true_iff in Ha as [Hx Ha]. rewrite Hx. now apply IH.
Qed.

Lemma takeWhile_append (p : ascii -> bool) (a b : string) :
  forallChars p a = true -> stopsAt p b -> takeWhile p (a ++ b) = a.
Proof.
  intros Ha Hb. induction a as [|x a IH]; simpl.
  - destruct b as [|c b]; [reflexivity|]. simpl in *. now rewrite Hb.
  - simpl in Ha. apply andb_true_iff in Ha as [Hx Ha]. rewrite Hx. f_equal. now apply IH.
Qed.

Lemma concat_snoc (sep : string) (init : list string) (last : string) :
  init <> [] ->
  String.concat sep (init ++ [last]) = String.concat sep init ++ sep ++ last.
Proof.
  induction init as [|s init IH]; intros Hne; [congruence|].
  destruct init as [|s' init].
  - reflexivity.
  - change (String.concat sep ((s :: s' :: init) ++ [last])%list)
      with (s ++ sep ++ String.concat sep ((s' :: init) ++ [last])%list).
    rewrite IH by discriminate.
    change (String.concat sep (s :: s' :: init))
      with (s ++ sep ++ String.concat sep (s' :: init)).
    now rewrite !append_assoc.
Qed.

Lemma split_append (s t : string) :
  noSlash s = true ->
  split "/" (s ++ String "/" t) = s :: split "/" t.
Proof.
  unfold noSlash. induction s as [|x s IH]; intros Hs; [reflexivity|].
  simpl in Hs. apply andb_true_iff in Hs as [Hx Hs].
  apply negb_true_iff in Hx. unfold Path.isSlash in Hx.
  simpl. rewrite Hx, (IH Hs). reflexivity.
Qed.

Lemma cleanSegment_inv (s : string) :
  cleanSegment s = true ->
  (s =? "") = false /\ noSlash s = true /\ (s =? ".") = false /\ (s =? "..") = false.
Proof.
  unfold cleanSegment. intros H.
  repeat (apply andb_true_iff in H as [H ?]).
  repeat split; try assumption; now apply negb_true_iff.
Qed.

Lemma split_join (segs : list string) :
  clean segs -> segs <> [] -> split "/" (join "/" segs) = segs.
Proof.
  unfold join. induction segs as [|s segs IH]; intros Hc Hne; [congruence|].
  inversion Hc as [|? ? Hs Hc']; subst.
  destruct (cleanSegment_inv s Hs) as (_ & Hn & _).
  destruct segs as [|s' segs].
  - simpl. now apply split_without_separator.
  - change (String.concat "/" (s :: s' :: segs))
      with (s ++ String "/" (String.concat "/" (s' :: segs))).
    rewrite split_append by exact Hn. f_equal. apply IH; [exact Hc' | discriminate].
Qed.

Lemma normalizeSegments_clean_input (b : bool) (segs res : list string) :
  clean segs ->
  Path.normalizeSegments b res segs = (List.rev res ++ segs)%list.
Proof.
  revert res. induction segs as [|s segs IH]; intros res Hc; simpl.
  - now rewrite app_nil_r.
  - inversion Hc as [|? ? Hs Hc']; subst.
    destruct (cleanSegment_inv s Hs) as (He & _ & Hd & Hdd).
    rewrite He, Hd, Hdd. simpl. rewrite IH by exact Hc'.
    simpl. now rewrite <- app_assoc.
Qed.

Lemma split_noSlash (s : string) :
  Forall (fun x => noSlash x = true) (split "/" s).
Proof.
  induction s as [|a r IH]; simpl; [now repeat constructor|].
  destruct (Ascii.eqb a "/") eqn:Ha.
  - constructor; [reflexivity | exact IH].
  - destruct (split "/" r) as [|seg rest].
    + constructor; [|constructor].
      unfold noSlash. simpl. unfold Path.isSlash. now rewrite Ha.
    + inversion IH as [|? ? Hseg Hrest]; subst.
      constructor; [|exact Hrest].
      unfold noSlash in *. simpl. unfold Path.isSlash at 1. now rewrite Ha.
Qed.

Lemma normalizeSegments_clean_output (segs res : list string) :
  Forall (fun x => noSlash x = true) segs ->
  clean res ->
  clean (Path.normalizeSegments false res segs).
Proof.
  revert res. induction segs as [|s segs IH]; intros res Hn Hres; simpl.
  - now apply Forall_rev.
  - inversion Hn as [|? ? Hs Hn']; subst.
    destruct (s =? "") eqn:He; [now apply IH|].
    destruct (s =? ".") eqn:Hd; [now apply IH|]. simpl.
    destruct (s =? "..") eqn:Hdd.
    + destruct res as [|top res']; [now apply IH|].
      inversion Hres as [|? ? Htop Hres']; subst.
      destruct (top =? ".."); now apply IH.
    + apply IH; [exact Hn'|]. constructor; [|exact Hres].
      unfold cleanSegment. now rewrite He, Hs, Hd, Hdd.
Qed.

(** With an absolute working directory, [path.resolve] yields the root
    followed by clean segments. *)
Lemma resolve_canonical (cwd p : string) :
  startsWith cwd "/" = true ->
  exists segs, clean segs /\ Path.resolve cwd p = "/" ++ join "/" segs.
Proof.
  intros Hcwd. unfold Path.resolve. rewrite Hcwd, orb_true_r. simpl negb.
  unfold Path.normalizeString.
  eexists. split; [|reflexivity].
  apply normalizeSegments_clean_output; [apply split_noSlash | constructor].
Qed.

Lemma join_clean_nonempty (segs : list string) :
  clean segs -> segs <> [] -> (join "/" segs =? "") = false.
Proof.
  intros Hc Hne. destruct segs as [|s segs]; [congruence|].
  inversion Hc as [|? ? Hs _]; subst.
  destruct (cleanSegment_inv s Hs) as (He & _).
  apply String.eqb_neq in He. apply String.eqb_neq.
  unfold join. destruct segs as [|s' segs]; simpl; [exact He|].
  destruct s; [congruence | discriminate].
Qed.

Lemma split_join_slash (l : list string) :
  clean l -> l <> [] ->
  split "/" (join "/" l ++ "/") = (l ++ [""])%list.
Proof.
  unfold join. induction l as [|x l IH]; intros Hc Hne; [congruence|].
  inversion Hc as [|? ? Hx Hc']; subst.
  destruct (cleanSegment_inv x Hx) as (_ & Hn & _).
  destruct l as [|y l].
  - simpl String.concat. now rewrite split_append.
  - change (String.concat "/" (x :: y :: l))
      with (x ++ String "/" (String.concat "/" (y :: l))).
    rewrite append_assoc.
    change (String "/" (String.concat "/" (y :: l)) ++ "/")
      with (String "/" (String.concat "/" (y :: l) ++ "/")).
    rewrite split_append by exact Hn. simpl app. f_equal.
    apply IH; [exact Hc' | discriminate].
Qed.

Lemma normalizeSegments_clean_then_empty (l res : list string) :
  clean l ->
  Path.normalizeSegments false res (l ++ [""])%list = (List.rev res ++ l)%list.
Proof.
  revert res. induction l as [|x l IH]; intros res Hc.
  - simpl. now rewrite app_nil_r.
  - inversion Hc as [|? ? Hx Hc']; subst.
    destruct (cleanSegment_inv x Hx) as (He & _ & Hd & Hdd).
    simpl. rewrite He, Hd, Hdd. simpl. rewrite IH by exact Hc'.
    simpl. now rewrite <- app_assoc.
Qed.

Lemma split_canonical_slash (segs : list string) :
  clean segs ->
  Path.normalizeSegments false [] (split "/" ("/" ++ join "/" segs ++ "/")) = segs.
Proof.
  intros Hc.
  change (split "/" ("/" ++ join "/" segs ++ "/"))
    with ("" :: split "/" (join "/" segs ++ "/")).
  destruct segs as [|s segs]; [reflexivity|].
  rewrite split_join_slash by (try assumption; discriminate).
  change (Path.normalizeSegments false [] ("" :: (s :: segs) ++ [""])%list)
    with (Path.normalizeSegments false [] ((s :: segs) ++ [""])%list).
  now rewrite normalizeSegments_clean_then_empty.
Qed.

(** [path.resolve] leaves a canonical path as it is. *)
Lemma resolve_of_canonical (cwd : string) (segs : list string) :
  clean segs ->
  Path.resolve cwd ("/" ++ join "/" segs) = "/" ++ join "/" segs.
Proof.
  intros Hc. unfold Path.resolve.
  assert (Habs : startsWith ("/" ++ join "/" segs) "/" = true)
    by (unfold startsWith; simpl; apply prefix_empty).
  rewrite Habs.
  change (("/" ++ join "/" segs =? "")%string) with false. cbv iota.
  simpl orb. cbv iota. unfold Path.normalizeString. simpl negb.
  rewrite append_assoc. now rewrite split_canonical_slash.
Qed.

Lemma dropWhile_stops (p : ascii -> bool) (s : string) :
  stopsAt p s -> dropWhile p s = s.
Proof. destruct s as [|c s]; simpl; [reflexivity|]. now intros ->. Qed.

Lemma rev_segment (s : string) (rest : string) :
  (s =? "") = false -> noSlash s = true ->
  stopsAt Path.isSlash (rev s ++ rest) /\ forallChars (fun c => negb (Path.isSlash c)) (rev s) = true.
Proof.
  intros He Hn. split.
  - assert (Hr : forallChars (fun c => negb (Path.isSlash c)) (rev s) = true)
      by (rewrite forallChars_rev; exact Hn).
    destruct s as [|c s]; [discriminate|].
    rewrite rev_cons in *.
    destruct (rev s ++ String c "") as [|x t] eqn:E.
    + destruct (rev s); discriminate.
    + simpl in Hr. apply andb_true_iff in Hr as [Hx _].
      simpl. now apply negb_true_iff.
  - rewrite forallChars_rev. exact Hn.
Qed.

Lemma clean_snoc (init : list string) (last : string) :
  clean (init ++ [last]) -> clean init /\ cleanSegment last = true.
Proof.
  intros H. apply Forall_app in H as [Hi Hl]. split; [exact Hi|].
  now inversion Hl.
Qed.

Lemma join_snoc (init : list string) (last : string) :
  join "/" (init ++ [last])
  = match init with
    | [] => last
    | _ => join "/" init ++ String "/" last
    end.
Proof.
  destruct init as [|s init]; [reflexivity|].
  unfold join. now rewrite concat_snoc.
Qed.

(** The reversed text of a canonical path: the last segment reversed, then
    a slash or nothing. *)
Lemma rev_join_snoc (init : list string) (last : string) :
  exists rest,
    rev (join "/" (init ++ [last])) = rev last ++ rest
    /\ match init with
       | [] => rest = ""
       | _ => rest = String "/" (rev (join "/" init))
       end.
Proof.
  rewrite join_snoc. destruct init as [|s init].
  - exists "". split; [now rewrite append_nil_r | reflexivity].
  - eexists. split; [|reflexivity].
    rewrite rev_append, rev_cons, append_assoc. reflexivity.
Qed.

Lemma rev_empty (s : string) : rev s = "" -> s = "".
Proof.
  destruct s as [|c s]; [reflexivity|]. rewrite rev_cons.
  destruct (rev s); discriminate.
Qed.

Lemma dirname_canonical (init : list string) (last : string) :
  clean (init ++ [last]) ->
  Path.dirname ("/" ++ join "/" (init ++ [last])) = "/" ++ join "/" init.
Proof.
  intros Hc. apply clean_snoc in Hc as [Hi Hl].
  destruct (cleanSegment_inv last Hl) as (He & Hn & _).
  destruct (rev_segment last "" He Hn) as (_ & Hrl).
  change ("/" ++ join "/" (init ++ [last])) with (String "/" (join "/" (init ++ [last]))).
  unfold Path.dirname.
  destruct (rev_join_snoc init last) as (rest & -> & Hrest).
  rewrite (dropWhile_stops Path.isSlash)
    by (apply (proj1 (rev_segment last rest He Hn))).
  destruct init as [|s init].
  - subst rest. rewrite dropWhile_append by (try exact I; exact Hrl). reflexivity.
  - subst rest.
    rewrite dropWhile_append by (try exact Hrl; reflexivity).
    destruct (rev (join "/" (s :: init)) =? "") eqn:E.
    + apply String.eqb_eq, rev_empty in E.
      pose proof (join_clean_nonempty (s :: init) Hi ltac:(discriminate)) as Hne.
      rewrite E in Hne. discriminate.
    + simpl. now rewrite rev_involutive.
Qed.

Lemma basename_canonical (init : list string) (last : string) :
  clean (init ++ [last]) ->
  Path.basename ("/" ++ join "/" (init ++ [last])) = last.
Proof.
  intros Hc. apply clean_snoc in Hc as [Hi Hl].
  destruct (cleanSegment_inv last Hl) as (He & Hn & _).
  destruct (rev_segment last "" He Hn) as (_ & Hrl).
  change ("/" ++ join "/" (init ++ [last])) with (String "/" (join "/" (init ++ [last]))).
  unfold Path.basename. rewrite rev_cons.
  destruct (rev_join_snoc init last) as (rest & -> & Hrest).
  rewrite append_assoc.
  rewrite (dropWhile_stops Path.isSlash)
    by (apply (proj1 (rev_segment last _ He Hn))).
  rewrite takeWhile_append; [apply rev_involutive | exact Hrl |].
  destruct init; subst rest; reflexivity.
Qed.

Lemma prefix_cons (a b : ascii) (s t : string) :
  String.prefix (String a s) (String b t)
  = if ascii_dec a b then String.prefix s t else false.
Proof. reflexivity. Qed.

Lemma startsWith_slash_stops (s : string) :
  (s =? "") = false -> stopsAt Path.isSlash s -> startsWith s "/" = false.
Proof.
  destruct s as [|c s]; [discriminate|]. intros _ Hc. simpl in Hc.
  unfold startsWith. rewrite prefix_cons.
  destruct (ascii_dec "/" c) as [<-|]; [discriminate | reflexivity].
Qed.

Lemma join2_canonical (init : list string) (last : string) :
  clean (init ++ [last]) ->
  Path.join2 ("/" ++ join "/" init) last = "/" ++ join "/" (init ++ [last]).
Proof.
  intros Hc. pose proof Hc as Hall. apply clean_snoc in Hc as [Hi Hl].
  destruct (cleanSegment_inv last Hl) as (He & Hn & Hd & Hdd).
  unfold Path.join2.
  change ("/" ++ join "/" init =? "") with false. rewrite He. cbv iota.
  change ((("/" ++ join "/" init) ++ "/" ++ last =? "")) with false. cbv iota.
  unfold Path.normalize.
  change ((("/" ++ join "/" init) ++ "/" ++ last =? "")) with false. cbv iota.
  assert (Habs : startsWith (("/" ++ join "/" init) ++ "/" ++ last) "/" = true)
    by (unfold startsWith; simpl; apply prefix_empty).
  rewrite Habs. simpl negb.
  assert (Htrail : startsWith (rev (("/" ++ join "/" init) ++ "/" ++ last)) "/" = false).
  { rewrite rev_append, rev_append.
    rewrite append_assoc.
    apply startsWith_slash_stops; [|apply (proj1 (rev_segment last _ He Hn))].
    apply String.eqb_neq. intros E.
    destruct last as [|c l]; [discriminate|]. rewrite rev_cons in E.
    destruct (rev l); discriminate. }
  rewrite Htrail.
  assert (Hq : Path.normalizeString (("/" ++ join "/" init) ++ "/" ++ last) false
               = join "/" (init ++ [last])).
  { unfold Path.normalizeString. f_equal.
    change (("/" ++ join "/" init) ++ "/" ++ last)
      with (String "/" (join "/" init ++ String "/" last)).
    change (split "/" (String "/" (join "/" init ++ String "/" last)))
      with ("" :: split "/" (join "/" init ++ String "/" last)).
    change (Path.normalizeSegments false [] ("" :: split "/" (join "/" init ++ String "/" last)))
      with (Path.normalizeSegments false [] (split "/" (join "/" init ++ String "/" last))).
    destruct init as [|s init].
    - change (join "/" [] ++ String "/" last) with (String "/" last).
      change (split "/" (String "/" last)) with ("" :: split "/" last).
      rewrite (split_without_separator "/" last) by exact Hn.
      simpl. now rewrite He, Hd, Hdd.
    - rewrite <- (join_snoc (s :: init) last).
      rewrite split_join by (try assumption; destruct init; discriminate).
      now rewrite normalizeSegments_clean_input. }
  rewrite Hq.
  rewrite join_clean_nonempty by (try assumption; destruct init; discriminate).
  reflexivity.
Qed.

Lemma prefix_toLowerCase (a b : string) :
  String.prefix a b = true ->
  String.prefix (toLowerCase a) (toLowerCase b) = true.
Proof.
  revert b. induction a as [|x a IH]; intros b H; [apply prefix_empty|].
  destruct b as [|y b]; [discriminate|].
  simpl in H. destruct (ascii_dec x y) as [->|]; [|discriminate].
  simpl. destruct (ascii_dec (lowerChar y) (lowerChar y)) as [_|ne]; [auto | now elim ne].
Qed.

Lemma dirname_prefix (init : list string) (last : string) :
  String.prefix ("/" ++ join "/" init) ("/" ++ join "/" (init ++ [last])) = true.
Proof.
  rewrite join_snoc. destruct init as [|s init].
  - apply (prefix_app "/" last).
  - rewrite <- append_assoc. apply prefix_app.
Qed.

Lemma list_snoc_cases {A : Type} (l : list A) :
  l = [] \/ exists init last, l = (init ++ [last])%list.
Proof.
  destruct l as [|x l]; [now left|]. right.
  destruct (@exists_last A (x :: l)) as (init & last & E); [discriminate|].
  now exists init, last.
Qed.

(** The directory of a validated path is itself a validated path, and the
    path is the directory joined with its base name. *)
Lemma containing_directory_valid (h : Host) (p : string) (rs : list string)
      (f : string) :
  startsWith (cwd h) "/" = true ->
  validatePath h p rs = Return f ->
  validatePath h (Path.dirname f) rs = Return (Path.dirname f)
  /\ Path.join2 (Path.dirname f) (Path.basename f) = f.
Proof.
  intros Hcwd Hv. apply validatePath_Return in Hv as [Hf Hpol].
  destruct (resolve_canonical (cwd h) p Hcwd) as (segs & Hc & Hres).
  rewrite <- Hf in Hres. clear Hf. subst f.
  destruct (list_snoc_cases segs) as [->|(init & last & ->)].
  - split; [|reflexivity].
    apply validatePath_Return. split; [|exact Hpol].
    symmetry. apply (resolve_of_canonical (cwd h) []). constructor.
  - rewrite dirname_canonical, basename_canonical, join2_canonical by exact Hc.
    split; [|reflexivity].
    apply validatePath_Return. split.
    + symmetry. apply resolve_of_canonical. now apply clean_snoc in Hc.
    + intros r Hr. specialize (Hpol r Hr).
      destruct (startsWith (toLowerCase ("/" ++ join "/" init)) (toLowerCase r)) eqn:E;
        [|reflexivity].
      unfold startsWith in *.
      rewrite (prefix_trans _ _ _ E (prefix_toLowerCase _ _ (dirname_prefix init last)))
        in Hpol.
      discriminate.
Qed.

(** ** list_directory and get_file_info *)

(** When every entry that is not skipped can be stat-ed, the loop of
    list_directory returns an item for each of them. *)
Lemma listItems_succeeds (h : Host) (include_hidden : bool) (dir : string)
      (entries : list Dirent) :
  (forall e, In e entries ->
             negb include_hidden && startsWith (d_name e) "." = false ->
             exists s, fs_stat h (Path.join2 dir (d_name e)) = Return s) ->
  forall items,
  exists items',
    listItems h include_hidden dir entries items = Return items'
    /\ (forall it, In it items -> In it items')
    /\ (forall e s, In e entries ->
                    negb include_hidden && startsWith (d_name e) "." = false ->
                    fs_stat h (Path.join2 dir (d_name e)) = Return s ->
                    In (listItem h dir e s) items').
Proof.
  induction entries as [|entry rest IH]; intros Hstat items.
  - exists items. repeat split; [auto | intros e s []].
  - assert (Hrest : forall e, In e rest ->
                      negb include_hidden && startsWith (d_name e) "." = false ->
                      exists s, fs_stat h (Path.join2 dir (d_name e)) = Return s)
      by (intros e He; apply Hstat; now right).
    specialize (IH Hrest). simpl.
    destruct (negb include_hidden && startsWith (d_name entry) ".") eqn:Hskip.
    + destruct (IH items) as (items' & Hrun & Hold & Hnew).
      exists items'. repeat split; [exact Hrun | exact Hold |].
      intros e s [<-|He] Hvis Hs; [congruence | eauto].
    + destruct (Hstat entry (or_introl eq_refl) Hskip) as (s0 & Hs0).
      rewrite Hs0. simpl.
      destruct (IH (items ++ [listItem h dir entry s0])%list)
        as (items' & Hrun & Hold & Hnew).
      exists items'. repeat split; [exact Hrun | |].
      * intros it Hit. apply Hold, in_or_app. now left.
      * intros e s [<-|He] Hvis Hs; [|eauto].
        rewrite Hs0 in Hs. injection Hs as <-.
        apply Hold, in_or_app. right. now left.
Qed.

(** C7.  A file whose path passes path validation and whose extension is
    not in the allowlist: read_file fails with the file-type error, while
    get_file_info on the file and list_directory on its containing
    directory succeed and report its metadata.  The extension policy plays
    no part in get_file_info, list_directory and search_files. *)
Theorem C7_extension_gate_only_on_read :
  forall (h : Host) (config : Config) (p encoding f : string)
         (stats dirStats : Stats) (entries : list Dirent) (include_hidden : bool),
    let dir := Path.dirname f in
    let name := Path.basename f in
    let ext := toLowerCase (Path.extname f) in
    startsWith (cwd h) "/" = true ->
    validatePath h p (restrictedPaths config) = Return f ->
    includes (allowedExtensions config) ext = false ->
    fs_stat h f = Return stats ->
    isFile stats = true ->
    fs_stat h dir = Return dirStats ->
    isDirectory dirStats = true ->
    fs_readdir h dir = Return entries ->
    In (mkDirent name RegularFile) entries ->
    (forall e, In e entries ->
               negb include_hidden && startsWith (d_name e) "." = false ->
               exists s, fs_stat h (Path.join2 dir (d_name e)) = Return s) ->
    negb include_hidden && startsWith name "." = false ->
    read_file h config p encoding
    = Failure (typeNotAllowed ext (allowedExtensions config))
    /\ get_file_info h config p
       = Success (mkFileInfo f name dir ext "file"
                    (st_size stats) (st_birthtime stats) (st_mtime stats)
                    (st_atime stats) (Some (mimeOrUnknown h f)) true false
                    (additionalInfo ext))
    /\ (exists data,
           list_directory h config dir include_hidden = Success data
           /\ ld_path data = dir
           /\ In (mkListItem name f "file" (st_size stats) (st_mtime stats)
                    (Some (Path.extname name)) (Some (mimeOrUnknown h name)))
                 (ld_items data))
    /\ (forall allowed images dotnet binaries q pattern recursive hidden,
           get_file_info h (withExtensionPolicy config allowed images dotnet binaries) q
           = get_file_info h config q
           /\ list_directory h (withExtensionPolicy config allowed images dotnet binaries)
                             q hidden
              = list_directory h config q hidden
           /\ search_files h (withExtensionPolicy config allowed images dotnet binaries)
                           q pattern recursive
              = search_files h config q pattern recursive).
Proof.
  intros h config p encoding f stats dirStats entries include_hidden dir name ext
         Hcwd Hf Hext Hstat Hfile Hdstat Hisdir Hread Hin Hall Hvis.
  destruct (containing_directory_valid h p _ f Hcwd Hf) as [Hdir Hjoin].
  fold dir in Hdir, Hjoin. fold name in Hjoin.
  repeat split.
  - unfold read_file, readFileBody, bind. rewrite Hf.
    unfold validateExtension. fold ext. now rewrite Hext.
  - unfold get_file_info, getFileInfoBody, bind. rewrite Hf, Hstat, Hfile. reflexivity.
  - destruct (listItems_succeeds h include_hidden dir entries Hall [])
      as (items & Hrun & _ & Hnew).
    exists (mkListData dir items (List.length items)). repeat split.
    + unfold list_directory, listDirectoryBody, bind.
      rewrite Hdir, Hdstat, Hisdir, Hread, Hrun. reflexivity.
    + assert (Hs : fs_stat h (Path.join2 dir (d_name (mkDirent name RegularFile)))
                   = Return stats) by (simpl; now rewrite Hjoin).
      pose proof (Hnew (mkDirent name RegularFile) stats Hin Hvis Hs) as Hitem.
      unfold listItem in Hitem. simpl in Hitem. now rewrite Hjoin in Hitem.
Qed.

Lemma C7_notes_witness :
  includes (allowedExtensions Fixtures.dataConfig) ".xyz" = false
  /\ read_file Fixtures.dataHost Fixtures.dataConfig "/data/sub/../notes.xyz" "utf8"
     = Failure "File type not allowed: .xyz. Allowed types: .txt, .json, .png"
  /\ (exists info,
         get_file_info Fixtures.dataHost Fixtures.dataConfig "/data/sub/../notes.xyz"
         = Success info
         /\ fi_path info = "/data/notes.xyz" /\ fi_size info = 3%N)
  /\ (exists data,
         list_directory Fixtures.dataHost Fixtures.dataConfig "/data" false = Success data
         /\ In (mkListItem "notes.xyz" "/data/notes.xyz" "file" 3 2000
                           (Some ".xyz") (Some "unknown"))
               (ld_items data)).
Proof.
  split; [reflexivity|].
  destruct (C7_extension_gate_only_on_read
              Fixtures.dataHost Fixtures.dataConfig "/data/sub/../notes.xyz" "utf8"
              "/data/notes.xyz"
              (TableHost.fileStats 3) TableHost.dirStats
              [mkDirent "a.json" RegularFile; mkDirent "b.png" RegularFile;
               mkDirent "c.txt" RegularFile; mkDirent "notes.xyz" RegularFile;
               mkDirent ".env" RegularFile; mkDirent "big.txt" RegularFile;
               mkDirent "edge.txt" RegularFile]
              false)
    as (Hread & Hinfo & (data & Hlist & _ & Hitem) & _); try reflexivity.
  - simpl. auto 10.
  - intros e [<-|[<-|[<-|[<-|[<-|[<-|[<-|[]]]]]]]] Hv;
      try discriminate Hv; eexists; reflexivity.
  - split; [exact Hread|]. split.
    + eexists. split; [exact Hinfo | split; reflexivity].
    + exists data. split; [exact Hlist | exact Hitem].
Defined.

(** * Further properties of the code *)

(** ** Spelling of the requested path *)

Lemma lowerChar_idempotent (c : ascii) : lowerChar (lowerChar c) = lowerChar c.
Proof. destruct c as [[] [] [] [] [] [] [] []]; reflexivity. Qed.

Lemma toLowerCase_idempotent (s : string) : toLowerCase (toLowerCase s) = toLowerCase s.
Proof.
  induction s as [|c s IH]; simpl; [reflexivity|].
  now rewrite lowerChar_idempotent, IH.
Qed.

Lemma lower_append (a b : string) :
  toLowerCase (a ++ b) = toLowerCase a ++ toLowerCase b.
Proof. induction a as [|x a IH]; simpl; [reflexivity | now rewrite IH]. Qed.

Lemma validated_path_is_resolved (h : Host) (p : string) (rs : list string)
      (v : string) :
  startsWith (cwd h) "/" = true ->
  validatePath h p rs = Return v ->
  Path.resolve (cwd h) v = v.
Proof.
  intros Hcwd Hv.
  apply validatePath_Return in Hv as [Hres _].
  destruct (resolve_canonical (cwd h) p Hcwd) as (segs & Hc & Hcan).
  rewrite <- Hres in Hcan. rewrite Hcan. now apply resolve_of_canonical.
Qed.

(** X1.  A path that passed validation passes it again, unchanged: the [path]
    field of an answer can be handed back to any tool. *)
Theorem validatePath_idempotent :
  forall (h : Host) (p : string) (rs : list string) (v : string),
    startsWith (cwd h) "/" = true ->
    validatePath h p rs = Return v ->
    validatePath h v rs = Return v.
Proof.
  intros h p rs v Hcwd Hv.
  apply validatePath_Return. split.
  - symmetry. exact (validated_path_is_resolved h p rs v Hcwd Hv).
  - exact (proj2 (proj1 (validatePath_Return h p rs v) Hv)).
Qed.

Lemma validatePath_idempotent_witness :
  validatePath Fixtures.dataHost "docs/../x/./y.txt" ["/system"] = Return "/home/u/x/y.txt"
  /\ validatePath Fixtures.dataHost "/home/u/x/y.txt" ["/system"] = Return "/home/u/x/y.txt".
Proof.
  split; [reflexivity|].
  apply (validatePath_idempotent Fixtures.dataHost "docs/../x/./y.txt"); reflexivity.
Defined.

Lemma split_not_nil (c : ascii) (s : string) : split c s <> [].
Proof.
  destruct s as [|a s]; simpl; [discriminate|].
  destruct (Ascii.eqb a c); [discriminate|].
  destruct (split c s); discriminate.
Qed.

Lemma split_snoc_separator (c : ascii) (s : string) :
  split c (s ++ String c "") = (split c s ++ [""])%list.
Proof.
  induction s as [|a s IH]; simpl.
  - now rewrite Ascii.eqb_refl.
  - rewrite IH. destruct (Ascii.eqb a c); [reflexivity|].
    pose proof (split_not_nil c s) as Hne.
    destruct (split c s); [congruence | reflexivity].
Qed.

Lemma normalizeSegments_snoc_empty (b : bool) (segs res : list string) :
  Path.normalizeSegments b res (segs ++ [""])%list = Path.normalizeSegments b res segs.
Proof.
  revert res. induction segs as [|s segs IH]; intros res; [reflexivity|].
  simpl.
  destruct ((s =? "") || (s =? "."))%bool; [apply IH|].
  destruct (s =? ".."); [|apply IH].
  destruct res as [|top res']; [apply IH|].
  destruct (top =? ".."); apply IH.
Qed.

Lemma normalizeString_trailing (x : string) (b : bool) :
  Path.normalizeString (x ++ "/") b = Path.normalizeString x b.
Proof.
  unfold Path.normalizeString.
  now rewrite split_snoc_separator, normalizeSegments_snoc_empty.
Qed.

Lemma resolve_trailing_separator (cwd p : string) :
  p <> "" -> Path.resolve cwd (p ++ "/") = Path.resolve cwd p.
Proof.
  intros Hp. destruct p as [|c p]; [congruence|].
  unfold Path.resolve.
  change ((String c p ++ "/" =? "")%string) with false.
  change ((String c p =? "")%string) with false. cbv iota.
  assert (Habs : startsWith (String c p ++ "/") "/" = startsWith (String c p) "/").
  { unfold startsWith. change (String c p ++ "/") with (String c (p ++ "/")).
    rewrite !prefix_cons. destruct (ascii_dec "/" c); [|reflexivity].
    now rewrite !prefix_empty. }
  rewrite Habs.
  destruct (startsWith (String c p) "/"); simpl orb; cbv iota.
  - now rewrite normalizeString_trailing.
  - destruct (cwd =? "").
    + now rewrite normalizeString_trailing.
    + rewrite <- !append_assoc, normalizeString_trailing. reflexivity.
Qed.

(** X2.  A trailing separator on a non-empty path changes nothing; the empty
    path is the working directory, while "/" is the root. *)
Theorem validatePath_trailing_separator :
  forall (h : Host) (p : string) (rs : list string),
    p <> "" ->
    validatePath h (p ++ "/") rs = validatePath h p rs.
Proof.
  intros h p rs Hp. unfold validatePath. now rewrite resolve_trailing_separator.
Qed.

Lemma validatePath_trailing_separator_witness :
  validatePath Fixtures.linkHost "/system/" ["/system"]
  = validatePath Fixtures.linkHost "/system" ["/system"]
  /\ validatePath Fixtures.linkHost "/system" ["/system"] = Throw (accessDenied "/system")
  /\ validatePath Fixtures.linkHost "" [] = Return "/home/u"
  /\ validatePath Fixtures.linkHost "/" [] = Return "/".
Proof.
  split; [|repeat split].
  apply (validatePath_trailing_separator Fixtures.linkHost "/system" ["/system"]).
  discriminate.
Defined.

Lemma lowerChar_slash (c : ascii) : Ascii.eqb (lowerChar c) "/" = Ascii.eqb c "/".
Proof. destruct c as [[] [] [] [] [] [] [] []]; reflexivity. Qed.

Lemma lowerChar_dot (c : ascii) : Ascii.eqb (lowerChar c) "." = Ascii.eqb c ".".
Proof. destruct c as [[] [] [] [] [] [] [] []]; reflexivity. Qed.

Lemma lower_eqb_empty (s : string) : (toLowerCase s =? "") = (s =? "").
Proof. destruct s; reflexivity. Qed.

Lemma lower_eqb_dot (s : string) : (toLowerCase s =? ".") = (s =? ".").
Proof.
  destruct s as [|c s]; [reflexivity|]. simpl.
  now rewrite lowerChar_dot, lower_eqb_empty.
Qed.

Lemma lower_eqb_dotdot (s : string) : (toLowerCase s =? "..") = (s =? "..").
Proof.
  destruct s as [|c s]; [reflexivity|].
  change ((toLowerCase (String c s) =? "..")%string)
    with (Ascii.eqb (lowerChar c) "." && (toLowerCase s =? ".")%string).
  change ((String c s =? "..")%string) with (Ascii.eqb c "." && (s =? ".")%string).
  now rewrite lowerChar_dot, lower_eqb_dot.
Qed.

Lemma split_lower (s : string) :
  split "/" (toLowerCase s) = map toLowerCase (split "/" s).
Proof.
  induction s as [|c s IH]; [reflexivity|].
  simpl. rewrite lowerChar_slash, IH.
  destruct (Ascii.eqb c "/"); [reflexivity|].
  destruct (split "/" s); reflexivity.
Qed.

Lemma normalizeSegments_lower (b : bool) (segs res : list string) :
  Path.normalizeSegments b (map toLowerCase res) (map toLowerCase segs)
  = map toLowerCase (Path.normalizeSegments b res segs).
Proof.
  revert res. induction segs as [|s segs IH]; intros res; simpl.
  - now rewrite map_rev.
  - rewrite lower_eqb_empty, lower_eqb_dot, lower_eqb_dotdot.
    destruct ((s =? "") || (s =? "."))%bool; [apply IH|].
    destruct (s =? "..").
    + destruct res as [|top res']; simpl.
      * destruct b; apply (IH []) || apply (IH [".."]).
      * rewrite lower_eqb_dotdot. destruct (top =? ".."); [|apply IH].
        destruct b; [apply (IH (".." :: top :: res')) | apply (IH (top :: res'))].
    + apply (IH (s :: res)).
Qed.

Lemma join_lower (l : list string) :
  join "/" (map toLowerCase l) = toLowerCase (join "/" l).
Proof.
  unfold join. induction l as [|s l IH]; [reflexivity|].
  destruct l as [|s' l]; [reflexivity|].
  change (String.concat "/" (map toLowerCase (s :: s' :: l)))
    with (toLowerCase s ++ "/" ++ String.concat "/" (map toLowerCase (s' :: l))).
  rewrite IH.
  change (String.concat "/" (s :: s' :: l))
    with (s ++ "/" ++ String.concat "/" (s' :: l)).
  now rewrite !lower_append.
Qed.

Lemma normalizeString_lower (x : string) (b : bool) :
  Path.normalizeString (toLowerCase x) b = toLowerCase (Path.normalizeString x b).
Proof.
  unfold Path.normalizeString.
  rewrite split_lower, <- join_lower.
  f_equal. apply (normalizeSegments_lower b _ []).
Qed.

Lemma startsWith_slash_lower (p : string) :
  startsWith (toLowerCase p) "/" = startsWith p "/".
Proof.
  destruct p as [|c p]; [reflexivity|].
  unfold startsWith. simpl toLowerCase. rewrite !prefix_cons, !prefix_empty.
  pose proof (lowerChar_slash c) as H.
  destruct (ascii_dec "/" (lowerChar c)) as [E|E], (ascii_dec "/" c) as [F|F];
    try reflexivity.
  - rewrite <- E, Ascii.eqb_refl in H. symmetry in H.
    apply Ascii.eqb_eq in H. congruence.
  - rewrite <- F in H at 2. rewrite Ascii.eqb_refl in H.
    apply Ascii.eqb_eq in H. congruence.
Qed.

(** [path.resolve] commutes with lower-casing. *)
Lemma resolve_lower (cwd p : string) :
  Path.resolve (toLowerCase cwd) (toLowerCase p) = toLowerCase (Path.resolve cwd p).
Proof.
  unfold Path.resolve.
  rewrite !startsWith_slash_lower, !lower_eqb_empty.
  assert (Hrp : (if (p =? "") then "" else toLowerCase p ++ "/")
                = toLowerCase (if (p =? "") then "" else p ++ "/"))
    by (destruct (p =? ""); [reflexivity | now rewrite lower_append]).
  rewrite Hrp.
  set (rp := if (p =? "") then "" else p ++ "/").
  assert (Hfull : (if startsWith p "/" then toLowerCase rp
                   else if (cwd =? "") then toLowerCase rp
                        else toLowerCase cwd ++ "/" ++ toLowerCase rp)
                  = toLowerCase (if startsWith p "/" then rp
                                 else if (cwd =? "") then rp else cwd ++ "/" ++ rp)).
  { destruct (startsWith p "/"); [reflexivity|].
    destruct (cwd =? ""); [reflexivity|]. now rewrite !lower_append. }
  rewrite Hfull, normalizeString_lower, lower_eqb_empty.
  destruct (startsWith p "/" || startsWith cwd "/")%bool; [reflexivity|].
  destruct (Path.normalizeString _ _ =? ""); reflexivity.
Qed.

Lemma resolve_absolute (cwd cwd' p : string) :
  startsWith p "/" = true -> Path.resolve cwd p = Path.resolve cwd' p.
Proof. intros H. unfold Path.resolve. now rewrite H. Qed.

Lemma checkRestricted_lower (v : string) (rs : list string) :
  checkRestricted (toLowerCase v) rs = checkRestricted v rs.
Proof.
  induction rs as [|r rs IH]; simpl; [reflexivity|].
  now rewrite toLowerCase_idempotent, IH.
Qed.

Lemma validatePath_lower (h : Host) (p : string) (rs : list string) :
  startsWith p "/" = true ->
  validatePath h (toLowerCase p) rs
  = match validatePath h p rs with
    | Return v => Return (toLowerCase v)
    | Throw m => Throw m
    end.
Proof.
  intros Habs. unfold validatePath, bind.
  assert (Hl : startsWith (toLowerCase p) "/" = true)
    by now rewrite startsWith_slash_lower.
  rewrite (resolve_absolute (cwd h) (toLowerCase (cwd h)) _ Hl), resolve_lower.
  rewrite checkRestricted_lower.
  now destruct (checkRestricted (Path.resolve (cwd h) p) rs).
Qed.

(** X3.  Two absolute spellings of a path that differ only in the case of
    their letters are denied together, with the same message. *)
Theorem validatePath_case_variants :
  forall (h : Host) (p p' : string) (rs : list string) (m : string),
    startsWith p "/" = true ->
    startsWith p' "/" = true ->
    toLowerCase p = toLowerCase p' ->
    validatePath h p rs = Throw m ->
    validatePath h p' rs = Throw m.
Proof.
  intros h p p' rs m Hp Hp' Heq Hv.
  pose proof (validatePath_lower h p rs Hp) as H1.
  pose proof (validatePath_lower h p' rs Hp') as H2.
  rewrite Heq, H2, Hv in H1.
  now destruct (validatePath h p' rs).
Qed.

Lemma validatePath_case_variants_witness :
  validatePath Fixtures.linkHost "/system/x.txt" ["/System"] = Throw (accessDenied "/System")
  /\ validatePath Fixtures.linkHost "/SYSTEM/../SyStEm/X.TXT" ["/System"]
     = Throw (accessDenied "/System")
  /\ validatePath Fixtures.linkHost "/SYSTEM/x.Txt" ["/System"] = Throw (accessDenied "/System").
Proof.
  split; [reflexivity|]. split; [reflexivity|].
  apply (validatePath_case_variants Fixtures.linkHost "/system/x.txt" "/SYSTEM/x.Txt");
    reflexivity.
Defined.

(** ** Order of the checks of read_file *)

(** X6.  A request for a file type that is not allowed is answered without a
    look at the file system: the answer is the same on every host with the
    same working directory, whether the file exists or not. *)
Theorem read_file_type_rejected_before_file_system :
  forall (h h' : Host) (config : Config) (p encoding m : string),
    cwd h' = cwd h ->
    validateExtension (Path.resolve (cwd h) p) (allowedExtensions config) config
    = Throw m ->
    read_file h' config p encoding = read_file h config p encoding
    /\ exists m', read_file h config p encoding = Failure m'.
Proof.
  intros h h' config p encoding m Hcwd Hext.
  unfold read_file, readFileBody, validatePath, bind. rewrite Hcwd.
  destruct (checkRestricted (Path.resolve (cwd h) p) (restrictedPaths config)) as [[]|m0].
  - rewrite Hext. split; [reflexivity | now exists m].
  - split; [reflexivity | now exists m0].
Qed.

Lemma read_file_type_rejected_witness :
  fs_stat Fixtures.dataHost "/data/notes.xyz" = Return (TableHost.fileStats 3)
  /\ fs_stat Fixtures.linkHost "/data/notes.xyz"
     = Throw "ENOENT: no such file or directory, stat '/data/notes.xyz'"
  /\ read_file Fixtures.linkHost Fixtures.dataConfig "/data/notes.xyz" "utf8"
     = read_file Fixtures.dataHost Fixtures.dataConfig "/data/notes.xyz" "utf8".
Proof.
  split; [reflexivity|]. split; [reflexivity|].
  apply (read_file_type_rejected_before_file_system
           Fixtures.dataHost Fixtures.linkHost Fixtures.dataConfig "/data/notes.xyz" "utf8"
           (typeNotAllowed ".xyz" [".txt"; ".json"; ".png"]));
    reflexivity.
Defined.

(** ** The allowlist *)

Lemma includes_In (xs : list string) (x : string) :
  includes xs x = true <-> In x xs.
Proof.
  unfold includes. rewrite existsb_exists. split.
  - intros (y & Hy & E). apply String.eqb_eq in E. now subst.
  - intros H. exists x. split; [exact H | apply String.eqb_refl].
Qed.

Lemma validateExtension_allowlisted (p : string) (allowed : list string)
      (config : Config) (b : bool) :
  validateExtension p allowed config = Return b ->
  In (toLowerCase (Path.extname p)) allowed.
Proof.
  unfold validateExtension. intros H.
  destruct (includes allowed (toLowerCase (Path.extname p))) eqn:E; [|discriminate].
  now apply includes_In.
Qed.

(** X7.  The extension of the path is lower-cased before the lookup and the
    entries of the allowlist are not: when no entry is in lower case, no
    file can be read. *)
Theorem read_file_upper_case_allowlist_admits_nothing :
  forall (h : Host) (config : Config) (p encoding : string),
    (forall e, In e (allowedExtensions config) -> toLowerCase e <> e) ->
    exists m, read_file h config p encoding = Failure m.
Proof.
  intros h config p encoding Hup.
  unfold read_file, readFileBody, bind.
  destruct (validatePath h p (restrictedPaths config)) as [v|m]; [|now exists m].
  destruct (validateExtension v (allowedExtensions config) config) as [b|m] eqn:E;
    [|now exists m].
  apply validateExtension_allowlisted in E.
  exfalso. apply (Hup _ E). apply toLowerCase_idempotent.
Qed.

Lemma read_file_upper_case_allowlist_witness :
  allowedExtensions (getConfig (mkPluginConfig ".TXT, .Json" "" 10 true true true))
  = [".TXT"; ".Json"]
  /\ fs_readFile Fixtures.dataHost "/data/c.txt" "utf8" = Return "hello"
  /\ exists m,
       read_file Fixtures.dataHost
                 (getConfig (mkPluginConfig ".TXT, .Json" "" 10 true true true))
                 "/data/c.txt" "utf8"
       = Failure m.
Proof.
  split; [reflexivity|]. split; [reflexivity|].
  apply read_file_upper_case_allowlist_admits_nothing.
  intros e [<-|[<-|[]]]; discriminate.
Defined.

(** ** The settings *)

Lemma dropWhile_space_head (s : string) :
  startsWithSpace (dropWhile isWhiteSpace s) = false.
Proof.
  induction s as [|c s IH]; [reflexivity|]. simpl.
  destruct (isWhiteSpace c) eqn:E; [exact IH | simpl; exact E].
Qed.

Lemma dropWhile_append_stop (p : ascii -> bool) (a b : string) (c : ascii) :
  p c = false ->
  dropWhile p (a ++ String c b) = dropWhile p a ++ String c b.
Proof.
  intros Hc. induction a as [|x a IH]; simpl.
  - now rewrite Hc.
  - destruct (p x); [exact IH | reflexivity].
Qed.

Lemma trim_no_space_at_ends (s : string) :
  startsWithSpace (trim s) = false /\ startsWithSpace (rev (trim s)) = false.
Proof.
  unfold trim. split.
  - pose proof (dropWhile_space_head s) as Hh.
    destruct (dropWhile isWhiteSpace s) as [|c r]; [reflexivity|].
    simpl in Hh. rewrite rev_cons, (dropWhile_append_stop _ _ _ _ Hh).
    rewrite rev_append. simpl. exact Hh.
  - rewrite rev_involutive. apply dropWhile_space_head.
Qed.

Lemma parseList_tidy (s : string) :
  forall e, In e (parseList s) -> tidyEntry e = true.
Proof.
  intros e He. unfold parseList in He.
  apply filter_In in He as [Hin Hne].
  apply in_map_iff in Hin as (x & <- & _).
  destruct (trim_no_space_at_ends x) as [H1 H2].
  unfold tidyEntry. now rewrite Hne, H1, H2.
Qed.

Lemma getConfig_entries_tidy (pluginConfig : PluginConfig) :
  (forall e, In e (allowedExtensions (getConfig pluginConfig)) -> tidyEntry e = true)
  /\ (forall e, In e (restrictedPaths (getConfig pluginConfig)) -> tidyEntry e = true).
Proof.
  unfold getConfig. simpl.
  assert (Hd1 : forall e, In e DEFAULT_ALLOWED_EXTENSIONS -> tidyEntry e = true).
  { apply forallb_forall. vm_compute. reflexivity. }
  assert (Hd2 : forall e, In e DEFAULT_RESTRICTED_PATHS -> tidyEntry e = true).
  { apply forallb_forall. vm_compute. reflexivity. }
  pose proof (parseList_tidy (pc_allowedExtensions pluginConfig)) as Ha.
  pose proof (parseList_tidy (pc_restrictedPaths pluginConfig)) as Hr.
  split.
  - destruct (parseList (pc_allowedExtensions pluginConfig)); [exact Hd1 | exact Ha].
  - destruct (parseList (pc_restrictedPaths pluginConfig)); [exact Hd2 | exact Hr].
Qed.

(** X5.  The lists a handler works with: a setting without any entry falls back
    to the defaults, and every entry is non-empty and free of white space
    at both ends; the size limit is the setting in megabytes times 2^20. *)
Theorem getConfig_lists_are_tidy :
  forall pluginConfig : PluginConfig,
    (parseList (pc_allowedExtensions pluginConfig) = [] ->
     allowedExtensions (getConfig pluginConfig) = DEFAULT_ALLOWED_EXTENSIONS)
    /\ (parseList (pc_restrictedPaths pluginConfig) = [] ->
        restrictedPaths (getConfig pluginConfig) = DEFAULT_RESTRICTED_PATHS)
    /\ (forall e, In e (allowedExtensions (getConfig pluginConfig)) -> tidyEntry e = true)
    /\ (forall e, In e (restrictedPaths (getConfig pluginConfig)) -> tidyEntry e = true)
    /\ restrictedPaths (getConfig pluginConfig) <> []
    /\ maxFileSize (getConfig pluginConfig) = (pc_maxFileSize pluginConfig * 1048576)%N.
Proof.
  intros pc. destruct (getConfig_entries_tidy pc) as [Ha Hr].
  split; [|split; [|split; [exact Ha|split; [exact Hr|split]]]].
  - unfold getConfig. simpl. now intros ->.
  - unfold getConfig. simpl. now intros ->.
  - unfold getConfig. simpl.
    destruct (parseList (pc_restrictedPaths pc)); discriminate.
  - unfold getConfig. simpl. lia.
Qed.

Lemma getConfig_lists_witness :
  parseList " , ,, " = []
  /\ allowedExtensions (getConfig (mkPluginConfig " , ,, " " /srv , /opt/x " 3 true true true))
     = DEFAULT_ALLOWED_EXTENSIONS
  /\ restrictedPaths (getConfig (mkPluginConfig " , ,, " " /srv , /opt/x " 3 true true true))
     = ["/srv"; "/opt/x"]
  /\ maxFileSize (getConfig (mkPluginConfig " , ,, " " /srv , /opt/x " 3 true true true))
     = 3145728%N.
Proof.
  split; [reflexivity|]. split.
  - apply (getConfig_lists_are_tidy
             (mkPluginConfig " , ,, " " /srv , /opt/x " 3 true true true)).
    reflexivity.
  - split; reflexivity.
Defined.

(** X8.  Under any settings, a path without extension (a dot file such as .env
    included) cannot be read: no setting puts the empty extension on the
    allowlist. *)
Theorem read_file_without_extension_never_allowed :
  forall (h : Host) (pluginConfig : PluginConfig) (p encoding : string),
    Path.extname (Path.resolve (cwd h) p) = "" ->
    exists m, read_file h (getConfig pluginConfig) p encoding = Failure m.
Proof.
  intros h pc p encoding Hext.
  unfold read_file, readFileBody, bind.
  destruct (validatePath h p (restrictedPaths (getConfig pc))) as [v|m] eqn:Hv;
    [|now exists m].
  apply validatePath_Return in Hv as [-> _].
  destruct (validateExtension _ (allowedExtensions (getConfig pc)) (getConfig pc))
    as [b|m] eqn:E; [|now exists m].
  apply validateExtension_allowlisted in E. rewrite Hext in E. simpl in E.
  apply (proj1 (getConfig_entries_tidy pc)) in E. discriminate E.
Qed.

Lemma read_file_without_extension_witness :
  Path.extname "/data/.env" = ""
  /\ fs_readFile Fixtures.dataHost "/data/.env" "utf8" = Return "K=V;"
  /\ exists m,
       read_file Fixtures.dataHost
                 (getConfig (mkPluginConfig ".env,.txt," "" 10 true true true))
                 "/data/.env" "utf8"
       = Failure m.
Proof.
  split; [reflexivity|]. split; [reflexivity|].
  apply read_file_without_extension_never_allowed. reflexivity.
Defined.

(** ** list_directory *)

Lemma listItems_Return (h : Host) (include_hidden : bool) (v : string)
      (entries : list Dirent) :
  forall items items',
    listItems h include_hidden v entries items = Return items' ->
    map li_name items'
    = (map li_name items ++ map d_name (filter (visible include_hidden) entries))%list
    /\ forall it, In it items' ->
                  In it items
                  \/ exists e s, In e entries /\ visible include_hidden e = true
                                 /\ fs_stat h (Path.join2 v (d_name e)) = Return s
                                 /\ it = listItem h v e s.
Proof.
  induction entries as [|entry rest IH]; intros items items' H; simpl in H.
  - injection H as <-. simpl. rewrite app_nil_r. split; [reflexivity | now left].
  - unfold visible. simpl filter. unfold visible.
    destruct (negb include_hidden && startsWith (d_name entry) ".") eqn:Hskip.
    + apply IH in H as [Hn Hi]. simpl. split; [exact Hn|].
      intros it Hit. destruct (Hi it Hit) as [Ho|(e & s & He & Hv & Hs & ->)];
        [now left|].
      right. exists e, s.
      split; [now right|]. split; [exact Hv|]. split; [exact Hs | reflexivity].
    + destruct (fs_stat h (Path.join2 v (d_name entry))) as [s0|m] eqn:Hs0;
        [|discriminate].
      simpl in H. apply IH in H as [Hn Hi]. simpl. split.
      * rewrite Hn, map_app, <- app_assoc. reflexivity.
      * intros it Hit. destruct (Hi it Hit) as [Ho|(e & s & He & Hv & Hs & ->)].
        -- apply in_app_or in Ho as [Ho|[<-|[]]]; [now left|].
           right. exists entry, s0.
           split; [now left|]. split; [unfold visible; now rewrite Hskip|].
           split; [exact Hs0 | reflexivity].
        -- right. exists e, s.
           split; [now right|]. split; [exact Hv|]. split; [exact Hs | reflexivity].
Qed.

Lemma list_directory_Success_inv (h : Host) (config : Config) (dir_path : string)
      (include_hidden : bool) (data : ListData) :
  list_directory h config dir_path include_hidden = Success data ->
  exists stats entries,
    validatePath h dir_path (restrictedPaths config) = Return (ld_path data)
    /\ fs_stat h (ld_path data) = Return stats
    /\ isDirectory stats = true
    /\ fs_readdir h (ld_path data) = Return entries
    /\ listItems h include_hidden (ld_path data) entries [] = Return (ld_items data)
    /\ ld_count data = List.length (ld_items data).
Proof.
  unfold list_directory, listDirectoryBody, bind. intros H.
  destruct (validatePath h dir_path (restrictedPaths config)) as [v|] eqn:Hv;
    [|discriminate].
  destruct (fs_stat h v) as [stats|] eqn:Hs; [|discriminate].
  destruct (isDirectory stats) eqn:Hd; [|discriminate]. simpl in H.
  destruct (fs_readdir h v) as [entries|] eqn:Hr; [|discriminate].
  destruct (listItems h include_hidden v entries []) as [items|] eqn:Hl; [|discriminate].
  injection H as <-. simpl. exists stats, entries. repeat split; assumption.
Qed.

(** X9.  A successful listing has one item per entry that is not skipped, in
    the order of the directory; each item carries the result of [stat] on
    the entry's path, and without [include_hidden] no item's name starts
    with a dot. *)
Theorem list_directory_items_are_the_visible_entries :
  forall (h : Host) (config : Config) (dir_path : string) (include_hidden : bool)
         (data : ListData),
    list_directory h config dir_path include_hidden = Success data ->
    exists entries,
      fs_readdir h (ld_path data) = Return entries
      /\ map li_name (ld_items data)
         = map d_name (filter (visible include_hidden) entries)
      /\ ld_count data = List.length (filter (visible include_hidden) entries)
      /\ (forall it, In it (ld_items data) ->
                     li_path it = Path.join2 (ld_path data) (li_name it)
                     /\ exists s, fs_stat h (li_path it) = Return s
                                  /\ li_size it = st_size s
                                  /\ li_lastModified it = st_mtime s)
      /\ (include_hidden = false ->
          forall it, In it (ld_items data) -> startsWith (li_name it) "." = false).
Proof.
  intros h config dir_path include_hidden data H.
  destruct (list_directory_Success_inv _ _ _ _ _ H)
    as (stats & entries & _ & _ & _ & Hr & Hl & Hc).
  destruct (listItems_Return _ _ _ _ _ _ Hl) as [Hn Hi].
  exists entries. split; [exact Hr|]. split; [exact Hn|]. split; [|split].
  - rewrite Hc, <- (length_map li_name (ld_items data)), Hn. apply length_map.
  - intros it Hit. destruct (Hi it Hit) as [[]|(e & s & _ & _ & Hs & ->)].
    simpl. split; [reflexivity|]. exists s. now repeat split.
  - intros -> it Hit. destruct (Hi it Hit) as [[]|(e & s & _ & Hv & _ & ->)].
    simpl. unfold visible in Hv. simpl in Hv. now apply negb_true_iff in Hv.
Qed.

Lemma list_directory_items_witness :
  exists data,
    list_directory MoreFixtures.srvHost MoreFixtures.srvConfig "/srv/" false = Success data
    /\ map li_name (ld_items data) = ["pub.txt"; "private"]
    /\ ld_count data = 2.
Proof.
  eexists. split; [reflexivity|].
  destruct (list_directory_items_are_the_visible_entries
              MoreFixtures.srvHost MoreFixtures.srvConfig "/srv/" false _ eq_refl)
    as (entries & Hr & Hn & Hc & _).
  injection Hr as <-. split; [exact Hn | exact Hc].
Defined.

Lemma listItems_Throw (h : Host) (include_hidden : bool) (v : string)
      (entries : list Dirent) (e : Dirent) (m : string) :
  In e entries ->
  visible include_hidden e = true ->
  fs_stat h (Path.join2 v (d_name e)) = Throw m ->
  forall items, exists m', listItems h include_hidden v entries items = Throw m'.
Proof.
  intros Hin Hv Hs. induction entries as [|entry rest IH]; intros items; [contradiction|].
  simpl. destruct Hin as [->|Hin].
  - unfold visible in Hv. apply negb_true_iff in Hv. rewrite Hv, Hs. now exists m.
  - destruct (negb include_hidden && startsWith (d_name entry) "."); [now apply IH|].
    destruct (fs_stat h (Path.join2 v (d_name entry))) as [s|m0]; [|now exists m0].
    simpl. now apply IH.
Qed.

(** X10.  A listing is all or nothing: one entry that is not skipped and cannot
    be stat-ed (a dangling symbolic link, say) fails the whole call; no
    item of the other entries is returned. *)
Theorem list_directory_fails_on_one_bad_entry :
  forall (h : Host) (config : Config) (dir_path : string) (include_hidden : bool)
         (v : string) (entries : list Dirent) (e : Dirent) (m : string),
    validatePath h dir_path (restrictedPaths config) = Return v ->
    fs_readdir h v = Return entries ->
    In e entries ->
    visible include_hidden e = true ->
    fs_stat h (Path.join2 v (d_name e)) = Throw m ->
    exists m', list_directory h config dir_path include_hidden = Failure m'.
Proof.
  intros h config dir_path include_hidden v entries e m Hv Hr Hin Hvis Hs.
  unfold list_directory, listDirectoryBody, bind. rewrite Hv.
  destruct (fs_stat h v) as [stats|m0]; [|now exists m0].
  destruct (isDirectory stats); [|now eexists]. simpl. rewrite Hr.
  destruct (listItems_Throw h include_hidden v entries e m Hin Hvis Hs []) as (m' & ->).
  now exists m'.
Qed.

Lemma list_directory_bad_entry_witness :
  fs_stat MoreFixtures.brokenHost "/r/a.txt" = Return (TableHost.fileStats 1)
  /\ list_directory MoreFixtures.brokenHost Fixtures.openConfig "/r" false
     = Failure "ENOENT: no such file or directory, stat '/r/dangling'".
Proof.
  split; [reflexivity|].
  destruct (list_directory_fails_on_one_bad_entry
              MoreFixtures.brokenHost Fixtures.openConfig "/r" false "/r"
              [mkDirent "a.txt" RegularFile; mkDirent "dangling" OtherKind;
               mkDirent "z.txt" RegularFile]
              (mkDirent "dangling" OtherKind)
              "ENOENT: no such file or directory, stat '/r/dangling'"
              eq_refl eq_refl (or_intror (or_introl eq_refl)) eq_refl eq_refl)
    as (m' & Hm').
  rewrite Hm'. vm_compute in Hm'. injection Hm' as <-. reflexivity.
Defined.

(** X11.  Only the requested directory is checked against the restricted
    prefixes: an entry whose own path is refused by get_file_info is still
    listed, with the size and time of its [stat]. *)
Theorem list_directory_reports_restricted_children :
  forall (h : Host) (config : Config) (dir_path : string) (include_hidden : bool)
         (v : string) (stats : Stats) (entries : list Dirent) (e : Dirent)
         (s : Stats) (m : string),
    validatePath h dir_path (restrictedPaths config) = Return v ->
    fs_stat h v = Return stats ->
    isDirectory stats = true ->
    fs_readdir h v = Return entries ->
    (forall x, In x entries ->
               negb include_hidden && startsWith (d_name x) "." = false ->
               exists sx, fs_stat h (Path.join2 v (d_name x)) = Return sx) ->
    In e entries ->
    negb include_hidden && startsWith (d_name e) "." = false ->
    fs_stat h (Path.join2 v (d_name e)) = Return s ->
    validatePath h (Path.join2 v (d_name e)) (restrictedPaths config) = Throw m ->
    get_file_info h config (Path.join2 v (d_name e)) = Failure m
    /\ exists data,
         list_directory h config dir_path include_hidden = Success data
         /\ In (listItem h v e s) (ld_items data).
Proof.
  intros h config dir_path include_hidden v stats entries e s m
         Hv Hs Hd Hr Hall Hin Hvis Hse Hdenied.
  split.
  - unfold get_file_info, getFileInfoBody, bind. now rewrite Hdenied.
  - destruct (listItems_succeeds h include_hidden v entries Hall [])
      as (items & Hrun & _ & Hnew).
    exists (mkListData v items (List.length items)). split.
    + unfold list_directory, listDirectoryBody, bind.
      now rewrite Hv, Hs, Hd, Hr, Hrun.
    + now apply Hnew.
Qed.

Lemma list_directory_restricted_child_witness :
  get_file_info MoreFixtures.srvHost MoreFixtures.srvConfig "/srv/private"
  = Failure (accessDenied "/srv/private")
  /\ exists data,
       list_directory MoreFixtures.srvHost MoreFixtures.srvConfig "/srv" false
       = Success data
       /\ In (mkListItem "private" "/srv/private" "directory" 4096 2000 None None)
             (ld_items data).
Proof.
  apply (list_directory_reports_restricted_children
           MoreFixtures.srvHost MoreFixtures.srvConfig "/srv" false "/srv"
           TableHost.dirStats
           [mkDirent "pub.txt" RegularFile; mkDirent "private" Directory;
            mkDirent ".hidden.txt" RegularFile]
           (mkDirent "private" Directory) TableHost.dirStats);
    try reflexivity.
  - intros x [<-|[<-|[<-|[]]]] Hx; try discriminate Hx; eexists; reflexivity.
  - simpl. auto.
Defined.

(** ** get_file_info *)

(** X12.  The answer of get_file_info is stable under its own path: the
    directory and the name recombine to the path, and asking again with
    the reported path gives the same answer; the file is never reported
    writable. *)
Theorem get_file_info_path_round_trip :
  forall (h : Host) (config : Config) (p : string) (info : FileInfo),
    startsWith (cwd h) "/" = true ->
    get_file_info h config p = Success info ->
    Path.join2 (fi_directory info) (fi_name info) = fi_path info
    /\ get_file_info h config (fi_path info) = Success info
    /\ fi_writable info = false.
Proof.
  intros h config p info Hcwd H.
  unfold get_file_info, getFileInfoBody, bind in H.
  destruct (validatePath h p (restrictedPaths config)) as [v|] eqn:Hv; [|discriminate].
  destruct (fs_stat h v) as [stats|] eqn:Hs; [|discriminate].
  injection H as <-. simpl.
  destruct (containing_directory_valid h p _ v Hcwd Hv) as [_ Hjoin].
  split; [exact Hjoin|]. split; [|reflexivity].
  unfold get_file_info, getFileInfoBody, bind.
  assert (Hv' : validatePath h v (restrictedPaths config) = Return v).
  { apply validatePath_Return. split.
    - symmetry. exact (validated_path_is_resolved h p _ v Hcwd Hv).
    - exact (proj2 (proj1 (validatePath_Return h p _ v) Hv)). }
  now rewrite Hv', Hs.
Qed.

Lemma get_file_info_round_trip_witness :
  exists info,
    get_file_info Fixtures.dataHost Fixtures.dataConfig "/data/sub/../c.txt" = Success info
    /\ fi_path info = "/data/c.txt"
    /\ fi_directory info = "/data" /\ fi_name info = "c.txt"
    /\ get_file_info Fixtures.dataHost Fixtures.dataConfig "/data/c.txt" = Success info.
Proof.
  eexists. split; [vm_compute; reflexivity|]. repeat (split; [reflexivity|]).
  destruct (get_file_info_path_round_trip
              Fixtures.dataHost Fixtures.dataConfig "/data/sub/../c.txt" _
              eq_refl eq_refl) as (_ & Hagain & _).
  exact Hagain.
Defined.

(** ** search_files: what the hits are *)

Section SearchMore.

Variable h : Host.
Variable pattern : string.
Variable recursive : bool.

Lemma visitFile_sound (entry : Dirent) (entryPath : string)
      (results : list SearchHit) :
  Forall (soundHit h pattern) results ->
  Forall (soundHit h pattern) (fst (visitFile h pattern entry entryPath results)).
Proof.
  intros Hres. unfold visitFile.
  destruct (matchesPattern (d_name entry) pattern) as [[|]|] eqn:Hm; try exact Hres.
  destruct (fs_stat h entryPath) as [stats|m] eqn:Hs; [|exact Hres].
  simpl. apply Forall_app. split; [exact Hres|].
  constructor; [|constructor].
  split; [exact Hm|]. exists stats. simpl. now repeat split.
Qed.

Lemma forEntries_sound
      (recurse : string -> nat -> list SearchHit -> list SearchHit * outcome)
      (dirPath : string) (depth : nat) (entries : list Dirent) :
  (forall p r, Forall (soundHit h pattern) r ->
               Forall (soundHit h pattern) (fst (recurse p (depth + 1) r))) ->
  forall results,
    Forall (soundHit h pattern) results ->
    Forall (soundHit h pattern)
           (fst (forEntries h pattern recursive recurse dirPath depth entries results)).
Proof.
  intros Hrec. induction entries as [|entry rest IH]; intros results Hres; simpl;
    [exact Hres|].
  destruct (entryIsFile entry).
  - pose proof (visitFile_sound entry (Path.join2 dirPath (d_name entry)) results Hres)
      as Hv.
    destruct (visitFile h pattern entry (Path.join2 dirPath (d_name entry)) results)
      as [r o].
    destruct o; simpl in *; auto.
  - destruct (entryIsDirectory entry && recursive); [|now apply IH].
    pose proof (Hrec (Path.join2 dirPath (d_name entry)) results Hres) as Hr.
    destruct (recurse (Path.join2 dirPath (d_name entry)) (depth + 1) results)
      as [r o].
    destruct o; simpl in *; auto.
Qed.

Lemma searchInDirectory_sound (fuel : nat) :
  forall dirPath depth results,
    Forall (soundHit h pattern) results ->
    Forall (soundHit h pattern)
           (fst (searchInDirectory h pattern recursive fuel dirPath depth results)).
Proof.
  induction fuel as [|fuel IH]; intros dirPath depth results Hres; simpl; [exact Hres|].
  destruct (10 <? depth)%nat; [exact Hres|].
  destruct (fs_readdir h dirPath) as [entries|m]; [|exact Hres].
  apply forEntries_sound; [|exact Hres].
  intros p r Hr. now apply IH.
Qed.

(** Without recursion the loop is a filter: it ends with the hits of the
    matching file entries, in order, or stops at the first of them that
    cannot be stat-ed. *)
Lemma forEntries_flat
      (recurse : string -> nat -> list SearchHit -> list SearchHit * outcome)
      (dirPath : string) (depth : nat) (entries : list Dirent) :
  recursive = false ->
  forall results results',
    forEntries h pattern recursive recurse dirPath depth entries results
    = (results', Completed) ->
    map sh_name results'
    = (map sh_name results ++ map d_name (filter (fileMatches pattern) entries))%list
    /\ map sh_path results'
       = (map sh_path results
          ++ map (fun e => Path.join2 dirPath (d_name e))
                 (filter (fileMatches pattern) entries))%list.
Proof.
  intros Hrec. induction entries as [|entry rest IH]; intros results results' H.
  - simpl in H. injection H as <-. simpl. now rewrite !app_nil_r.
  - simpl in H. simpl filter.
    destruct (entryIsFile entry) eqn:Hf.
    + unfold visitFile in H.
      destruct (matchesPattern (d_name entry) pattern) as [[|]|] eqn:Hm.
      * assert (E : fileMatches pattern entry = true)
          by (unfold fileMatches; now rewrite Hf, Hm).
        rewrite E.
        destruct (fs_stat h (Path.join2 dirPath (d_name entry))) as [stats|m];
          [|discriminate].
        apply IH in H as [Hn Hp]. rewrite Hn, Hp, !map_app. simpl.
        rewrite <- !app_assoc. split; reflexivity.
      * assert (E : fileMatches pattern entry = false)
          by (unfold fileMatches; now rewrite Hf, Hm).
        rewrite E. now apply IH.
      * discriminate.
    + assert (E : fileMatches pattern entry = false)
        by (unfold fileMatches; now rewrite Hf).
      rewrite E. rewrite Hrec, andb_false_r in H. cbv iota beta in H.
      rewrite <- Hrec in H. exact (IH _ _ H).
Qed.

End SearchMore.

Lemma search_files_Success_inv (h : Host) (config : Config)
      (search_path pattern : string) (recursive : bool) (data : SearchData) :
  search_files h config search_path pattern recursive = Some (Success data) ->
  validatePath h search_path (restrictedPaths config) = Return (sd_searchPath data)
  /\ searchInDirectory h pattern recursive searchFuel (sd_searchPath data) 0 []
     = (sd_results data, Completed)
  /\ sd_count data = List.length (sd_results data).
Proof.
  unfold search_files. intros H.
  destruct (validatePath h search_path (restrictedPaths config)) as [v|]; [|discriminate].
  destruct (searchInDirectory h pattern recursive searchFuel v 0 []) as [r o] eqn:Hs.
  destruct o; try discriminate. injection H as <-. simpl. now repeat split.
Qed.

(** X13.  Every hit of a search names a file whose name the pattern matches, with
    the size and time [stat] gave for its path, and [count] is the number
    of hits. *)
Theorem search_files_hits_match_the_pattern :
  forall (h : Host) (config : Config) (search_path pattern : string)
         (recursive : bool) (data : SearchData),
    search_files h config search_path pattern recursive = Some (Success data) ->
    Forall (soundHit h pattern) (sd_results data)
    /\ sd_count data = List.length (sd_results data).
Proof.
  intros h config search_path pattern recursive data H.
  apply search_files_Success_inv in H as (_ & Hs & Hc).
  split; [|exact Hc].
  pose proof (searchInDirectory_sound h pattern recursive searchFuel
                (sd_searchPath data) 0 [] (Forall_nil _)) as Hf.
  now rewrite Hs in Hf.
Qed.

Lemma search_files_hits_witness :
  exists data,
    search_files MoreFixtures.srvHost MoreFixtures.srvConfig "/srv" "*.TXT" true
    = Some (Success data)
    /\ map sh_name (sd_results data) = ["pub.txt"; "key.txt"; ".hidden.txt"]
    /\ Forall (soundHit MoreFixtures.srvHost "*.TXT") (sd_results data).
Proof.
  eexists. split; [vm_compute; reflexivity|]. split; [reflexivity|].
  apply (search_files_hits_match_the_pattern
           MoreFixtures.srvHost MoreFixtures.srvConfig "/srv" "*.TXT" true).
  vm_compute. reflexivity.
Defined.

(** X14.  A search without recursion returns exactly the file entries of the
    root whose name matches, in the order of the directory, hidden files
    included; directory entries are not looked into. *)
Theorem search_files_flat_is_a_filter :
  forall (h : Host) (config : Config) (search_path pattern : string)
         (data : SearchData),
    search_files h config search_path pattern false = Some (Success data) ->
    exists entries,
      fs_readdir h (sd_searchPath data) = Return entries
      /\ map sh_name (sd_results data)
         = map d_name (filter (fileMatches pattern) entries)
      /\ map sh_path (sd_results data)
         = map (fun e => Path.join2 (sd_searchPath data) (d_name e))
               (filter (fileMatches pattern) entries).
Proof.
  intros h config search_path pattern data H.
  apply search_files_Success_inv in H as (_ & Hs & _).
  unfold searchFuel in Hs. rewrite searchInDirectory_S in Hs.
  change (10 <? 0)%nat with false in Hs. cbv iota in Hs.
  destruct (fs_readdir h (sd_searchPath data)) as [entries|m]; [|discriminate].
  exists entries. split; [reflexivity|].
  now apply (forEntries_flat h pattern false _ _ _ _ eq_refl) in Hs.
Qed.

Lemma search_files_flat_witness :
  exists data,
    search_files MoreFixtures.srvHost MoreFixtures.srvConfig "/srv" "*.txt" false
    = Some (Success data)
    /\ map sh_path (sd_results data) = ["/srv/pub.txt"; "/srv/.hidden.txt"].
Proof.
  eexists. split; [vm_compute; reflexivity|].
  destruct (search_files_flat_is_a_filter
              MoreFixtures.srvHost MoreFixtures.srvConfig "/srv" "*.txt" _
              ltac:(vm_compute; reflexivity))
    as (entries & Hr & _ & Hp).
  injection Hr as <-. exact Hp.
Defined.

(** X15.  The restricted prefixes are checked on the root of a search only: once
    the root passes, the search is the one of a configuration without any
    restricted path, and files below a restricted prefix are returned. *)
Theorem search_files_checks_the_root_only :
  forall (h : Host) (config : Config) (search_path pattern : string)
         (recursive : bool) (v : string),
    validatePath h search_path (restrictedPaths config) = Return v ->
    search_files h config search_path pattern recursive
    = search_files h (unrestricted config) search_path pattern recursive.
Proof.
  intros h config search_path pattern recursive v Hv.
  unfold search_files. rewrite Hv.
  apply validatePath_Return in Hv as [-> _].
  reflexivity.
Qed.

Lemma search_files_root_only_witness :
  get_file_info MoreFixtures.srvHost MoreFixtures.srvConfig "/srv/private/key.txt"
  = Failure (accessDenied "/srv/private")
  /\ (exists data,
         search_files MoreFixtures.srvHost MoreFixtures.srvConfig "/srv" "key*" true
         = Some (Success data)
         /\ map sh_path (sd_results data) = ["/srv/private/key.txt"]
         /\ map sh_size (sd_results data) = [7%N])
  /\ search_files MoreFixtures.srvHost MoreFixtures.srvConfig "/srv" "key*" true
     = search_files MoreFixtures.srvHost (unrestricted MoreFixtures.srvConfig)
                    "/srv" "key*" true.
Proof.
  split; [reflexivity|]. split.
  - eexists. split; [vm_compute; reflexivity|]. split; reflexivity.
  - apply (search_files_checks_the_root_only
             MoreFixtures.srvHost MoreFixtures.srvConfig "/srv" "key*" true "/srv").
    reflexivity.
Defined.

(** ** search_files: errors at the root *)

Lemma forEntries_app (h : Host) (pattern : string) (recursive : bool)
      (recurse : string -> nat -> list SearchHit -> list SearchHit * outcome)
      (dirPath : string) (depth : nat) (before after : list Dirent) :
  forall results,
    forEntries h pattern recursive recurse dirPath depth (before ++ after)%list results
    = match forEntries h pattern recursive recurse dirPath depth before results with
      | (r, Completed) => forEntries h pattern recursive recurse dirPath depth after r
      | stopped => stopped
      end.
Proof.
  induction before as [|e before IH]; intros results; [reflexivity|].
  simpl app. cbn [forEntries].
  destruct (if entryIsFile e then _ else _) as [r o].
  destruct o; auto.
Qed.

(** X16.  Errors at the root of a search are not swallowed: when the root cannot
    be enumerated, or a matching file of the root cannot be stat-ed, the
    call fails with that error, and the hits collected before are lost. *)
Theorem search_files_root_errors_fail_the_call :
  forall (h : Host) (config : Config) (search_path pattern : string)
         (recursive : bool) (v m : string),
    validatePath h search_path (restrictedPaths config) = Return v ->
    (fs_readdir h v = Throw m ->
     search_files h config search_path pattern recursive = Some (Failure m))
    /\ (forall re before e after,
           RegExp_new (patternSource pattern) = Some re ->
           fs_readdir h v = Return (before ++ e :: after)%list ->
           (forall x, In x before -> entryIsFile x = true ->
                      RegExp_test re (d_name x) = true ->
                      exists s, fs_stat h (Path.join2 v (d_name x)) = Return s) ->
           entryIsFile e = true ->
           RegExp_test re (d_name e) = true ->
           fs_stat h (Path.join2 v (d_name e)) = Throw m ->
           search_files h config search_path pattern recursive = Some (Failure m)).
Proof.
  intros h config search_path pattern recursive v m Hv. split.
  - intros Hr. unfold search_files, searchFuel.
    now rewrite Hv, searchInDirectory_S, Hr.
  - intros re before e after Hre Hr Hstat Hf Ht Hs.
    unfold search_files, searchFuel. rewrite Hv, searchInDirectory_S, Hr.
    change (10 <? 0)%nat with false. cbv iota.
    rewrite forEntries_app.
    pose proof (forEntries_completes h pattern recursive re
                  (searchInDirectory h pattern recursive 11) v 0 before Hre
                  (fun p r => searchInDirectory_ended h pattern recursive re 11 p (0 + 1) r
                                Hre ltac:(lia) ltac:(lia)) Hstat []) as Hc.
    destruct (forEntries h pattern recursive (searchInDirectory h pattern recursive 11)
                         v 0 before []) as [r o].
    simpl in Hc. subst o. cbn [forEntries]. rewrite Hf.
    unfold visitFile. rewrite (matchesPattern_compiled _ _ _ Hre), Ht, Hs.
    reflexivity.
Qed.

Lemma search_files_root_error_witness :
  search_files MoreFixtures.racyHost Fixtures.openConfig "/r" "*.txt" true
  = Some (Failure "ENOENT: no such file or directory, stat '/r/ghost.txt'")
  /\ search_files MoreFixtures.racyHost Fixtures.openConfig "/r" "a*" true
     = Some (Success (mkSearchData "/r" "a*" true
                        [mkSearchHit "a.txt" "/r/a.txt" "/r" 1 2000 ".txt" "text/plain"] 1)).
Proof.
  split; [|vm_compute; reflexivity].
  apply (proj2 (search_files_root_errors_fail_the_call
                  MoreFixtures.racyHost Fixtures.openConfig "/r" "*.txt" true "/r"
                  "ENOENT: no such file or directory, stat '/r/ghost.txt'" eq_refl)
               [[TBol; TStar AAny; TAtom AAny; TAtom (AChar "t"); TAtom (AChar "x");
                 TAtom (AChar "t"); TEol]]
               [mkDirent "a.txt" RegularFile] (mkDirent "ghost.txt" RegularFile)
               [mkDirent "z.txt" RegularFile]);
    try reflexivity.
  intros x [<-|[]] _ _. eexists. reflexivity.
Defined.

(** ** The matcher on simple patterns *)

Lemma simpleChar_cases (c : ascii) :
  simpleChar c = true ->
  c = "*"%char \/ c = "?"%char \/ c = "."%char
  \/ (Ascii.eqb c "*"%char = false /\ Ascii.eqb c "?"%char = false
      /\ Ascii.eqb c "."%char = false
      /\ atomOf c = Some (AChar c) /\ Ascii.eqb c "|"%char = false).
Proof.
  destruct c as [[] [] [] [] [] [] [] []]; intros H; vm_compute in H;
    try discriminate H;
    first [ left; reflexivity
          | right; left; reflexivity
          | right; right; left; reflexivity
          | right; right; right; repeat split ].
Qed.

Lemma parseTerms_simple (p sfx : string) (ts : list term) :
  simplePattern p = true ->
  headIsStar sfx = false ->
  parseTerms sfx = Some ts ->
  parseTerms (replaceAll "?" "." (replaceAll "*" ".*" p) ++ sfx)
  = Some (simpleTerms p ++ ts)%list.
Proof.
  intros Hp Hs Hsfx. induction p as [|c r IH]; [exact Hsfx|].
  simpl in Hp. apply andb_true_iff in Hp as [Hc Hr].
  specialize (IH Hr).
  rewrite translate_cons.
  destruct (simpleChar_cases c Hc) as [->|[->|[->|(Es & Eq & Ed & Ha & _)]]].
  - change (Ascii.eqb "*" "*") with true. cbv iota.
    rewrite !append_cons, (parseTerms_star "."%char AAny) by reflexivity.
    rewrite IH. reflexivity.
  - change (Ascii.eqb "?" "*") with false. change (Ascii.eqb "?" "?") with true.
    cbv iota. rewrite append_cons.
    rewrite (parseTerms_atom "."%char AAny) by (try reflexivity; now apply translate_head).
    rewrite IH. reflexivity.
  - change (Ascii.eqb "." "*") with false. change (Ascii.eqb "." "?") with false.
    cbv iota. rewrite append_cons.
    rewrite (parseTerms_atom "."%char AAny) by (try reflexivity; now apply translate_head).
    rewrite IH. reflexivity.
  - rewrite Es, Eq, append_cons.
    rewrite (parseTerms_atom c (AChar c)) by (try assumption; now apply translate_head).
    rewrite IH. simpl. now rewrite Es, Eq, Ed.
Qed.

Lemma translate_simple_without_bar (p sfx : string) :
  simplePattern p = true ->
  forallChars (fun a => negb (Ascii.eqb a "|"%char)) sfx = true ->
  forallChars (fun a => negb (Ascii.eqb a "|"%char))
              (replaceAll "?" "." (replaceAll "*" ".*" p) ++ sfx) = true.
Proof.
  intros Hp Hs. induction p as [|c r IH]; [exact Hs|].
  simpl in Hp. apply andb_true_iff in Hp as [Hc Hr].
  specialize (IH Hr). rewrite translate_cons.
  destruct (simpleChar_cases c Hc) as [->|[->|[->|(Es & Eq & _ & _ & Hbar)]]].
  - change (Ascii.eqb "*" "*") with true. cbv iota.
    rewrite !append_cons. exact IH.
  - change (Ascii.eqb "?" "*") with false. change (Ascii.eqb "?" "?") with true.
    cbv iota. rewrite append_cons. exact IH.
  - change (Ascii.eqb "." "*") with false. change (Ascii.eqb "." "?") with false.
    cbv iota. rewrite append_cons. exact IH.
  - rewrite Es, Eq, append_cons.
    change (negb (Ascii.eqb c "|") && forallChars (fun a => negb (Ascii.eqb a "|"%char))
              (replaceAll "?" "." (replaceAll "*" ".*" r) ++ sfx) = true).
    now rewrite Hbar, IH.
Qed.

Lemma RegExp_new_simple (p : string) :
  simplePattern p = true ->
  RegExp_new (patternSource p) = Some [TBol :: simpleTerms p ++ [TEol]]%list.
Proof.
  intros Hp. unfold RegExp_new, patternSource.
  rewrite split_without_separator.
  - simpl. now rewrite (parseTerms_simple p "$" [TEol] Hp).
  - simpl. now apply translate_simple_without_bar.
Qed.

Lemma matchTerms_looseGlob (p : string) :
  simplePattern p = true ->
  forall (n : string) (b : bool),
    oneLine n = true ->
    matchTerms (simpleTerms p ++ [TEol])%list b n = looseGlob p n.
Proof.
  induction p as [|c r IH]; intros Hp n b Hn.
  - simpl. now rewrite andb_true_r.
  - simpl in Hp. apply andb_true_iff in Hp as [Hc Hr].
    specialize (IH Hr).
    destruct (simpleChar_cases c Hc) as [->|[->|[->|(Es & Eq & Ed & _ & _)]]].
    + simpl. revert b. induction n as [|d n IHn]; intros b.
      * rewrite IH by reflexivity. reflexivity.
      * rewrite IH by exact Hn.
        apply andb_true_iff in Hn as [Hd Hn'].
        rewrite Hd. simpl (true && _).
        f_equal. exact (IHn Hn' false).
    + simpl. destruct n as [|d n]; [reflexivity|].
      simpl in Hn. apply andb_true_iff in Hn as [Hd Hn'].
      rewrite Hd. simpl. now apply IH.
    + simpl. destruct n as [|d n]; [reflexivity|].
      simpl in Hn. apply andb_true_iff in Hn as [Hd Hn'].
      rewrite Hd. simpl. now apply IH.
    + simpl. rewrite Es, Eq, Ed. destruct n as [|d n]; [reflexivity|].
      simpl in Hn. apply andb_true_iff in Hn as [Hd Hn'].
      simpl. rewrite canonicalize_lowerChar. f_equal. now apply IH.
Qed.

(** X17.  On a pattern of wildcards, dots and characters without meaning in a
    regular expression, and a name of one line, the matcher is a glob over
    the whole name, blind to case, in which the dot, like the question
    mark, stands for any one character. *)
Theorem matchesPattern_is_the_loose_glob :
  forall name pattern : string,
    simplePattern pattern = true ->
    oneLine name = true ->
    matchesPattern name pattern = Some (looseGlob pattern name).
Proof.
  intros name pattern Hp Hn. unfold matchesPattern.
  rewrite (RegExp_new_simple pattern Hp), RegExp_test_anchored.
  now rewrite (matchTerms_looseGlob pattern Hp name true Hn).
Qed.

Lemma matchesPattern_loose_glob_witness :
  matchesPattern "Report.v2.TXT" "re*.v?.txt" = Some true
  /\ matchesPattern "report-v2.txt" "re*.v?.txt" = Some true
  /\ matchesPattern "my report.v2.txt" "re*.v?.txt" = Some false
  /\ matchesPattern "Report.v2.TXT" "re*.v?.txt"
     = Some (looseGlob "re*.v?.txt" "Report.v2.TXT").
Proof.
  repeat (split; [reflexivity|]).
  apply (matchesPattern_is_the_loose_glob "Report.v2.TXT" "re*.v?.txt"); reflexivity.
Defined.

Lemma looseGlob_refl (p : string) : looseGlob p p = true.
Proof.
  induction p as [|c p IH]; [reflexivity|].
  simpl. destruct (Ascii.eqb c "*") eqn:Es.
  - destruct p as [|d p']; rewrite IH; [reflexivity | apply orb_true_r].
  - now rewrite Ascii.eqb_refl, orb_true_r, IH.
Qed.

(** X18.  A file is found by a search for its own name, when the name is of one
    line and has no character with a meaning in a regular expression other
    than the dot and the wildcards. *)
Theorem matchesPattern_own_name :
  forall name : string,
    simplePattern name = true ->
    oneLine name = true ->
    matchesPattern name name = Some true.
Proof.
  intros name Hp Hn.
  unfold matchesPattern.
  rewrite (RegExp_new_simple name Hp), RegExp_test_anchored.
  rewrite (matchTerms_looseGlob name Hp name true Hn).
  now rewrite looseGlob_refl.
Qed.

Lemma matchesPattern_own_name_witness :
  matchesPattern "notes.v2.txt" "notes.v2.txt" = Some true.
Proof. apply (matchesPattern_own_name "notes.v2.txt"); reflexivity. Defined.

(** ** The matcher and letter case *)

























(** ** formatFileSize *)

Module FormatFacts.

Import ZArith QArith Qround.
Import Format.
Local Open Scope string_scope.

Lemma scaleDown_continue (room : nat) (size : Q) (i : nat) :
  (1024 <= size)%Q ->
  scaleDown (S room) size i = scaleDown room (size / 1024)%Q (S i).
Proof.
  intros H. cbn [scaleDown].
  now rewrite (proj2 (Qle_bool_iff 1024 size) H).
Qed.

Lemma scaleDown_stop (room : nat) (size : Q) (i : nat) :
  (size < 1024)%Q ->
  scaleDown room size i = (size, i).
Proof.
  intros H. destruct room as [|room]; [reflexivity|]. cbn [scaleDown].
  destruct (Qle_bool 1024 size) eqn:E; [|reflexivity].
  apply Qle_bool_iff in E. exfalso. exact (Qlt_not_le _ _ H E).
Qed.

Lemma pow1024_pos (j : nat) : (0 < 1024 ^ Z.of_nat j)%Z.
Proof. apply Z.pow_pos_nonneg; lia. Qed.

Lemma pow1024_S (j : nat) : (1024 ^ Z.of_nat (S j) = 1024 * 1024 ^ Z.of_nat j)%Z.
Proof. rewrite Nat2Z.inj_succ, Z.pow_succ_r by lia. reflexivity. Qed.

(** The unit the loop stops at: the [j] with 1024^j <= size < 1024^(j+1),
    or the last unit. *)
Lemma scaleDown_spec (room : nat) :
  forall (j : nat) (size : Q) (i : nat),
    (j <= room)%nat ->
    (j = 0%nat \/ (inject_Z (1024 ^ Z.of_nat j) <= size)%Q) ->
    (j = room \/ (size < inject_Z (1024 ^ Z.of_nat (S j)))%Q) ->
    exists size',
      scaleDown room size i = (size', (i + j)%nat)
      /\ (size' * inject_Z (1024 ^ Z.of_nat j) == size)%Q.
Proof.
  induction room as [|room IH]; intros j size i Hj Hlo Hhi.
  - assert (j = 0%nat) by lia. subst j. exists size. split.
    + simpl. now rewrite Nat.add_0_r.
    + simpl. ring.
  - destruct j as [|j].
    + destruct Hhi as [Hhi|Hhi]; [discriminate|].
      exists size. split.
      * rewrite scaleDown_stop by exact Hhi. now rewrite Nat.add_0_r.
      * simpl. ring.
    + destruct Hlo as [Hlo|Hlo]; [discriminate|].
      assert (H1024 : (1024 <= size)%Q).
      { eapply Qle_trans; [|exact Hlo].
        change 1024%Q with (inject_Z 1024).
        rewrite <- Zle_Qle. rewrite pow1024_S. pose proof (pow1024_pos j). lia. }
      rewrite scaleDown_continue by exact H1024.
      destruct (IH j (size / 1024)%Q (S i)) as (s' & Hs & Hq).
      * lia.
      * right. apply Qle_shift_div_l; [reflexivity|].
        eapply Qle_trans; [|exact Hlo].
        rewrite pow1024_S. rewrite inject_Z_mult.
        rewrite Qmult_comm. apply Qle_refl.
      * destruct Hhi as [Hhi|Hhi]; [left; lia | right].
        apply Qlt_shift_div_r; [reflexivity|].
        eapply Qlt_le_trans; [exact Hhi|].
        rewrite (pow1024_S (S j)), inject_Z_mult, Qmult_comm. apply Qle_refl.
      * exists s'. split; [rewrite Hs; f_equal; lia|].
        rewrite pow1024_S, inject_Z_mult.
        rewrite Qmult_assoc, (Qmult_comm s'), <- Qmult_assoc, Hq.
        field.
Qed.

Lemma Qfloor_half (m : Z) : Qfloor (inject_Z m + (1 # 2)) = m.
Proof.
  unfold Qfloor, Qplus, inject_Z. simpl.
  replace (m * 2 + 1)%Z with (1 + m * 2)%Z by lia.
  rewrite Z.div_add by lia. reflexivity.
Qed.

Lemma ofNumber_zero : ofNumber 0 = "0".
Proof. reflexivity. Qed.

(** A whole number is printed with zeros after the point. *)
Lemma toFixed_whole (x : Q) (k : N) (f : nat) :
  (x == inject_Z (Z.of_N k))%Q ->
  (0 < f <= 2)%nat ->
  toFixed x f = ofNumber k ++ "." ++ zeros f.
Proof.
  intros Hx Hf. unfold toFixed.
  assert (E : Qfloor (x * inject_Z (10 ^ Z.of_nat f) + (1 # 2))
              = (Z.of_N k * 10 ^ Z.of_nat f)%Z).
  { rewrite <- Qfloor_half. apply Qfloor_comp.
    rewrite Hx, inject_Z_mult. reflexivity. }
  rewrite E.
  assert (f = 1 \/ f = 2)%nat as [-> | ->] by lia.
  - change (10 ^ Z.of_nat 1)%Z with 10%Z. change (10 ^ N.of_nat 1)%N with 10%N.
    replace (Z.to_N (Z.of_N k * 10)) with (k * 10)%N by lia.
    rewrite N.div_mul, N.Div0.mod_mul by lia. reflexivity.
  - change (10 ^ Z.of_nat 2)%Z with 100%Z. change (10 ^ N.of_nat 2)%N with 100%N.
    replace (Z.to_N (Z.of_N k * 100)) with (k * 100)%N by lia.
    rewrite N.div_mul, N.Div0.mod_mul by lia. reflexivity.
Qed.

Lemma formatWith_whole (units : list string) (digits : nat) (k : N) (j : nat) :
  (0 < digits <= 2)%nat ->
  (j < List.length units)%nat ->
  (1 <= k)%N ->
  (S j = List.length units \/ (k < 1024)%N) ->
  formatWith units digits (k * 1024 ^ N.of_nat j)
  = ofNumber k ++ "." ++ zeros digits ++ " " ++ nth j units "undefined".
Proof.
  intros Hd Hj Hk Hcap. unfold formatWith.
  assert (Hb : Z.of_N (k * 1024 ^ N.of_nat j) = (Z.of_N k * 1024 ^ Z.of_nat j)%Z).
  { rewrite N2Z.inj_mul, N2Z.inj_pow, nat_N_Z. reflexivity. }
  pose proof (pow1024_pos j) as Hp.
  destruct (scaleDown_spec (List.length units - 1) j
              (inject_Z (Z.of_N (k * 1024 ^ N.of_nat j))) 0) as (s' & Hs & Hq).
  - lia.
  - right. rewrite <- Zle_Qle, Hb. nia.
  - destruct Hcap as [Hcap|Hcap]; [left; lia | right].
    rewrite <- Zlt_Qlt, Hb, pow1024_S. nia.
  - rewrite Hs. simpl (0 + j)%nat.
    rewrite (toFixed_whole s' k digits); [now rewrite <- !append_assoc | | exact Hd].
    rewrite Hb, inject_Z_mult in Hq.
    apply Qmult_inj_r in Hq; [exact Hq|].
    intros H0. unfold Qeq in H0. simpl in H0. lia.
Qed.

Lemma inject_Z_nonzero (d : Z) : (0 < d)%Z -> ~ (inject_Z d == 0)%Q.
Proof. intros Hd H0. unfold Qeq in H0. simpl in H0. lia. Qed.

(** The integer [toFixed(1)] prints, for the ratio of two integers. *)
Lemma Qfloor_tenths (x : Q) (b d : Z) :
  (0 < d)%Z ->
  (x * inject_Z d == inject_Z b)%Q ->
  Qfloor (x * inject_Z (10 ^ Z.of_nat 1) + (1 # 2)) = ((20 * b + d) / (2 * d))%Z.
Proof.
  intros Hd Hq. rewrite Zdiv_Qdiv. apply Qfloor_comp.
  pose proof (inject_Z_nonzero d Hd) as Hnz.
  assert (Hx : (x == inject_Z b / inject_Z d)%Q).
  { rewrite <- Hq. field. exact Hnz. }
  rewrite Hx, inject_Z_plus, !inject_Z_mult.
  change (10 ^ Z.of_nat 1)%Z with 10%Z.
  change (inject_Z 10) with 10%Q. change (inject_Z 20) with 20%Q.
  change (inject_Z 2) with 2%Q.
  field. exact Hnz.
Qed.

Lemma formatWith_just_below (units : list string) (bytes : N) (j : nat) :
  (S j < List.length units)%nat ->
  (20 * 1024 ^ N.of_nat (S j) <= 20 * bytes + 1024 ^ N.of_nat j)%N ->
  (bytes < 1024 ^ N.of_nat (S j))%N ->
  formatWith units 1 bytes = "1024.0 " ++ nth j units "undefined".
Proof.
  intros Hj Hlo Hhi. unfold formatWith.
  pose proof (pow1024_pos j) as Hp.
  assert (Hlo' : (20 * (1024 * 1024 ^ Z.of_nat j)
                  <= 20 * Z.of_N bytes + 1024 ^ Z.of_nat j)%Z).
  { rewrite <- pow1024_S, <- !nat_N_Z.
    change 1024%Z with (Z.of_N 1024). rewrite <- !N2Z.inj_pow.
    change 20%Z with (Z.of_N 20). rewrite <- !N2Z.inj_mul, <- N2Z.inj_add.
    now apply N2Z.inj_le. }
  assert (Hhi' : (Z.of_N bytes < 1024 * 1024 ^ Z.of_nat j)%Z).
  { rewrite <- pow1024_S, <- nat_N_Z.
    change 1024%Z with (Z.of_N 1024). rewrite <- N2Z.inj_pow.
    now apply N2Z.inj_lt. }
  destruct (scaleDown_spec (List.length units - 1) j
              (inject_Z (Z.of_N bytes)) 0) as (s' & Hs & Hq).
  - lia.
  - right. rewrite <- Zle_Qle. lia.
  - right. rewrite <- Zlt_Qlt, pow1024_S. exact Hhi'.
  - rewrite Hs. simpl (0 + j)%nat. unfold toFixed.
    rewrite (Qfloor_tenths s' (Z.of_N bytes) (1024 ^ Z.of_nat j) Hp Hq).
    assert (E : ((20 * Z.of_N bytes + 1024 ^ Z.of_nat j) / (2 * 1024 ^ Z.of_nat j)
                 = 10240)%Z).
    { symmetry. apply (Z.div_unique_pos _ _ 10240
                         (20 * Z.of_N bytes + 1024 ^ Z.of_nat j
                          - 10240 * (2 * 1024 ^ Z.of_nat j))); lia. }
    rewrite E. reflexivity.
Qed.

End FormatFacts.

(** X20.  A whole number of a unit, of a size a double holds exactly, is shown
    as such, with one zero after the point; there is no unit above GB, so
    from 1024 GB on the number shown has four digits or more. *)
Theorem formatFileSize_whole_units :
  forall (k : N) (j : nat),
    (j < 4)%nat ->
    (1 <= k)%N ->
    (j = 3%nat \/ (k < 1024)%N) ->
    (k * 1024 ^ N.of_nat j < 2 ^ 53)%N ->
    formatFileSize (k * 1024 ^ N.of_nat j)
    = ofNumber k ++ ".0 " ++ nth j ["B"; "KB"; "MB"; "GB"] "".
Proof.
  intros k j Hj Hk Hcap _. unfold formatFileSize.
  rewrite (FormatFacts.formatWith_whole ["B"; "KB"; "MB"; "GB"] 1 k j);
    [| lia | exact Hj | exact Hk | destruct Hcap; [left; simpl; lia | now right]].
  do 4 (destruct j as [|j]; [reflexivity|]). simpl in Hj. lia.
Qed.

Lemma formatFileSize_whole_units_witness :
  formatFileSize (10 * 1024 * 1024) = "10.0 MB"
  /\ formatFileSize (5 * 1024 * 1024 * 1024 * 1024) = "5120.0 GB".
Proof.
  split.
  - apply (formatFileSize_whole_units 10 2); [lia | lia | right; lia | reflexivity].
  - apply (formatFileSize_whole_units 5120 3); [lia | lia | now left | reflexivity].
Defined.

(** X21.  Just below 1024 of a unit the size is rounded up to it and shown as
    1024.0 of that unit, not as 1.0 of the next: from one twentieth of the
    unit below the next unit on. *)
Theorem formatFileSize_rounds_up_to_1024 :
  forall (bytes : N) (j : nat),
    (j < 3)%nat ->
    (20 * 1024 ^ N.of_nat (S j) <= 20 * bytes + 1024 ^ N.of_nat j)%N ->
    (bytes < 1024 ^ N.of_nat (S j))%N ->
    formatFileSize bytes = "1024.0 " ++ nth j ["B"; "KB"; "MB"] "".
Proof.
  intros bytes j Hj Hlo Hhi. unfold formatFileSize.
  rewrite (FormatFacts.formatWith_just_below ["B"; "KB"; "MB"; "GB"] bytes j);
    [| simpl; lia | exact Hlo | exact Hhi].
  do 3 (destruct j as [|j]; [reflexivity|]). lia.
Qed.

Lemma formatFileSize_rounds_up_witness :
  formatFileSize 1048575 = "1024.0 KB"
  /\ formatFileSize 1048524 = "1023.9 KB"
  /\ formatFileSize 1048576 = "1.0 MB".
Proof.
  split; [|split; vm_compute; reflexivity].
  apply (formatFileSize_rounds_up_to_1024 1048575 1); [lia | vm_compute; discriminate | reflexivity].
Defined.

(** ** The matcher of the add-on *)

Lemma replaceAll_append (c : ascii) (by_ a b : string) :
  replaceAll c by_ (a ++ b) = replaceAll c by_ a ++ replaceAll c by_ b.
Proof.
  induction a as [|x a IH]; [reflexivity|].
  simpl. destruct (Ascii.eqb x c); rewrite IH; [now rewrite append_assoc | reflexivity].
Qed.

Lemma addon_patternSource_append (a b : string) :
  AddOn.patternSource (a ++ b) = AddOn.patternSource a ++ AddOn.patternSource b.
Proof. unfold AddOn.patternSource. now rewrite !replaceAll_append. Qed.

Lemma literalChar_cases (c : ascii) :
  literalChar c = true ->
  c = "?"%char \/ c = "."%char
  \/ (Ascii.eqb c "?"%char = false /\ Ascii.eqb c "."%char = false
      /\ Ascii.eqb c "*"%char = false /\ Ascii.eqb c "\"%char = false
      /\ Ascii.eqb c "|"%char = false /\ atomOf c = Some (AChar c)).
Proof.
  destruct c as [[] [] [] [] [] [] [] []]; intros H; vm_compute in H;
    try discriminate H;
    first [ left; reflexivity
          | right; left; reflexivity
          | right; right; repeat split ].
Qed.

Lemma addon_patternSource_cons (c : ascii) (r : string) :
  literalChar c = true ->
  AddOn.patternSource (String c r)
  = if Ascii.eqb c "?"%char || Ascii.eqb c "."%char
    then String "\"%char (String "."%char (AddOn.patternSource r))
    else String c (AddOn.patternSource r).
Proof.
  intros Hc. change (String c r) with (String c "" ++ r).
  rewrite addon_patternSource_append.
  destruct (literalChar_cases c Hc) as [->|[->|(Eq & Ed & Es & _)]];
    [reflexivity | reflexivity |].
  rewrite Eq, Ed. unfold AddOn.patternSource at 1. simpl.
  rewrite Es. simpl. rewrite Eq. simpl. rewrite Ed. reflexivity.
Qed.

Lemma addon_source_head (p sfx : string) :
  literalPattern p = true ->
  headIsStar sfx = false ->
  headIsStar (AddOn.patternSource p ++ sfx) = false.
Proof.
  intros Hp Hs. destruct p as [|c r]; [exact Hs|].
  simpl in Hp. apply andb_true_iff in Hp as [Hc _].
  rewrite (addon_patternSource_cons c r Hc).
  destruct (literalChar_cases c Hc) as [->|[->|(Eq & Ed & Es & _)]];
    [reflexivity | reflexivity |].
  rewrite Eq, Ed. simpl. exact Es.
Qed.

Lemma addon_parse_escaped_dot (rest : string) :
  headIsStar rest = false ->
  AddOn.parseTerms (String "\"%char (String "."%char rest))
  = option_map (cons (TAtom (AChar "."))) (AddOn.parseTerms rest).
Proof.
  intros H. cbn [AddOn.parseTerms]. change (Ascii.eqb "\" "\") with true. cbv iota.
  destruct rest as [|d r]; [reflexivity|].
  simpl in H. destruct d as [[] [] [] [] [] [] [] []]; try reflexivity; discriminate H.
Qed.

Lemma addon_parse_escaped_dot_star (rest : string) :
  AddOn.parseTerms (String "\"%char (String "."%char (String "*"%char rest)))
  = option_map (cons (TStar (AChar "."))) (AddOn.parseTerms rest).
Proof. reflexivity. Qed.

Lemma addon_parse_char (c : ascii) (rest : string) :
  Ascii.eqb c "\"%char = false ->
  atomOf c = Some (AChar c) ->
  headIsStar rest = false ->
  AddOn.parseTerms (String c rest)
  = option_map (cons (TAtom (AChar c))) (AddOn.parseTerms rest).
Proof.
  intros Hb Ha H. cbn [AddOn.parseTerms]. rewrite Hb, Ha.
  destruct rest as [|d r]; [reflexivity|].
  simpl in H. destruct d as [[] [] [] [] [] [] [] []]; try reflexivity; discriminate H.
Qed.

Lemma addon_parse_literal (p sfx : string) (ts : list term) :
  literalPattern p = true ->
  headIsStar sfx = false ->
  AddOn.parseTerms sfx = Some ts ->
  AddOn.parseTerms (AddOn.patternSource p ++ sfx) = Some (literalTerms p ++ ts)%list.
Proof.
  intros Hp Hs Hsfx. induction p as [|c r IH]; [exact Hsfx|].
  simpl in Hp. apply andb_true_iff in Hp as [Hc Hr].
  specialize (IH Hr).
  pose proof (addon_source_head r sfx Hr Hs) as Hh.
  rewrite (addon_patternSource_cons c r Hc).
  destruct (literalChar_cases c Hc) as [->|[->|(Eq & Ed & Es & Eb & _ & Ha)]].
  - simpl orb. cbv iota. rewrite !append_cons.
    rewrite addon_parse_escaped_dot by exact Hh. now rewrite IH.
  - simpl orb. cbv iota. rewrite !append_cons.
    rewrite addon_parse_escaped_dot by exact Hh. now rewrite IH.
  - rewrite Eq, Ed. simpl orb. cbv iota. rewrite append_cons.
    rewrite addon_parse_char by assumption. rewrite IH. simpl. now rewrite Eq.
Qed.

Lemma addon_source_without_bar (p : string) :
  literalPattern p = true ->
  forallChars (fun a => negb (Ascii.eqb a "|"%char)) (AddOn.patternSource p) = true.
Proof.
  intros Hp. induction p as [|c r IH]; [reflexivity|].
  simpl in Hp. apply andb_true_iff in Hp as [Hc Hr].
  specialize (IH Hr). rewrite (addon_patternSource_cons c r Hc).
  destruct (literalChar_cases c Hc) as [->|[->|(Eq & Ed & _ & _ & Hbar & _)]];
    [exact IH | exact IH |].
  rewrite Eq, Ed. simpl. now rewrite Hbar, IH.
Qed.

Lemma forallChars_app (f : ascii -> bool) (a b : string) :
  forallChars f (a ++ b) = forallChars f a && forallChars f b.
Proof.
  induction a as [|x a IH]; [reflexivity|].
  simpl. now rewrite IH, andb_assoc.
Qed.

(** The three shapes: the pattern alone, with a star before it, with a
    star after it. *)
Lemma addon_RegExp_new_literal (p : string) :
  literalPattern p = true ->
  AddOn.RegExp_new (AddOn.patternSource p) = Some [literalTerms p]
  /\ AddOn.RegExp_new (AddOn.patternSource ("*" ++ p))
     = Some [TStar (AChar ".") :: literalTerms p]
  /\ AddOn.RegExp_new (AddOn.patternSource (p ++ "*"))
     = Some [literalTerms p ++ [TStar (AChar ".")]]%list.
Proof.
  intros Hp. pose proof (addon_source_without_bar p Hp) as Hbar.
  unfold AddOn.RegExp_new. repeat split.
  - rewrite split_without_separator by exact Hbar.
    rewrite <- (append_nil_r (AddOn.patternSource p)).
    simpl. rewrite (addon_parse_literal p "" [] Hp eq_refl eq_refl).
    now rewrite app_nil_r.
  - rewrite addon_patternSource_append.
    rewrite split_without_separator by (rewrite forallChars_app, Hbar; reflexivity).
    change (AddOn.patternSource "*") with "\.*".
    rewrite <- (append_nil_r (AddOn.patternSource p)).
    simpl. rewrite (addon_parse_literal p "" [] Hp eq_refl eq_refl).
    now rewrite app_nil_r.
  - rewrite addon_patternSource_append.
    rewrite split_without_separator by (rewrite forallChars_app, Hbar; reflexivity).
    change (AddOn.patternSource "*") with "\.*".
    simpl. now rewrite (addon_parse_literal p "\.*" [TStar (AChar ".")] Hp eq_refl eq_refl).
Qed.

Lemma addon_match_literal (q : string) (ts : list term) :
  (forall b r, AddOn.matchTerms ts b r = true) ->
  forall (b : bool) (s : string),
    AddOn.matchTerms (literalTerms q ++ ts)%list b s
    = String.prefix (replaceAll "?" "." q) s.
Proof.
  intros Hts. induction q as [|c q IH]; intros b s.
  - simpl. rewrite Hts. symmetry. apply prefix_empty.
  - assert (E : replaceAll "?" "." (String c q)
                = String (if Ascii.eqb c "?"%char then "."%char else c)
                         (replaceAll "?" "." q))
      by (simpl; destruct (Ascii.eqb c "?"); reflexivity).
    rewrite E. simpl literalTerms. simpl app. cbn [AddOn.matchTerms].
    destruct s as [|d r]; [reflexivity|].
    rewrite prefix_cons, IH. unfold AddOn.atomMatches.
    destruct (Ascii.eqb_spec (if Ascii.eqb c "?"%char then "."%char else c) d) as [->|Hne].
    + now destruct (ascii_dec d d).
    + now destruct (ascii_dec (if Ascii.eqb c "?"%char then "."%char else c) d).
Qed.

Lemma addon_star_unfold (a : atom) (ts : list term) (b : bool) (s : string) :
  AddOn.matchTerms (TStar a :: ts) b s
  = AddOn.matchTerms ts b s
    || match s with
       | String c r => AddOn.atomMatches a c && AddOn.matchTerms (TStar a :: ts) false r
       | EmptyString => false
       end.
Proof. destruct s; reflexivity. Qed.

Lemma addon_search_literal (alt : list term) (d : string) :
  (forall b s, AddOn.matchTerms alt b s = String.prefix d s) ->
  forall (b : bool) (s : string), AddOn.testFrom [alt] b s = occursIn d s.
Proof.
  intros Halt b s. revert b. induction s as [|c r IH]; intros b; simpl.
  - now rewrite Halt, orb_false_r.
  - now rewrite Halt, IH, orb_false_r.
Qed.

Lemma addon_star_occurs (a : atom) (ts : list term) (d : string) :
  (forall b s, AddOn.matchTerms ts b s = String.prefix d s) ->
  forall (b : bool) (s : string),
    AddOn.matchTerms (TStar a :: ts) b s = true -> occursIn d s = true.
Proof.
  intros Hts b s. revert b. induction s as [|c r IH]; intros b;
    rewrite addon_star_unfold, Hts; intros H.
  - cbn [occursIn]. now rewrite orb_false_r in *.
  - cbn [occursIn]. apply orb_true_iff in H as [H|H]; [now rewrite H|].
    apply andb_true_iff in H as [_ H]. rewrite (IH false H). apply orb_true_r.
Qed.

Lemma addon_search_after_star (a : atom) (ts : list term) (d : string) :
  (forall b s, AddOn.matchTerms ts b s = String.prefix d s) ->
  forall (b : bool) (s : string),
    AddOn.testFrom [TStar a :: ts] b s = occursIn d s.
Proof.
  intros Hts b s. revert b. induction s as [|c r IH]; intros b.
  - cbn [AddOn.testFrom AddOn.matchHere existsb].
    rewrite addon_star_unfold, Hts. simpl. now rewrite !orb_false_r.
  - cbn [AddOn.testFrom AddOn.matchHere existsb].
    rewrite IH, addon_star_unfold, Hts. cbn [occursIn].
    destruct (String.prefix d (String c r)); [reflexivity|].
    destruct (AddOn.atomMatches a c); [|reflexivity].
    destruct (AddOn.matchTerms (TStar a :: ts) false r) eqn:E; [|reflexivity].
    now rewrite (addon_star_occurs a ts d Hts false r E).
Qed.

(** X22.  The matcher of the add-on does not know the wildcards.  On a pattern
    of literal characters, dots and question marks it is a test for a
    substring, with the case kept: the question mark stands for a dot, and a
    star before or after the pattern changes nothing. *)
Theorem AddOn_matchesPattern_is_a_substring_test :
  forall name q : string,
    literalPattern q = true ->
    AddOn.matchesPattern name q = Some (occursIn (replaceAll "?" "." q) name)
    /\ AddOn.matchesPattern name ("*" ++ q)
       = Some (occursIn (replaceAll "?" "." q) name)
    /\ AddOn.matchesPattern name (q ++ "*")
       = Some (occursIn (replaceAll "?" "." q) name).
Proof.
  intros name q Hq. unfold AddOn.matchesPattern.
  destruct (addon_RegExp_new_literal q Hq) as (E1 & E2 & E3).
  rewrite E1, E2, E3. unfold AddOn.RegExp_test.
  assert (H0 : forall b s, AddOn.matchTerms (literalTerms q) b s
                           = String.prefix (replaceAll "?" "." q) s).
  { intros b s. rewrite <- (app_nil_r (literalTerms q)).
    now apply addon_match_literal. }
  repeat split; f_equal.
  - now apply addon_search_literal.
  - now apply addon_search_after_star.
  - apply addon_search_literal. intros b s. apply addon_match_literal.
    intros b' r. now destruct r.
Qed.

Lemma AddOn_matchesPattern_witness :
  AddOn.matchesPattern "notes.txt.bak" "*.txt" = Some true
  /\ AddOn.matchesPattern "NOTES.TXT" "*.txt" = Some false
  /\ AddOn.matchesPattern "a-txt" "?txt" = Some false
  /\ AddOn.matchesPattern "report.txt" "r*.txt" = Some false.
Proof.
  split; [|repeat split; vm_compute; reflexivity].
  exact (proj1 (proj2 (AddOn_matchesPattern_is_a_substring_test
                         "notes.txt.bak" ".txt" eq_refl))).
Defined.

(** ** searchFiles of the add-on *)

Lemma addon_forEntries_app (h : Host) (pattern : string) (recursive : bool)
      (recurse : string -> nat -> list SearchHit -> list SearchHit * outcome)
      (dirPath : string) (depth : nat) (before after : list Dirent) :
  forall results,
    AddOn.forEntries h pattern recursive recurse dirPath depth
                     (before ++ after)%list results
    = match AddOn.forEntries h pattern recursive recurse dirPath depth before results with
      | (r, Completed) =>
          AddOn.forEntries h pattern recursive recurse dirPath depth after r
      | stopped => stopped
      end.
Proof.
  induction before as [|e before IH]; intros results; [reflexivity|].
  simpl app. cbn [AddOn.forEntries].
  destruct (if entryIsFile e then _ else _) as [r o].
  destruct o; auto.
Qed.

Lemma addon_forEntries_files (h : Host) (pattern : string) (recursive : bool)
      (re : regex)
      (recurse : string -> nat -> list SearchHit -> list SearchHit * outcome)
      (dirPath : string) (depth : nat) (entries : list Dirent) :
  AddOn.RegExp_new (AddOn.patternSource pattern) = Some re ->
  (forall x, In x entries ->
     entryIsDirectory x = false
     /\ (entryIsFile x = true -> AddOn.RegExp_test re (d_name x) = true ->
         exists s, fs_stat h (Path.join2 dirPath (d_name x)) = Return s)) ->
  forall results,
    snd (AddOn.forEntries h pattern recursive recurse dirPath depth entries results)
    = Completed.
Proof.
  intros Hre. induction entries as [|e entries IH]; intros Hall results;
    [reflexivity|].
  cbn [AddOn.forEntries].
  destruct (Hall e (or_introl eq_refl)) as [Hd Hf].
  assert (Hrest : forall x, In x entries ->
            entryIsDirectory x = false
            /\ (entryIsFile x = true -> AddOn.RegExp_test re (d_name x) = true ->
                exists s, fs_stat h (Path.join2 dirPath (d_name x)) = Return s))
    by (intros x Hx; apply Hall; now right).
  rewrite Hd. simpl andb. cbv iota.
  destruct (entryIsFile e) eqn:Ef; [|now apply IH].
  unfold AddOn.visitFile, AddOn.matchesPattern. rewrite Hre.
  destruct (AddOn.RegExp_test re (d_name e)) eqn:Et; [|now apply IH].
  destruct (Hf eq_refl eq_refl) as [s Hs]. rewrite Hs. now apply IH.
Qed.

Lemma addon_searchInDirectory_S (h : Host) (pattern : string) (recursive : bool)
      (fuel : nat) (dirPath : string) (depth : nat) (results : list SearchHit) :
  AddOn.searchInDirectory h pattern recursive (S fuel) dirPath depth results
  = match fs_readdir h dirPath with
    | Throw m => (results, Thrown m)
    | Return entries =>
        AddOn.forEntries h pattern recursive
          (AddOn.searchInDirectory h pattern recursive fuel)
          dirPath depth entries results
    end.
Proof. reflexivity. Qed.

(** X23.  In the add-on nothing guards the descent: a subdirectory of the root
    that cannot be read fails the whole recursive search, and the hits
    collected before it are lost. *)
Theorem AddOn_searchFiles_fails_on_unreadable_subdirectory :
  forall (fuel : nat) (h : Host) (restricted : list string)
         (searchPath pattern v m : string) (re : regex)
         (before after : list Dirent) (d : Dirent),
    validatePath h searchPath restricted = Return v ->
    AddOn.RegExp_new (AddOn.patternSource pattern) = Some re ->
    fs_readdir h v = Return (before ++ d :: after)%list ->
    (forall x, In x before ->
       entryIsDirectory x = false
       /\ (entryIsFile x = true -> AddOn.RegExp_test re (d_name x) = true ->
           exists s, fs_stat h (Path.join2 v (d_name x)) = Return s)) ->
    entryIsDirectory d = true ->
    fs_readdir h (Path.join2 v (d_name d)) = Throw m ->
    AddOn.searchFiles (S (S fuel)) h restricted searchPath pattern true
    = Some (Failure m).
Proof.
  intros fuel h restricted searchPath pattern v m re before after d
         Hv Hre Hr Hbefore Hd Hsub.
  unfold AddOn.searchFiles. rewrite Hv.
  rewrite addon_searchInDirectory_S, Hr, addon_forEntries_app.
  pose proof (addon_forEntries_files h pattern true re
                (AddOn.searchInDirectory h pattern true (S fuel)) v 0 before
                Hre Hbefore []) as Hc.
  destruct (AddOn.forEntries h pattern true
              (AddOn.searchInDirectory h pattern true (S fuel)) v 0 before [])
    as [r o].
  simpl in Hc. subst o. cbn [AddOn.forEntries].
  assert (Ef : entryIsFile d = false)
    by (unfold entryIsFile, entryIsDirectory in *; destruct (d_kind d);
        [discriminate Hd | reflexivity | discriminate Hd]).
  rewrite Ef, Hd. simpl andb. cbv iota.
  now rewrite addon_searchInDirectory_S, Hsub.
Qed.


Lemma AddOn_searchFiles_unreadable_witness :
  AddOn.searchFiles 2 MoreFixtures.vaultHost [] "/v" ".txt" true
  = Some (Failure "EACCES: permission denied, scandir '/v/locked'")
  /\ search_files MoreFixtures.vaultHost Fixtures.openConfig "/v" "*.txt" true
     = Some (Success (mkSearchData "/v" "*.txt" true
                        [mkSearchHit "a.txt" "/v/a.txt" "/v" 1 2000 ".txt" "text/plain";
                         mkSearchHit "b.txt" "/v/b.txt" "/v" 2 2000 ".txt" "text/plain"]
                        2)).
Proof.
  split; [|vm_compute; reflexivity].
  apply (AddOn_searchFiles_fails_on_unreadable_subdirectory
           0 MoreFixtures.vaultHost [] "/v" ".txt" "/v"
           "EACCES: permission denied, scandir '/v/locked'"
           [literalTerms ".txt"]
           [mkDirent "a.txt" RegularFile] [mkDirent "b.txt" RegularFile]
           (mkDirent "locked" Directory));
    try reflexivity.
  intros x [<-|[]]. split; [reflexivity|]. intros _ _. eexists. reflexivity.
Defined.

(** X24.  The add-on shows a whole number of a unit, of a size a double holds
    exactly, with two zeros after the point, and has the unit TB above
    GB. *)
Theorem AddOn_formatFileSize_whole_units :
  forall (k : N) (j : nat),
    (j < 5)%nat ->
    (1 <= k)%N ->
    (j = 4%nat \/ (k < 1024)%N) ->
    (k * 1024 ^ N.of_nat j < 2 ^ 53)%N ->
    AddOn.formatFileSize (k * 1024 ^ N.of_nat j)
    = ofNumber k ++ ".00 " ++ nth j ["B"; "KB"; "MB"; "GB"; "TB"] "".
Proof.
  intros k j Hj Hk Hcap _. unfold AddOn.formatFileSize.
  rewrite (FormatFacts.formatWith_whole ["B"; "KB"; "MB"; "GB"; "TB"] 2 k j);
    [| lia | exact Hj | exact Hk | destruct Hcap; [left; simpl; lia | now right]].
  do 5 (destruct j as [|j]; [reflexivity|]). simpl in Hj. lia.
Qed.

Lemma AddOn_formatFileSize_witness :
  AddOn.formatFileSize (5 * 1024 * 1024 * 1024 * 1024) = "5.00 TB"
  /\ formatFileSize (5 * 1024 * 1024 * 1024 * 1024) = "5120.0 GB".
Proof.
  split; [|vm_compute; reflexivity].
  apply (AddOn_formatFileSize_whole_units 5 4); [lia | lia | right; lia | reflexivity].
Defined.

(** ** Restricted entries that are not absolute *)

(** X4.  A restricted entry that is not empty and does not start with a slash
    denies nothing: every validated path starts with a slash.  The default
    list, of Windows directories, is of this kind. *)
Theorem validatePath_relative_entries_deny_nothing :
  forall (h : Host) (filePath : string) (restrictedPaths : list string),
    startsWith (cwd h) "/" = true ->
    (forall r, In r restrictedPaths -> r <> "" /\ startsWith r "/" = false) ->
    validatePath h filePath restrictedPaths = Return (Path.resolve (cwd h) filePath).
Proof.
  intros h filePath restrictedPaths Hcwd Hrel.
  apply validatePath_Return. split; [reflexivity|].
  intros r Hin. destruct (Hrel r Hin) as [Hne Hslash].
  destruct (resolve_canonical (cwd h) filePath Hcwd) as (segs & _ & ->).
  destruct r as [|c r]; [congruence|].
  unfold startsWith in *. simpl toLowerCase.
  change (toLowerCase ("/" ++ join "/" segs))
    with (String "/"%char (toLowerCase (join "/" segs))).
  rewrite prefix_cons in *.
  change (lowerChar "/") with "/"%char.
  destruct (ascii_dec (lowerChar c) "/") as [E|_]; [|reflexivity].
  exfalso. pose proof (lowerChar_slash c) as L. rewrite E in L.
  simpl in L. symmetry in L. apply Ascii.eqb_eq in L. subst c.
  rewrite prefix_empty in Hslash.
  destruct (ascii_dec "/" "/") as [_|N]; [discriminate Hslash | now apply N].
Qed.

Lemma validatePath_relative_entries_witness :
  validatePath MoreFixtures.vaultHost "C:\Windows\System32\drivers\etc\hosts"
               DEFAULT_RESTRICTED_PATHS
  = Return "/C:\Windows\System32\drivers\etc\hosts".
Proof.
  apply (validatePath_relative_entries_deny_nothing MoreFixtures.vaultHost
           "C:\Windows\System32\drivers\etc\hosts" DEFAULT_RESTRICTED_PATHS eq_refl).
  intros r [<-|[<-|[<-|[]]]]; split; (discriminate || reflexivity).
Defined.
